(** * gitscribe: the commit-message engine, its git adapter and its cache gate

    A shallow embedding of the TypeScript sources

    - [lib/git.ts]           ([GitService.getStagedChanges], both copies found
                              in the repository, and
                              [GitService.getRepositoryName]),
    - [lib/ai-assistant.ts]  ([AICommitAssistant]: the prompt, the response
                              parser, the diff feature extractor, the change
                              classifier, the heuristic summarizer with its
                              text generators, and the orchestrator),
    - [cli/index.ts]         ([CLI.loadCache], [CLI.saveCache],
                              [CLI.clearCache] and [CLI.commit]),

    followed by the properties the specification states about them and by
    further properties of the code.

    Conventions of the embedding.

    - A JavaScript string is a list of code units.  Code units are the bytes
      of [ascii] (the range 0..255 of UTF-16, i.e. Basic Latin and Latin-1);
      white space, line terminators and case mapping are the ECMAScript ones
      restricted to that range.
    - [undefined] and [null] are [None]; a JavaScript array is a list; the
      counts [additions] and [deletions] are natural numbers.
    - Code that can throw returns a [result]; [try]/[catch] is [tryCatch].
    - What the outside world answers (git, the text model, the timer, the
      cache file, the clock) is an explicit argument of the function that
      asks for it. *)

From Stdlib Require Import List Ascii String Arith ZArith Bool Lia Permutation.
From Stdlib Require Import QArith DecimalString.
From Stdlib Require DecimalNat DecimalFacts.
Import ListNotations.

Local Close Scope Q_scope.
Local Open Scope nat_scope.
Local Open Scope list_scope.
Local Open Scope bool_scope.

Set Implicit Arguments.

(* ================================================================== *)
(** ** JavaScript strings and arrays *)
(* ================================================================== *)

Module JS.

Definition jsstring := list ascii.

(** String literals of the source are written [str "..."]. *)
Definition str (s : string) : jsstring := list_ascii_of_string s.

Definition jsstring_eqb (a b : jsstring) : bool :=
  if list_eq_dec ascii_dec a b then true else false.

Definition code (c : ascii) : nat := nat_of_ascii c.

(** ECMAScript [WhiteSpace] and [LineTerminator] below U+0100: TAB, LF, VT,
    FF, CR, SPACE and NBSP.  This is the set of [\s] and of [trim]. *)
Definition isWhiteSpace (c : ascii) : bool :=
  let n := code c in
  ((9 <=? n) && (n <=? 13)) || (n =? 32) || (n =? 160).

(** [LineTerminator] below U+0100: LF and CR. [.] matches everything else. *)
Definition isLineTerminator (c : ascii) : bool :=
  let n := code c in (n =? 10) || (n =? 13).

Definition isDot (c : ascii) : bool := negb (isLineTerminator c).

Definition isUpperAZ (c : ascii) : bool :=
  let n := code c in (65 <=? n) && (n <=? 90).

Definition isLowerAZ (c : ascii) : bool :=
  let n := code c in (97 <=? n) && (n <=? 122).

Definition isDigit (c : ascii) : bool :=
  let n := code c in (48 <=? n) && (n <=? 57).

(** [\w] is [[A-Za-z0-9_]]. *)
Definition isWord (c : ascii) : bool :=
  isUpperAZ c || isLowerAZ c || isDigit c || (code c =? 95).

(** [toLowerCase] on one code unit: A-Z, and the Latin-1 capitals
    U+00C0..U+00DE except the multiplication sign U+00D7. *)
Definition lowerChar (c : ascii) : ascii :=
  let n := code c in
  if isUpperAZ c then ascii_of_nat (n + 32)
  else if (192 <=? n) && (n <=? 222) && negb (n =? 215) then ascii_of_nat (n + 32)
  else c.

(** [toUpperCase] on one code unit: a-z, and the Latin-1 small letters
    U+00E0..U+00FE except the division sign U+00F7.  (The three code units
    whose upper case leaves the range, U+00B5, U+00DF and U+00FF, are left
    alone; the source upper-cases only captured HTTP verbs, which are ASCII
    letters.) *)
Definition upperChar (c : ascii) : ascii :=
  let n := code c in
  if isLowerAZ c then ascii_of_nat (n - 32)
  else if (224 <=? n) && (n <=? 254) && negb (n =? 247) then ascii_of_nat (n - 32)
  else c.

Definition toLowerCase (s : jsstring) : jsstring := map lowerChar s.
Definition toUpperCase (s : jsstring) : jsstring := map upperChar s.

Fixpoint trimStart (s : jsstring) : jsstring :=
  match s with
  | c :: s' => if isWhiteSpace c then trimStart s' else s
  | [] => []
  end.

Definition trimEnd (s : jsstring) : jsstring := rev (trimStart (rev s)).

Definition trim (s : jsstring) : jsstring := trimEnd (trimStart s).

(** [s.startsWith(p)] *)
Fixpoint startsWith (s p : jsstring) {struct p} : bool :=
  match p, s with
  | [], _ => true
  | a :: p', b :: s' => Ascii.eqb a b && startsWith s' p'
  | _ :: _, [] => false
  end.

(** [s.endsWith(p)] *)
Definition endsWith (s p : jsstring) : bool := startsWith (rev s) (rev p).

(** [s.includes(p)] *)
Fixpoint includes (s p : jsstring) {struct s} : bool :=
  startsWith s p ||
  match s with
  | [] => false
  | _ :: s' => includes s' p
  end.

(** [s.split(sep)] for a one-character separator; never the empty array. *)
Fixpoint split (s : jsstring) (sep : ascii) : list jsstring :=
  match s with
  | [] => [[]]
  | c :: s' =>
      if Ascii.eqb c sep then [] :: split s' sep
      else match split s' sep with
           | l :: ls => (c :: l) :: ls
           | [] => [[c]]
           end
  end.

(** [a.join(sep)] *)
Fixpoint join (a : list jsstring) (sep : jsstring) : jsstring :=
  match a with
  | [] => []
  | [x] => x
  | x :: rest => x ++ sep ++ join rest sep
  end.

(** [a.slice(0, n)] *)
Definition slice0 {A} (a : list A) (n : nat) : list A := firstn n a.

(** [a.some(f)] *)
Definition some {A} (a : list A) (f : A -> bool) : bool := existsb f a.

Definition mem (x : jsstring) (l : list jsstring) : bool :=
  existsb (jsstring_eqb x) l.

(** [[...new Set(a)]]: the elements of [a] in order of first occurrence. *)
Fixpoint setFrom (seen : list jsstring) (a : list jsstring) : list jsstring :=
  match a with
  | [] => []
  | x :: a' => if mem x seen then setFrom seen a' else x :: setFrom (x :: seen) a'
  end.

Definition newSet (a : list jsstring) : list jsstring := setFrom [] a.

(** Number to string, for the counts interpolated in templates. *)
Definition numToString (n : nat) : jsstring :=
  str (NilEmpty.string_of_uint (Nat.to_uint n)).

(** Truthiness of a string and of an optional string. *)
Definition truthy (s : jsstring) : bool :=
  match s with [] => false | _ => true end.

Definition truthyOpt (s : option jsstring) : bool :=
  match s with Some s' => truthy s' | None => false end.

End JS.
Import JS.

(* ================================================================== *)
(** ** Results and exceptions *)
(* ================================================================== *)

(** The outcome of code that may throw: a value, or the thrown error with
    its message.  What is thrown is an [Error] object. *)
Inductive result (A : Type) : Type :=
| Ok (a : A)
| Throw (message : jsstring).
Arguments Ok {A} a.
Arguments Throw {A} message.

(** [`${error}`] for a caught [Error] with message [message]:
    [Error.prototype.toString] puts the name and a colon before a message
    that is not empty, and answers with the name alone otherwise. *)
Definition errorText (message : jsstring) : jsstring :=
  if truthy message then str "Error: " ++ message else str "Error".

Definition bind {A B} (r : result A) (f : A -> result B) : result B :=
  match r with
  | Ok a => f a
  | Throw m => Throw m
  end.

Notation "x <- r ;; k" := (bind r (fun x => k))
  (at level 61, r at next level, right associativity).

(** [try { body } catch (error) { handler(error) }] *)
Definition tryCatch {A} (body : result A) (handler : jsstring -> result A) : result A :=
  match body with
  | Ok a => Ok a
  | Throw m => handler m
  end.

(** Reading a property or calling a method of [undefined] throws. *)
Definition defined {A} (o : option A) : result A :=
  match o with
  | Some a => Ok a
  | None => Throw (str "TypeError: Cannot read properties of undefined")
  end.

(* ================================================================== *)
(** ** Regular expressions *)
(* ================================================================== *)

(** The fragment of ECMAScript regular expressions the sources use, with a
    backtracking matcher that follows the specification's priorities:
    alternatives left to right, greedy quantifiers, leftmost start.  Every
    quantifier [*] and [+] of the sources stands on a character class. *)
Module RegExp.

Inductive regex : Type :=
| Eps                              (* the empty pattern *)
| Chr (c : ascii)                  (* a literal character *)
| Cls (p : ascii -> bool)          (* a character class, [.] included *)
| Seq (r1 r2 : regex)              (* r1r2 *)
| Alt (r1 r2 : regex)              (* r1|r2 *)
| Star (p : ascii -> bool)         (* class*, greedy *)
| Plus (p : ascii -> bool)         (* class+, greedy *)
| Opt (r : regex)                  (* (?:r)?, greedy *)
| Grp (n : nat) (r : regex)        (* capturing group number n *)
| Eol.                             (* $ without the m flag *)

(** The captures of a match, most recent first. *)
Definition captures := list (nat * jsstring).

Fixpoint cap (n : nat) (cs : captures) : option jsstring :=
  match cs with
  | [] => None
  | (m, v) :: cs' => if Nat.eqb n m then Some v else cap n cs'
  end.

(** A literal word. *)
Fixpoint lit (s : jsstring) : regex :=
  match s with
  | [] => Eps
  | [c] => Chr c
  | c :: s' => Seq (Chr c) (lit s')
  end.

Fixpoint seqs (rs : list regex) : regex :=
  match rs with
  | [] => Eps
  | [r] => r
  | r :: rs' => Seq r (seqs rs')
  end.

Fixpoint alts (rs : list regex) : regex :=
  match rs with
  | [] => Eps
  | [r] => r
  | r :: rs' => Alt r (alts rs')
  end.

Definition orElse {A} (a b : option A) : option A :=
  match a with Some _ => a | None => b end.

(** The text between two positions of the input, each given by what is
    left of the input there: what a group captures. *)
Definition consumed (s s' : jsstring) : jsstring :=
  firstn (List.length s - List.length s') s.
Arguments consumed : simpl never.

Section Matcher.

(** The [i] flag.  Without the [u] flag a pattern character and an input
    character match when their upper-case forms agree, and a character
    outside ASCII never matches an ASCII one. All pattern letters of the
    sources are ASCII. *)
Variable ignoreCase : bool.

Definition canonicalize (c : ascii) : ascii :=
  if isLowerAZ c then ascii_of_nat (code c - 32) else c.

Definition sameChar (a b : ascii) : bool :=
  if ignoreCase then Ascii.eqb (canonicalize a) (canonicalize b)
  else Ascii.eqb a b.

(** Greedy repetition of a class: take the longest run, give characters
    back one at a time while the continuation fails. *)
Fixpoint greedy (p : ascii -> bool) (s : jsstring)
         (k : jsstring -> option captures) : option captures :=
  match s with
  | c :: s' => if p c then orElse (greedy p s' k) (k s) else k s
  | [] => k []
  end.

Fixpoint run (r : regex) (s : jsstring) (cs : captures)
         (k : jsstring -> captures -> option captures) : option captures :=
  match r with
  | Eps => k s cs
  | Chr c =>
      match s with
      | a :: s' => if sameChar c a then k s' cs else None
      | [] => None
      end
  | Cls p =>
      match s with
      | a :: s' => if p a then k s' cs else None
      | [] => None
      end
  | Seq r1 r2 => run r1 s cs (fun s' cs' => run r2 s' cs' k)
  | Alt r1 r2 => orElse (run r1 s cs k) (run r2 s cs k)
  | Star p => greedy p s (fun s' => k s' cs)
  | Plus p =>
      match s with
      | a :: s' => if p a then greedy p s' (fun s'' => k s'' cs) else None
      | [] => None
      end
  | Opt r' => orElse (run r' s cs k) (k s cs)
  | Grp n r' =>
      run r' s cs
          (fun s' cs' => k s' ((n, consumed s s') :: cs'))
  | Eol =>
      match s with
      | [] => k s cs
      | _ :: _ => None
      end
  end.

Definition accept : jsstring -> captures -> option captures :=
  fun _ cs => Some cs.

(** Without [^] the match may start anywhere; starts are tried left to
    right, the end of the input included. *)
Fixpoint search (r : regex) (s : jsstring) : option captures :=
  match run r s [] accept with
  | Some cs => Some cs
  | None =>
      match s with
      | [] => None
      | _ :: s' => search r s'
      end
  end.

End Matcher.

(** A regular-expression literal: [/^pattern/] when [anchored], flag [i]
    when [ignoreCase].  In the sources [^] only occurs as the first thing of
    a pattern. *)
Record t : Type := mk
  { anchored : bool;
    ignoreCase : bool;
    pattern : regex }.

(** [s.match(re)] for a regular expression without the [g] flag. *)
Definition exec (re : t) (s : jsstring) : option captures :=
  if anchored re then run (ignoreCase re) (pattern re) s [] accept
  else search (ignoreCase re) (pattern re) s.

(** [re.test(s)], and [s.match(re)] used as a condition. *)
Definition test (re : t) (s : jsstring) : bool :=
  match exec re s with Some _ => true | None => false end.

End RegExp.

Import RegExp.

(* ================================================================== *)
(** ** Data model ([lib/git.ts], [lib/ai-assistant.ts]) *)
(* ================================================================== *)

(** [interface GitDiff] *)
Record GitDiff : Type := mkGitDiff
  { file : jsstring;
    status : jsstring;
    additions : nat;
    deletions : nat;
    diff : jsstring }.

(** [interface StagedChanges] *)
Record StagedChanges : Type := mkStagedChanges
  { files : list GitDiff;
    summary : jsstring;
    hasChanges : bool }.

(** [interface CommitMessageSuggestion].  [type] is one of the ten literals
    of the union type, held as the string it is at run time; [confidence] is
    the decimal literal of the source as a rational. *)
Record CommitMessageSuggestion : Type := mkSuggestion
  { type : jsstring;
    scope : option jsstring;
    subject : jsstring;
    body : option jsstring;
    breaking : bool;
    fullMessage : jsstring;
    confidence : Q }.

(** The literals of [CommitMessageSuggestion['type']], in the order of the
    declaration (and of the header pattern). *)
Definition commitTypes : list jsstring :=
  map str ["feat"; "fix"; "refactor"; "docs"; "style"; "test"; "chore";
           "perf"; "ci"; "build"]%string.

(* ================================================================== *)
(** ** The generative response parser ([parseAIResponse]) *)
(* ================================================================== *)

Module Parser.

Definition notRParen (c : ascii) : bool := negb (Ascii.eqb c ")").

(** [/^(feat|fix|refactor|docs|style|test|chore|perf|ci|build)(\(([^)]+)\))?(!)?:\s*(.+)$/i] *)
Definition headerRe : RegExp.t :=
  RegExp.mk true true
    (seqs [ Grp 1 (alts (map lit commitTypes));
            Opt (Grp 2 (seqs [Chr "("; Grp 3 (Plus notRParen); Chr ")"]));
            Opt (Grp 4 (Chr "!"));
            Chr ":";
            Star isWhiteSpace;
            Grp 5 (Plus isDot);
            Eol ]).

Definition stopMarkers : list jsstring :=
  map str [ "Generate a conventional commit";
            "IMPORTANT:";
            "Good example format:";
            "Bad example (DO NOT DO THIS):";
            "First line: type(scope):";
            "Format: type(scope):";
            "Commit message:";
            "Body (required for multi-file changes):";
            "Focus on the MEANING and PURPOSE" ]%string.

Definition hasStopMarker (rawLine : jsstring) : bool :=
  let line := trim rawLine in
  some stopMarkers (fun marker => includes line marker).

(** The first loop: the index of the first line holding a stop marker, the
    number of lines when there is none. *)
Fixpoint stopAtLine (lines : list jsstring) : nat :=
  match lines with
  | [] => 0
  | l :: ls => if hasStopMarker l then 0 else S (stopAtLine ls)
  end.

(** [currentSuggestion: Partial<CommitMessageSuggestion> | null], with the
    four fields the loop assigns. *)
Record Current : Type := mkCurrent
  { c_type : jsstring;
    c_scope : option jsstring;
    c_subject : jsstring;
    c_breaking : bool }.

(** The variables of the second loop.  ([foundFirstSuggestion] is written
    and never read.) *)
Record State : Type := mkState
  { suggestions : list CommitMessageSuggestion;
    currentSuggestion : option Current;
    bodyLines : list jsstring }.

Definition initial : State := mkState [] None [].

(** [if (currentSuggestion && currentSuggestion.type &&
    currentSuggestion.subject) { ... suggestions.push({...}) }]: the block
    that occurs before a new suggestion is started and once more after the
    loop.  The result is the array after the block. *)
Definition pushCurrent (st : State) : list CommitMessageSuggestion :=
  match currentSuggestion st with
  | Some cur =>
      if truthy (c_type cur) && truthy (c_subject cur) then
        let body :=
          if 0 <? List.length (bodyLines st)
          then Some (trim (join (bodyLines st) (str (String "010" ""))))
          else None in
        let fullMessage :=
          c_type cur
          ++ (if truthyOpt (c_scope cur)
              then str "(" ++ match c_scope cur with Some s => s | None => [] end ++ str ")"
              else [])
          ++ (if c_breaking cur then str "!" else [])
          ++ str ": " ++ c_subject cur
          ++ (if truthyOpt body
              then str (String "010" (String "010" "")) ++ match body with Some b => b | None => [] end
              else []) in
        suggestions st ++
          [ {| type := c_type cur;
               scope := c_scope cur;
               subject := c_subject cur;
               body := body;
               breaking := c_breaking cur || false;
               fullMessage := fullMessage;
               confidence := 0.9%Q |} ]
      else suggestions st
  | None => suggestions st
  end.

Definition isMetaCommentary (line subjectText : jsstring) : bool :=
  includes subjectText (str "type(scope)") ||
  includes subjectText (str "brief description") ||
  includes subjectText (str "what was accomplished") ||
  includes (toLowerCase line) (str "description:") ||
  jsstring_eqb subjectText (str "improvements") ||
  jsstring_eqb subjectText (str "updates").

Definition isInstruction (line : jsstring) : bool :=
  includes (toLowerCase line) (str "commit message") ||
  includes (toLowerCase line) (str "example") ||
  includes (toLowerCase line) (str "format") ||
  includes (toLowerCase line) (str "generate") ||
  includes line (str "Type:") ||
  includes line (str "Scope:") ||
  includes line (str "Description:") ||
  includes (toLowerCase line) (str "what specific improvements") ||
  includes (toLowerCase line) (str "why these changes") ||
  includes (toLowerCase line) (str "key files or components") ||
  includes (toLowerCase line) (str "focus on").

(** One iteration of the second loop, on [relevantLines[i]]. *)
Definition step (st : State) (rawLine : jsstring) : result State :=
  let line := trim rawLine in
  if negb (truthy line) then Ok st
  else
    match RegExp.exec headerRe line with
    | Some m =>
        (* const [, type, , scope, breaking, subject] = match; *)
        let type := cap 1 m in
        let scope := cap 3 m in
        let breaking := cap 4 m in
        let subject := cap 5 m in
        subject' <- defined subject ;;
        let subjectText := trim subject' in
        if isMetaCommentary line subjectText then Ok st
        else
          let suggestions' := pushCurrent st in
          type' <- defined type ;;
          Ok {| suggestions := suggestions';
                currentSuggestion :=
                  Some {| c_type := toLowerCase type';
                          c_scope := option_map trim scope;
                          c_subject := subjectText;
                          c_breaking :=
                            truthyOpt breaking ||
                            includes line (str "BREAKING CHANGE") |};
                bodyLines := [] |}
    | None =>
        match currentSuggestion st with
        | Some _ =>
            if isInstruction line then Ok st
            else Ok {| suggestions := suggestions st;
                       currentSuggestion := currentSuggestion st;
                       bodyLines := bodyLines st ++ [line] |}
        | None => Ok st
        end
    end.

Fixpoint loop (lines : list jsstring) (st : State) : result State :=
  match lines with
  | [] => Ok st
  | l :: ls => st' <- step st l ;; loop ls st'
  end.

(** [parseAIResponse(text, changes)]; [changes] is not used by the body. *)
Definition parseAIResponse (text : jsstring) (changes : StagedChanges)
  : result (list CommitMessageSuggestion) :=
  let lines := split text "010"%char in
  let relevantLines := slice0 lines (stopAtLine lines) in
  st <- loop relevantLines initial ;;
  Ok (slice0 (pushCurrent st) 2).

End Parser.

(* ================================================================== *)
(** ** The diff feature extractor ([analyzeDiffsInDepth]) *)
(* ================================================================== *)

Module Extractor.

Definition isQuote (c : ascii) : bool :=
  Ascii.eqb c "'" || Ascii.eqb c "034".

(** [(export\s+)?] as group [n] *)
Definition exportOpt (n : nat) : regex :=
  Opt (Grp n (seqs [lit (str "export"); Plus isWhiteSpace])).

(** [/^(export\s+)?(async\s+)?function\s+(\w+)/] *)
Definition functionDeclRe : RegExp.t :=
  RegExp.mk true false
    (seqs [ exportOpt 1;
            Opt (Grp 2 (seqs [lit (str "async"); Plus isWhiteSpace]));
            lit (str "function"); Plus isWhiteSpace; Grp 3 (Plus isWord) ]).

(** [/function\s+(\w+)/] *)
Definition functionNameRe : RegExp.t :=
  RegExp.mk false false
    (seqs [ lit (str "function"); Plus isWhiteSpace; Grp 1 (Plus isWord) ]).

(** [/^(export\s+)?const\s+(\w+)\s*=\s*(\(.*\)|async)/] *)
Definition arrowDeclRe : RegExp.t :=
  RegExp.mk true false
    (seqs [ exportOpt 1;
            lit (str "const"); Plus isWhiteSpace; Grp 2 (Plus isWord);
            Star isWhiteSpace; Chr "="; Star isWhiteSpace;
            Grp 3 (Alt (seqs [Chr "("; Star isDot; Chr ")"])
                       (lit (str "async"))) ]).

(** [/const\s+(\w+)/] *)
Definition constNameRe : RegExp.t :=
  RegExp.mk false false
    (seqs [ lit (str "const"); Plus isWhiteSpace; Grp 1 (Plus isWord) ]).

(** [/^(export\s+)?class\s+(\w+)/] *)
Definition classDeclRe : RegExp.t :=
  RegExp.mk true false
    (seqs [ exportOpt 1;
            lit (str "class"); Plus isWhiteSpace; Grp 2 (Plus isWord) ]).

(** [/class\s+(\w+)/] *)
Definition classNameRe : RegExp.t :=
  RegExp.mk false false
    (seqs [ lit (str "class"); Plus isWhiteSpace; Grp 1 (Plus isWord) ]).

(** [/\.(tsx|jsx)$/] *)
Definition jsxFileRe : RegExp.t :=
  RegExp.mk false false
    (seqs [ Chr "."; Grp 1 (Alt (lit (str "tsx")) (lit (str "jsx"))); Eol ]).

(** [/^(export\s+)?(const|function)\s+([A-Z]\w+)/] *)
Definition componentDeclRe : RegExp.t :=
  RegExp.mk true false
    (seqs [ exportOpt 1;
            Grp 2 (Alt (lit (str "const")) (lit (str "function")));
            Plus isWhiteSpace;
            Grp 3 (Seq (Cls isUpperAZ) (Plus isWord)) ]).

(** [/(?:const|function)\s+([A-Z]\w+)/] *)
Definition componentNameRe : RegExp.t :=
  RegExp.mk false false
    (seqs [ Alt (lit (str "const")) (lit (str "function"));
            Plus isWhiteSpace;
            Grp 1 (Seq (Cls isUpperAZ) (Plus isWord)) ]).

(** [/^import\s+.*from/] *)
Definition importRe : RegExp.t :=
  RegExp.mk true false
    (seqs [ lit (str "import"); Plus isWhiteSpace; Star isDot;
            lit (str "from") ]).

(** [/from\s+['"](.+)['"]/] *)
Definition importFromRe : RegExp.t :=
  RegExp.mk false false
    (seqs [ lit (str "from"); Plus isWhiteSpace; Cls isQuote;
            Grp 1 (Plus isDot); Cls isQuote ]).

(** [/config|\.json$|\.yaml$|\.env/] *)
Definition configFileRe : RegExp.t :=
  RegExp.mk false false
    (alts [ lit (str "config");
            Seq (lit (str ".json")) Eol;
            Seq (lit (str ".yaml")) Eol;
            lit (str ".env") ]).

(** [/['"'](\w+)['"']\s*:/] *)
Definition configKeyRe : RegExp.t :=
  RegExp.mk false false
    (seqs [ Cls isQuote; Grp 1 (Plus isWord); Cls isQuote;
            Star isWhiteSpace; Chr ":" ]).

(** [/<([A-Z]\w+)/] *)
Definition jsxTagRe : RegExp.t :=
  RegExp.mk false false
    (seqs [ Chr "<"; Grp 1 (Seq (Cls isUpperAZ) (Plus isWord)) ]).

(** [/route\.|api\//] *)
Definition apiFileRe : RegExp.t :=
  RegExp.mk false false
    (Alt (lit (str "route.")) (lit (str "api/"))).

Definition httpVerbs : list jsstring :=
  map str ["get"; "post"; "put"; "patch"; "delete"]%string.

(** [/\.(get|post|put|patch|delete)\(/i] *)
Definition apiCallRe : RegExp.t :=
  RegExp.mk false true
    (seqs [ Chr "."; Grp 1 (alts (map lit httpVerbs)); Chr "(" ]).

(** The eight arrays the scan fills. *)
Record Found : Type := mkFound
  { f_newFunctions : list jsstring;
    f_newClasses : list jsstring;
    f_newComponents : list jsstring;
    f_newImports : list jsstring;
    f_modifiedFunctions : list jsstring;
    f_configChanges : list jsstring;
    f_uiChanges : list jsstring;
    f_apiChanges : list jsstring }.

Definition nothingFound : Found := mkFound [] [] [] [] [] [] [] [].

(** [if (content.match(guard)) { const match = content.match(name);
    if (match) a.push(match[1]); }].  Group 1 of every [name] pattern of
    this function stands outside any optional part, so [match[1]] is a
    string whenever there is a match; it is read through [defined]. *)
Definition pushName (guard : bool) (name : RegExp.t) (content : jsstring)
           (a : list jsstring) : result (list jsstring) :=
  if guard then
    match RegExp.exec name content with
    | Some m => v <- defined (cap 1 m) ;; Ok (a ++ [v])
    | None => Ok a
    end
  else Ok a.

(** [if (content.match(/^import\s+.*from/)) { const match = ...;
    if (match) { const pkg = match[1].split('/')[0];
    if (!pkg.startsWith('.')) newImports.push(pkg); } }] *)
Definition pushImport (content : jsstring) (newImports : list jsstring)
  : result (list jsstring) :=
  if RegExp.test importRe content then
    match RegExp.exec importFromRe content with
    | Some m =>
        from <- defined (cap 1 m) ;;
        let pkg := hd [] (split from "/") in
        if negb (startsWith pkg (str "."))
        then Ok (newImports ++ [pkg])
        else Ok newImports
    | None => Ok newImports
    end
  else Ok newImports.

(** [if (file.file.match(/route\.|api\//)) { if (content.match(re)) {
    const match = content.match(re);
    if (match) apiChanges.push(match[1].toUpperCase()); } }] *)
Definition pushVerb (path content : jsstring) (apiChanges : list jsstring)
  : result (list jsstring) :=
  if RegExp.test apiFileRe path then
    if RegExp.test apiCallRe content then
      match RegExp.exec apiCallRe content with
      | Some m =>
          verb <- defined (cap 1 m) ;;
          Ok (apiChanges ++ [toUpperCase verb])
      | None => Ok apiChanges
      end
    else Ok apiChanges
  else Ok apiChanges.

(** The body of [lines.forEach((line, idx) => ...)] for a line of the
    entry [f] of [changes.files]. *)
Definition scanLine (f : GitDiff) (acc : Found) (line : jsstring)
  : result Found :=
  if negb (startsWith line (str "+")) then Ok acc
  else
    let content := trim (skipn 1 line) in
    (* Detect new functions *)
    newFunctions1 <-
      pushName (RegExp.test functionDeclRe content) functionNameRe content
               (f_newFunctions acc) ;;
    (* Detect new arrow functions *)
    newFunctions2 <-
      pushName (RegExp.test arrowDeclRe content) constNameRe content
               newFunctions1 ;;
    (* Detect new classes *)
    newClasses <-
      pushName (RegExp.test classDeclRe content) classNameRe content
               (f_newClasses acc) ;;
    (* Detect new React components *)
    newComponents <-
      pushName (RegExp.test jsxFileRe (file f) &&
                RegExp.test componentDeclRe content)
               componentNameRe content (f_newComponents acc) ;;
    (* Detect new imports *)
    newImports <- pushImport content (f_newImports acc) ;;
    (* Detect config changes *)
    configChanges <-
      pushName (RegExp.test configFileRe (file f)) configKeyRe content
               (f_configChanges acc) ;;
    (* Detect UI changes *)
    uiChanges <-
      pushName (RegExp.test jsxFileRe (file f) &&
                RegExp.test jsxTagRe content)
               jsxTagRe content (f_uiChanges acc) ;;
    (* Detect API changes *)
    apiChanges <- pushVerb (file f) content (f_apiChanges acc) ;;
    Ok {| f_newFunctions := newFunctions2;
          f_newClasses := newClasses;
          f_newComponents := newComponents;
          f_newImports := newImports;
          f_modifiedFunctions := f_modifiedFunctions acc;
          f_configChanges := configChanges;
          f_uiChanges := uiChanges;
          f_apiChanges := apiChanges |}.

Fixpoint scanLines (f : GitDiff) (lines : list jsstring) (acc : Found)
  : result Found :=
  match lines with
  | [] => Ok acc
  | l :: ls => acc' <- scanLine f acc l ;; scanLines f ls acc'
  end.

(** [changes.files.forEach(file => { const lines = file.diff.split('\n');
    lines.forEach(...) })] *)
Fixpoint scanFiles (fs : list GitDiff) (acc : Found) : result Found :=
  match fs with
  | [] => Ok acc
  | f :: fs' =>
      acc' <- scanLines f (split (diff f) "010"%char) acc ;;
      scanFiles fs' acc'
  end.

(** The value [analyzeDiffsInDepth] returns. *)
Record DiffAnalysis : Type := mkDiffAnalysis
  { newFunctions : list jsstring;
    newClasses : list jsstring;
    newComponents : list jsstring;
    newImports : list jsstring;
    modifiedFunctions : list jsstring;
    configChanges : list jsstring;
    uiChanges : list jsstring;
    apiChanges : list jsstring;
    mainPurpose : jsstring }.

(** [word${a.length > 1 ? suffix : ''}] *)
Definition plural (a : list jsstring) (suffix : string) : jsstring :=
  if 1 <? List.length a then str suffix else [].

(** The chain that chooses [mainPurpose]. *)
Definition choosePurpose (found : Found) : jsstring :=
  let newComponents := f_newComponents found in
  let newFunctions := f_newFunctions found in
  let newClasses := f_newClasses found in
  let apiChanges := f_apiChanges found in
  let uiChanges := f_uiChanges found in
  let configChanges := f_configChanges found in
  let newImports := f_newImports found in
  if 3 <? List.length newComponents then
    str "implementing " ++ numToString (List.length newComponents)
    ++ str " new UI components"
  else if 0 <? List.length newComponents then
    str "adding " ++ join (slice0 newComponents 3) (str ", ")
    ++ str " component" ++ plural newComponents "s"
  else if 5 <? List.length newFunctions then
    str "implementing multiple utility functions and helpers"
  else if 0 <? List.length newFunctions then
    str "adding " ++ join (slice0 newFunctions 3) (str ", ")
    ++ str " function" ++ plural newFunctions "s"
  else if 0 <? List.length newClasses then
    str "implementing " ++ join newClasses (str ", ")
    ++ str " class" ++ plural newClasses "es"
  else if 0 <? List.length apiChanges then
    str "adding " ++ join (newSet apiChanges) (str ", ")
    ++ str " API endpoint" ++ plural apiChanges "s"
  else if 5 <? List.length uiChanges then
    str "enhancing UI with multiple component updates"
  else if 0 <? List.length configChanges then
    str "updating configuration settings"
  else if 0 <? List.length newImports then
    let uniqueImports := newSet newImports in
    str "integrating " ++ join (slice0 uniqueImports 2) (str " and ")
    ++ str " "
    ++ (if 2 <? List.length uniqueImports then str "and other " else [])
    ++ str "dependencies"
  else [].

(** The [return] statement. *)
Definition summarize (found : Found) : DiffAnalysis :=
  {| newFunctions := slice0 (newSet (f_newFunctions found)) 5;
     newClasses := slice0 (newSet (f_newClasses found)) 3;
     newComponents := slice0 (newSet (f_newComponents found)) 5;
     newImports := slice0 (newSet (f_newImports found)) 5;
     modifiedFunctions := f_modifiedFunctions found;
     configChanges := slice0 (newSet (f_configChanges found)) 5;
     uiChanges := slice0 (newSet (f_uiChanges found)) 10;
     apiChanges := newSet (f_apiChanges found);
     mainPurpose := choosePurpose found |}.

Definition analyzeDiffsInDepth (changes : StagedChanges) : result DiffAnalysis :=
  found <- scanFiles (files changes) nothingFound ;;
  Ok (summarize found).

End Extractor.

(* ================================================================== *)
(** ** The change classifier ([analyzeChangesForFallback]) *)
(* ================================================================== *)

Module Classifier.

(** The eight flags and the array the scan of [changes.files] updates. *)
Record Flags : Type := mkFlags
  { hasTests : bool;
    hasDocs : bool;
    hasConfig : bool;
    hasBuild : bool;
    hasComponents : bool;
    hasAPI : bool;
    hasStyles : bool;
    hasCLI : bool;
    mainFiles : list jsstring }.

Definition noFlags : Flags :=
  mkFlags false false false false false false false false [].

(** The body of [changes.files.forEach(file => ...)]: one [if]/[else if]
    chain, the first branch whose test holds runs. *)
Definition visit (fl : Flags) (f : GitDiff) : Flags :=
  let p := file f in
  if includes p (str ".test.") || includes p (str ".spec.") then
    mkFlags true (hasDocs fl) (hasConfig fl) (hasBuild fl) (hasComponents fl)
            (hasAPI fl) (hasStyles fl) (hasCLI fl) (mainFiles fl)
  else if endsWith p (str ".md") then
    mkFlags (hasTests fl) true (hasConfig fl) (hasBuild fl) (hasComponents fl)
            (hasAPI fl) (hasStyles fl) (hasCLI fl)
            (if 10 <? additions f then mainFiles fl ++ [p] else mainFiles fl)
  else if includes p (str "package.json") || includes p (str "tsconfig.json")
          || includes p (str ".config.") then
    mkFlags (hasTests fl) (hasDocs fl) true (hasBuild fl) (hasComponents fl)
            (hasAPI fl) (hasStyles fl) (hasCLI fl) (mainFiles fl)
  else if includes p (str "webpack") || includes p (str "vite")
          || includes p (str "build") || includes p (str "/dist/") then
    mkFlags (hasTests fl) (hasDocs fl) (hasConfig fl) true (hasComponents fl)
            (hasAPI fl) (hasStyles fl) (hasCLI fl) (mainFiles fl)
  else if includes p (str "/cli/") || includes p (str "cli-") then
    mkFlags (hasTests fl) (hasDocs fl) (hasConfig fl) (hasBuild fl)
            (hasComponents fl) (hasAPI fl) (hasStyles fl) true (mainFiles fl)
  else if includes p (str "component") || endsWith p (str ".tsx")
          || endsWith p (str ".jsx") then
    mkFlags (hasTests fl) (hasDocs fl) (hasConfig fl) (hasBuild fl) true
            (hasAPI fl) (hasStyles fl) (hasCLI fl)
            (if 20 <? additions f + deletions f
             then mainFiles fl ++ [p] else mainFiles fl)
  else if includes p (str "/api/") || includes p (str "route.")
          || includes p (str "controller") then
    mkFlags (hasTests fl) (hasDocs fl) (hasConfig fl) (hasBuild fl)
            (hasComponents fl) true (hasStyles fl) (hasCLI fl)
            (mainFiles fl ++ [p])
  else if endsWith p (str ".css") || endsWith p (str ".scss")
          || includes p (str "style") then
    mkFlags (hasTests fl) (hasDocs fl) (hasConfig fl) (hasBuild fl)
            (hasComponents fl) (hasAPI fl) true (hasCLI fl) (mainFiles fl)
  else if 30 <? additions f + deletions f then
    mkFlags (hasTests fl) (hasDocs fl) (hasConfig fl) (hasBuild fl)
            (hasComponents fl) (hasAPI fl) (hasStyles fl) (hasCLI fl)
            (mainFiles fl ++ [p])
  else fl.

(** [changes.files.reduce((sum, f) => sum + f.additions, 0)] and the same
    for deletions. *)
Definition totalAdditions (fs : list GitDiff) : nat :=
  fold_left (fun sum f => sum + additions f) fs 0.

Definition totalDeletions (fs : list GitDiff) : nat :=
  fold_left (fun sum f => sum + deletions f) fs 0.

(** The value [analyzeChangesForFallback] returns. *)
Record Analysis : Type := mkAnalysis
  { a_type : jsstring;
    category : jsstring;
    a_mainFiles : list jsstring }.

(** The chain that determines [type] and [category]. *)
Definition decide (fl : Flags) (fs : list GitDiff) : jsstring * jsstring :=
  if hasTests fl then (str "test", str "testing")
  else if hasDocs fl && negb (hasComponents fl) && negb (hasAPI fl) then
    (str "docs", str "documentation")
  else if hasConfig fl && (List.length fs <=? 3) then
    (str "chore", str "configuration")
  else if hasBuild fl || hasCLI fl then
    (str "build", if hasCLI fl then str "cli" else str "build")
  else if hasStyles fl && negb (hasComponents fl) && negb (hasAPI fl) then
    (str "style", str "styling")
  else if hasAPI fl then
    let additions := totalAdditions fs in
    (if 50 <? additions then str "feat" else str "fix", str "API")
  else if hasComponents fl then
    let additions := totalAdditions fs in
    (if 50 <? additions then str "feat" else str "fix", str "components")
  else
    let additions := totalAdditions fs in
    let deletions := totalDeletions fs in
    if deletions * 2 <? additions then (str "feat", str "features")
    else if additions * 2 <? deletions then (str "refactor", str "refactoring")
    else (str "fix", str "fixes").

Definition analyzeChangesForFallback (changes : StagedChanges) : Analysis :=
  let fl := fold_left visit (files changes) noFlags in
  let (type, category) := decide fl (files changes) in
  {| a_type := type; category := category; a_mainFiles := mainFiles fl |}.

End Classifier.

(* ================================================================== *)
(** ** The heuristic summarizer and the orchestrator *)
(* ================================================================== *)

(** [interface AIProcessingOptions] *)
Record AIProcessingOptions : Type := mkOptions
  { maxTokens : option nat;
    temperature : option Q;
    verbosity : option jsstring;
    includeBody : option bool;
    customPrompt : option jsstring }.

(** How the race of [withTimeout] between the generation and the timer can
    end, seen from the call [this.model(prompt, {...})]: the call resolves
    first, with [result[0]?.generated_text]; it rejects first; or the timer
    fires while the call is still pending. *)
Inductive CallOutcome : Type :=
| Resolves (generated_text : option jsstring)
| Rejects (message : jsstring)
| StillPending.

(** The loaded text-generation pipeline: what the call answers for the
    prompt built from [changes] and [options].  ([buildPrompt] only
    interpolates text and feeds nothing but this call.) *)
Definition Pipeline : Type := StagedChanges -> AIProcessingOptions -> CallOutcome.

(** The fields of an [AICommitAssistant] object. *)
Record Assistant : Type := mkAssistant
  { modelId : jsstring;
    model : option Pipeline;
    modelLoaded : bool }.

(** What the process environment answers during one call. *)
Record World : Type := mkWorld
  { (* process.env.AI_COMMIT_SKIP_AI *)
    AI_COMMIT_SKIP_AI : option jsstring;
    (* await pipeline('text-generation', modelId) *)
    pipeline : jsstring -> result Pipeline }.

Module Engine.

Import Classifier Extractor.

Section AICommitAssistant.

(** The three text generators of the summarizer ([generateSmartSubject],
    [generateSmartBody] with [generateWhyItMatters], [generateSmartScope]
    with [findMostCommon]) build strings from their arguments and return
    on every input.  Their wording rests on floating-point thresholds and
    on property enumeration order; the properties below hold whatever
    text they produce, so they are left abstract. *)
Variable generateSmartSubject :
  StagedChanges -> Analysis -> DiffAnalysis -> jsstring.
Variable generateSmartBody :
  StagedChanges -> Analysis -> DiffAnalysis -> option jsstring.
Variable generateSmartScope :
  StagedChanges -> Analysis -> option jsstring.

Definition generateFallbackSuggestions (changes : StagedChanges)
  : result (list CommitMessageSuggestion) :=
  let analysis := analyzeChangesForFallback changes in
  diffAnalysis <- analyzeDiffsInDepth changes ;;
  let subject := generateSmartSubject changes analysis diffAnalysis in
  let body := generateSmartBody changes analysis diffAnalysis in
  let scope := generateSmartScope changes analysis in
  let fullMessage :=
    a_type analysis
    ++ (if truthyOpt scope
        then str "(" ++ match scope with Some s => s | None => [] end ++ str ")"
        else [])
    ++ str ": " ++ subject
    ++ (if truthyOpt body
        then str (String "010" (String "010" ""))
             ++ match body with Some b => b | None => [] end
        else []) in
  Ok [ {| type := a_type analysis;
          scope := scope;
          subject := subject;
          body := body;
          breaking := false;
          fullMessage := fullMessage;
          confidence := 0.85%Q |} ].

(** [loadModel()]: the object after the call. It does not throw. *)
Definition loadModel (w : World) (self : Assistant) : Assistant :=
  if modelLoaded self then self
  else
    match pipeline w (modelId self) with
    | Ok m => {| modelId := modelId self; model := Some m; modelLoaded := true |}
    | Throw _ => {| modelId := modelId self; model := model self; modelLoaded := false |}
    end.

(** [generateAIBasedSuggestions(changes, options)] as the promise handed
    to [withTimeout]: [None] while the model call is pending when the
    timer fires, otherwise the settled result. *)
Definition generateAIBasedSuggestions (m : Pipeline)
           (changes : StagedChanges) (options : AIProcessingOptions)
  : option (result (list CommitMessageSuggestion)) :=
  match m changes options with
  | Resolves generated_text =>
      let generatedText :=
        if truthyOpt generated_text
        then match generated_text with Some t => t | None => [] end
        else [] in
      Some (Parser.parseAIResponse generatedText changes)
  | Rejects message => Some (Throw message)
  | StillPending => None
  end.

(** [withTimeout(promise, ms, errorMessage)]: the promise's own result if
    it settles first, a rejection with [errorMessage] if the timer does. *)
Definition withTimeout {T} (promise : option (result T))
           (errorMessage : jsstring) : result T :=
  match promise with
  | Some settled => settled
  | None => Throw errorMessage
  end.

(** [generateCommitMessage(changes, options)]: the object after the call
    and the result.  Console output is not represented. *)
Definition generateCommitMessage (w : World) (self : Assistant)
           (changes : StagedChanges) (options : AIProcessingOptions)
  : Assistant * result (list CommitMessageSuggestion) :=
  let skipAI :=
    match AI_COMMIT_SKIP_AI w with
    | Some v => jsstring_eqb v (str "true")
    | None => false
    end
    || jsstring_eqb (modelId self) (str "none") in
  if skipAI then (self, generateFallbackSuggestions changes)
  else
    (* try { *)
    let self' := if negb (modelLoaded self) then loadModel w self else self in
    let attempt : result (option (list CommitMessageSuggestion)) :=
      match modelLoaded self', model self' with
      | true, Some m =>
          aiSuggestions <-
            withTimeout (generateAIBasedSuggestions m changes options)
                        (str "AI generation timed out") ;;
          if 0 <? List.length aiSuggestions
          then Ok (Some aiSuggestions)   (* return aiSuggestions *)
          else Ok None
      | _, _ => Ok None
      end in
    (* } catch (error) { console.warn(...) } *)
    match tryCatch attempt (fun _ => Ok None) with
    | Ok (Some aiSuggestions) => (self', Ok aiSuggestions)
    | Ok None => (self', generateFallbackSuggestions changes)
    | Throw m => (self', Throw m)
    end.

End AICommitAssistant.

End Engine.

(* ================================================================== *)
(** ** The version-control adapter ([GitService.getStagedChanges]) *)
(* ================================================================== *)

Module Git.

(** An entry of [status.files] of simple-git. *)
Record FileStatus : Type := mkFileStatus
  { path : jsstring;
    index : jsstring }.

(** The part of simple-git's [StatusResult] the adapter reads. *)
Record StatusResult : Type := mkStatus
  { staged : list jsstring;
    st_files : list FileStatus }.

(** What the [SimpleGit] object answers: [git.status()] and
    [git.diff(args)], each a string or a rejection. *)
Record SimpleGit : Type := mkGit
  { git_status : result StatusResult;
    git_diff : list jsstring -> result jsstring }.

(** [diffLines.filter(line => line.startsWith(mark)).length] *)
Definition countLines (diffLines : list jsstring) (mark : string) : nat :=
  List.length (filter (fun line => startsWith line (str mark)) diffLines).

(** [status.files.find(f => f.path === file)] *)
Definition findStatus (status : StatusResult) (f : jsstring) : option FileStatus :=
  find (fun s => jsstring_eqb (path s) f) (st_files status).

(** [x?.index || 'M'] *)
Definition indexOrM (fileStatus : option FileStatus) : jsstring :=
  match fileStatus with
  | Some s => if truthy (index s) then index s else str "M"
  | None => str "M"
  end.

Definition totalAdditions (diffs : list GitDiff) : nat :=
  fold_left (fun sum d => sum + additions d) diffs 0.

Definition totalDeletions (diffs : list GitDiff) : nat :=
  fold_left (fun sum d => sum + deletions d) diffs 0.

(** The object returned after the loop. *)
Definition report (diffs : list GitDiff) : StagedChanges :=
  {| files := diffs;
     summary :=
       numToString (List.length diffs) ++ str " file(s) changed, "
       ++ numToString (totalAdditions diffs) ++ str " insertions(+), "
       ++ numToString (totalDeletions diffs) ++ str " deletions(-)";
     hasChanges := true |}.

Definition noStagedChanges : StagedChanges :=
  {| files := []; summary := str "No staged changes found"; hasChanges := false |}.

(** The entry pushed when the diff of [f] was read. *)
Definition entryOf (status : StatusResult) (f diff : jsstring) : GitDiff :=
  let diffLines := split diff "010"%char in
  {| file := f;
     status := indexOrM (findStatus status f);
     additions := countLines diffLines "+";
     deletions := countLines diffLines "-";
     diff := diff |}.

(** The copy of [lib/git.ts] that asks for [git diff --cached -- file] and
    has a [catch] branch that adds "minimal info". *)
Module GitService.

(** One iteration of [for (const file of stagedFiles)]. *)
Definition visit (git : SimpleGit) (status : StatusResult)
           (diffs : list GitDiff) (f : jsstring) : result (list GitDiff) :=
  tryCatch
    (diff <- git_diff git [str "--cached"; str "--"; f] ;;
     Ok (diffs ++ [entryOf status f diff]))
    (fun error =>
       let fileStatus := findStatus status f in
       match fileStatus with
       | Some s =>
           Ok (diffs ++
               [ {| file := f;
                    status := if truthy (index s) then index s else str "M";
                    additions := 0;
                    deletions := 0;
                    diff := str "// Unable to retrieve diff for " ++ f |} ])
       | None => Ok diffs
       end).

Fixpoint forEachStaged (git : SimpleGit) (status : StatusResult)
         (stagedFiles : list jsstring) (diffs : list GitDiff)
  : result (list GitDiff) :=
  match stagedFiles with
  | [] => Ok diffs
  | f :: rest =>
      diffs' <- visit git status diffs f ;;
      forEachStaged git status rest diffs'
  end.

Definition getStagedChanges (git : SimpleGit) : result StagedChanges :=
  tryCatch
    (status <- git_status git ;;
     let stagedFiles := staged status in
     if List.length stagedFiles =? 0 then Ok noStagedChanges
     else
       diffs <- forEachStaged git status stagedFiles [] ;;
       Ok (report diffs))
    (fun error =>
       Throw (str "Failed to get staged changes: " ++ errorText error)).

End GitService.

(** The other copy of [lib/git.ts] (the earlier source, which is also the
    one [build-cli.sh] ships compiled): [git diff --cached file], and a
    [catch] branch that only warns. *)
Module GitServiceWarnOnly.

Definition visit (git : SimpleGit) (status : StatusResult)
           (diffs : list GitDiff) (f : jsstring) : result (list GitDiff) :=
  tryCatch
    (diff <- git_diff git [str "--cached"; f] ;;
     Ok (diffs ++ [entryOf status f diff]))
    (fun error => Ok diffs).

Fixpoint forEachStaged (git : SimpleGit) (status : StatusResult)
         (stagedFiles : list jsstring) (diffs : list GitDiff)
  : result (list GitDiff) :=
  match stagedFiles with
  | [] => Ok diffs
  | f :: rest =>
      diffs' <- visit git status diffs f ;;
      forEachStaged git status rest diffs'
  end.

Definition getStagedChanges (git : SimpleGit) : result StagedChanges :=
  tryCatch
    (status <- git_status git ;;
     let stagedFiles := staged status in
     if List.length stagedFiles =? 0 then Ok noStagedChanges
     else
       diffs <- forEachStaged git status stagedFiles [] ;;
       Ok (report diffs))
    (fun error =>
       Throw (str "Failed to get staged changes: " ++ errorText error)).

End GitServiceWarnOnly.

End Git.

(* ================================================================== *)
(** ** The result cache of the command line ([CLI.loadCache], [CLI.commit]) *)
(* ================================================================== *)

Module CLI.

Local Open Scope Z_scope.

(** [interface SuggestionCache]; [timestamp] in milliseconds. *)
Record SuggestionCache : Type := mkCache
  { suggestions : list CommitMessageSuggestion;
    changesSummary : jsstring;
    timestamp : Z }.

(** What [existsSync(CACHE_FILE)] and
    [JSON.parse(readFileSync(CACHE_FILE, 'utf-8'))] answer. *)
Inductive CacheFile : Type :=
| Absent
| Unreadable (message : jsstring)          (* reading or parsing throws *)
| Holds (cache : SuggestionCache).

(** [loadCache()], with [now] the value of [Date.now()]. *)
Definition loadCache (cacheFile : CacheFile) (now : Z) : option SuggestionCache :=
  match cacheFile with
  | Absent => None
  | Unreadable _ => None                   (* catch: ignore cache errors *)
  | Holds cache =>
      if now - timestamp cache <? 5 * 60 * 1000 then Some cache else None
  end.

(** Where the [suggestions] of [commit] come from. *)
Inductive Origin : Type :=
| FromCache
| Generated.

(** The [suggestions] of [commit]: the choice between the cached ones and
    [await this.aiAssistant.generateCommitMessage(changes, aiOptions)],
    whose result is [fresh]. *)
Definition commitSuggestions (cacheFile : CacheFile) (now : Z)
           (changes : StagedChanges)
           (fresh : result (list CommitMessageSuggestion))
  : Origin * result (list CommitMessageSuggestion) :=
  let cache := loadCache cacheFile now in
  match cache with
  | Some c =>
      if jsstring_eqb (changesSummary c) (summary changes)
         && (0 <? Z.of_nat (List.length (suggestions c)))
      then (FromCache, Ok (suggestions c))
      else (Generated, fresh)
  | None => (Generated, fresh)
  end.

End CLI.

(* ================================================================== *)
(** ** The prompt ([buildPrompt], [analyzeChanges], [identifyFilePatterns]) *)
(* ================================================================== *)

Module Prompt.

Definition lf : jsstring := ["010"%char].

(** [files.filter(p).length] *)
Definition count (fs : list GitDiff) (p : GitDiff -> bool) : nat :=
  List.length (filter p fs).

(** [if (n > 0) a.push(`${n}${text}`)], as what is appended. *)
Definition counted (n : nat) (text : string) : list jsstring :=
  if 0 <? n then [numToString n ++ str text] else [].

Definition identifyFilePatterns (fs : list GitDiff) : list jsstring :=
  (* Check for documentation changes *)
  let docFiles := count fs (fun f => endsWith (file f) (str ".md")) in
  (* Check for test changes *)
  let testFiles :=
    count fs (fun f => includes (file f) (str ".test.")
                       || includes (file f) (str ".spec.")) in
  (* Check for config changes *)
  let configFiles :=
    count fs (fun f => includes (file f) (str "config")
                       || includes (file f) (str ".json")
                       || includes (file f) (str ".yaml")) in
  (* Check for component/UI changes *)
  let componentFiles :=
    count fs (fun f => includes (file f) (str "component")
                       || includes (file f) (str "/ui/")
                       || endsWith (file f) (str ".tsx")) in
  (* Check for API/route changes *)
  let apiFiles :=
    count fs (fun f => includes (file f) (str "/api/")
                       || includes (file f) (str "route")) in
  counted docFiles " documentation file(s)"
  ++ counted testFiles " test file(s)"
  ++ counted configFiles " config file(s)"
  ++ counted componentFiles " component file(s)"
  ++ counted apiFiles " API file(s)".

Definition analyzeChanges (changes : StagedChanges) : jsstring :=
  let fs := files changes in
  (* Count change types *)
  let added := count fs (fun f => jsstring_eqb (status f) (str "A")) in
  let modified := count fs (fun f => jsstring_eqb (status f) (str "M")) in
  let deleted := count fs (fun f => jsstring_eqb (status f) (str "D")) in
  (* Identify patterns in changes *)
  let filePatterns := identifyFilePatterns fs in
  (* Calculate change magnitude *)
  let totalAdditions := fold_left (fun sum f => sum + additions f) fs 0 in
  let totalDeletions := fold_left (fun sum f => sum + deletions f) fs 0 in
  let analysis :=
    counted added " file(s) added"
    ++ counted modified " file(s) modified"
    ++ counted deleted " file(s) deleted"
    ++ (if 0 <? List.length filePatterns
        then [str "Patterns detected: " ++ join filePatterns (str ", ")]
        else [])
    ++ [str "Total: +" ++ numToString totalAdditions ++ str " -"
        ++ numToString totalDeletions ++ str " lines"] in
  join analysis (str "; ").

(** The fixed text of the template from [IMPORTANT:] to its end, line by
    line. *)
Definition instructions : list jsstring :=
  map str
    [ "IMPORTANT: Write a commit message that describes the PURPOSE and IMPACT of changes, NOT just listing files.";
      "";
      "Good example format:";
      "fix: cleanup ClickUp integration formatting and improve tool handler readability";
      "";
      "- Fixed inconsistent formatting in clickup-story-client.ts and tool-handler.ts";
      "- Improved code readability by reformatting multi-line statements";
      "- Enhanced error handling comments for better debugging clarity";
      "- Added detailed documentation files explaining ClickUp-related fixes";
      "";
      "Bad example (DO NOT DO THIS):";
      "docs(docs): update file1.ts, file2.ts, file3.ts, file4.ts";
      "";
      "Generate a conventional commit message with:";
      "1. First line: type(scope): brief description of the change (max 72 chars)";
      "- Type: feat, fix, refactor, docs, style, test, chore, perf, ci, or build";
      "   - Scope: affected module/component (optional)";
      "   - Description: what was accomplished, not what files changed";
      "";
      "2. Body (required for multi-file changes): bullet points explaining:";
      "   - What specific improvements were made";
      "   - Why these changes matter";
      "   - Key files or components affected (only if relevant)";
      "";
      "Focus on the MEANING and PURPOSE of the changes, not just file names." ]%string.

Section BuildPrompt.

(** The warning sign of the template (U+26A0 U+FE0F), which lies outside
    the alphabet of [jsstring]; it stands in the line that only large
    change sets get. *)
Variable warningSign : jsstring.

(** [`- ${f.file} (${f.status}): +${f.additions} -${f.deletions}`] *)
Definition fileLine (f : GitDiff) : jsstring :=
  str "- " ++ file f ++ str " (" ++ status f ++ str "): +"
  ++ numToString (additions f) ++ str " -" ++ numToString (deletions f).

(** [`File: ${f.file}\n${relevantLines.join('\n')}`] *)
Definition fileDiff (f : GitDiff) : jsstring :=
  let diffLines := split (diff f) "010"%char in
  let relevantLines :=
    slice0 (filter (fun line => startsWith line (str "+")
                                || startsWith line (str "-")
                                || startsWith line (str "@@")) diffLines) 30 in
  str "File: " ++ file f ++ lf ++ join relevantLines lf.

(** [changes.files.length > 20], and the two limits. *)
Definition isLargeChangeset (changes : StagedChanges) : bool :=
  20 <? List.length (files changes).

Definition fileLimit (changes : StagedChanges) : nat :=
  if isLargeChangeset changes then 5 else 10.

Definition diffLimit (changes : StagedChanges) : nat :=
  if isLargeChangeset changes then 2 else 5.

(** Build context from changes. *)
Definition filesContext (changes : StagedChanges) : jsstring :=
  join (map fileLine (slice0 (files changes) (fileLimit changes))) lf
  ++ (if isLargeChangeset changes
      then lf ++ str "... and "
           ++ numToString (List.length (files changes) - fileLimit changes)
           ++ str " more files"
      else []).

(** Get more comprehensive diff context. *)
Definition diffContext (changes : StagedChanges) : jsstring :=
  join (map fileDiff (slice0 (files changes) (diffLimit changes)))
       (lf ++ str "---" ++ lf).

(** The template literal of [buildPrompt] up to the line that only large
    change sets get; the rest of it is [instructions]. *)
Definition templateHead (changes : StagedChanges) : jsstring :=
  let changeAnalysis := analyzeChanges changes in
  let isLargeChangeset := isLargeChangeset changes in
  let filesContext := filesContext changes in
  let diffContext := diffContext changes in
  str "You are an expert at analyzing code changes and writing informative Git commit messages following Conventional Commits specification."
  ++ lf ++ lf
  ++ str "ANALYZE these code changes and write a commit message that explains WHAT was done and WHY:"
  ++ lf ++ lf
  ++ str "Files changed:" ++ lf
  ++ filesContext ++ lf
  ++ lf
  ++ str "Change analysis:" ++ lf
  ++ changeAnalysis ++ lf
  ++ lf
  ++ (if truthy diffContext
      then str "Code diff (what actually changed):" ++ lf ++ diffContext ++ lf
      else [])
  ++ lf
  ++ lf
  ++ (if isLargeChangeset
      then lf ++ warningSign ++ str " LARGE CHANGESET ("
           ++ numToString (List.length (files changes))
           ++ str " files): "
           ++ str "Focus on the OVERALL THEME and PRIMARY PURPOSE, not individual files. Describe the main feature, refactoring, or change being implemented."
           ++ lf
      else []).

Definition buildPrompt (changes : StagedChanges) (options : AIProcessingOptions)
  : jsstring :=
  let verbosity :=
    if truthyOpt (verbosity options)
    then match verbosity options with Some v => v | None => [] end
    else str "balanced" in
  let customPrompt := customPrompt options in
  let basePrompt :=
    templateHead changes
    ++ lf
    ++ lf
    ++ join instructions lf in
  let basePrompt :=
    if truthyOpt customPrompt
    then basePrompt ++ lf ++ lf ++ str "Additional instructions: "
         ++ match customPrompt with Some c => c | None => [] end
    else basePrompt in
  let basePrompt :=
    if jsstring_eqb verbosity (str "concise") then
      basePrompt ++ lf ++ lf
      ++ str "Keep the message brief but still informative about what changed."
    else if jsstring_eqb verbosity (str "detailed") then
      basePrompt ++ lf ++ lf
      ++ str "Provide comprehensive details about the changes and their impact."
    else basePrompt in
  basePrompt ++ lf ++ lf ++ str "Commit message:".

End BuildPrompt.

End Prompt.

(* ================================================================== *)
(** ** The command line: the cache file and [commit] *)
(* ================================================================== *)

Module CLICommands.

Import CLI.

Local Open Scope Z_scope.

(** What [writeFileSync(CACHE_FILE, text)] does: it writes the text, or it
    throws and leaves the file in some state.  A written cache is read back
    by [JSON.parse] with the fields it was written with. *)
Inductive WriteOutcome : Type :=
| Written
| WriteFails (leftover : CacheFile).

(** [saveCache(suggestions, changesSummary)], with [now] the value of
    [Date.now()]: the cache file after the call. *)
Definition saveCache (write : WriteOutcome)
           (suggestions : list CommitMessageSuggestion)
           (changesSummary : jsstring) (now : Z) : CacheFile :=
  match write with
  | Written => Holds {| suggestions := suggestions;
                        changesSummary := changesSummary;
                        timestamp := now |}
  | WriteFails leftover => leftover                (* catch: silently fail *)
  end.

(** [clearCache()]: the cache file after the call. *)
Definition clearCache (write : WriteOutcome) (cacheFile : CacheFile)
  : CacheFile :=
  match cacheFile with
  | Absent => Absent
  | _ =>
      match write with
      | Written => Holds {| suggestions := [];
                            changesSummary := [];
                            timestamp := 0 |}
      | WriteFails leftover => leftover            (* catch: silently fail *)
      end
  end.

(** [a.reduce(f)] without an initial value. *)
Definition reduce {A} (a : list A) (f : A -> A -> A) : result A :=
  match a with
  | [] => Throw (str "TypeError: Reduce of empty array with no initial value")
  | x :: rest => Ok (fold_left f rest x)
  end.

(** [(best, current) => current.confidence > best.confidence ? current : best] *)
Definition higher (best current : CommitMessageSuggestion)
  : CommitMessageSuggestion :=
  match (confidence best ?= confidence current)%Q with
  | Lt => current
  | _ => best
  end.

(** What surrounds one run of [commit]. *)
Record Surroundings : Type := mkSurroundings
  { (* await this.gitService.isGitRepository() *)
    isGitRepository : bool;
    (* await this.gitService.getStagedChanges() *)
    stagedChanges : result StagedChanges;
    (* the cache file before the run *)
    cacheFile : CacheFile;
    (* Date.now() in loadCache and in saveCache *)
    loadedAt : Z;
    savedAt : Z;
    (* await this.aiAssistant.generateCommitMessage(changes, aiOptions) *)
    generated : StagedChanges -> result (list CommitMessageSuggestion);
    (* the two writes of the cache file *)
    saveWrite : WriteOutcome;
    clearWrite : WriteOutcome;
    (* options.noConfirm, and what the user types *)
    noConfirm : bool;
    typed : jsstring;
    (* await this.gitService.commit(message) *)
    gitCommit : jsstring -> result unit }.

(** How a run of [commit] ends. *)
Inductive Ending : Type :=
| Exit1                                   (* process.exit(1) *)
| NothingStaged
| Cancelled (message : jsstring)
| Committed (message : jsstring).

(** [commit(options)]: how it ends, and the cache file after it.  Console
    output is not represented. *)
Definition commit (s : Surroundings) : Ending * CacheFile :=
  if negb (isGitRepository s) then (Exit1, cacheFile s)
  else
    match stagedChanges s with
    | Throw _ => (Exit1, cacheFile s)
    | Ok changes =>
        if negb (hasChanges changes) then (NothingStaged, cacheFile s)
        else
          let (origin, suggestions) :=
            commitSuggestions (cacheFile s) (loadedAt s) changes
                              (generated s changes) in
          match suggestions with
          | Throw _ => (Exit1, cacheFile s)
          | Ok suggestions =>
              let file :=
                match origin with
                | FromCache => cacheFile s
                | Generated =>
                    saveCache (saveWrite s) suggestions (summary changes)
                              (savedAt s)
                end in
              match reduce suggestions higher with
              | Throw _ => (Exit1, file)
              | Ok bestSuggestion =>
                  let answer := trim (toLowerCase (typed s)) in
                  if negb (noConfirm s)
                     && negb (jsstring_eqb answer (str "y"))
                     && negb (jsstring_eqb answer (str "yes"))
                  then (Cancelled (fullMessage bestSuggestion), file)
                  else
                    match gitCommit s (fullMessage bestSuggestion) with
                    | Throw _ => (Exit1, file)
                    | Ok _ =>
                        (Committed (fullMessage bestSuggestion),
                         clearCache (clearWrite s) file)
                    end
              end
          end
    end.

End CLICommands.

(* ================================================================== *)
(** ** The name of the repository ([GitService.getRepositoryName]) *)
(* ================================================================== *)

Module GitNames.

(** An entry of [git.getRemotes(true)]: its name and [refs.fetch]. *)
Record Remote : Type := mkRemote
  { remoteName : jsstring;
    fetch : option jsstring }.

(** [s.replace(p, '')] with a string pattern: the first occurrence goes. *)
Fixpoint removeFirst (s p : jsstring) : jsstring :=
  if startsWith s p then skipn (List.length p) s
  else
    match s with
    | [] => []
    | c :: s' => c :: removeFirst s' p
    end.

(** [a.pop()] on the array [s.split('/')], which is never empty. *)
Definition lastSegment (s : jsstring) : jsstring :=
  last (split s "/"%char) [].

(** [x || 'unknown'] *)
Definition orUnknown (x : jsstring) : jsstring :=
  if truthy x then x else str "unknown".

(** [getRepositoryName()], with what [git.getRemotes(true)] and
    [process.cwd()] answer. *)
Definition getRepositoryName (remotes : result (list Remote)) (cwd : jsstring)
  : result jsstring :=
  tryCatch
    (remotes' <- remotes ;;
     let origin :=
       find (fun r => jsstring_eqb (remoteName r) (str "origin")) remotes' in
     match origin with
     | Some r =>
         if truthyOpt (fetch r) then
           let fetch' := match fetch r with Some f => f | None => [] end in
           Ok (orUnknown (removeFirst (lastSegment fetch') (str ".git")))
         else Ok (orUnknown (lastSegment cwd))
     | None => Ok (orUnknown (lastSegment cwd))
     end)
    (fun _ => Ok (orUnknown (lastSegment cwd))).

End GitNames.

(* ================================================================== *)
(** ** Numbers: a count times a decimal constant *)
(* ================================================================== *)

Module Float.

Local Open Scope Z_scope.

(** The double nearest to a decimal constant [c] with [1/2 <= c < 1], by
    its significand: the double is [significand / 2^53]. *)
Definition significand_0_7 : Z := 6305039478318694.   (* 0x3FE6666666666666 *)
Definition significand_0_6 : Z := 5404319552844595.   (* 0x3FE3333333333333 *)
Definition significand_0_5 : Z := 4503599627370496.   (* 0x3FE0000000000000 *)

(** [n * c] in double arithmetic, for a count [n] and the constant of
    significand [m]: the exact product [n * m / 2^53] rounded to 53
    significant bits, ties to even.  The result is [fst * 2^snd / 2^53].
    (Counts are array lengths, far from overflow.) *)
Definition times (n : nat) (m : Z) : Z * Z :=
  let exact := Z.of_nat n * m in
  let bits := if exact =? 0 then 0 else Z.log2 exact + 1 in
  let shift := Z.max 0 (bits - 53) in
  let q := Z.shiftr exact shift in
  let r := exact - Z.shiftl q shift in
  let half := Z.shiftl 1 (shift - 1) in
  let up :=
    if shift =? 0 then false
    else (half <? r) || ((half =? r) && Z.odd q) in
  (if up then q + 1 else q, shift).

(** [a > n * c], for counts [a] and [n]. *)
Definition gtTimes (a n : nat) (m : Z) : bool :=
  let (q, shift) := times n m in
  Z.shiftl q shift <? Z.shiftl (Z.of_nat a) 53.

End Float.

(* ================================================================== *)
(** ** The text generators of the heuristic summarizer *)
(* ================================================================== *)

Module Summarizer.

Import Classifier Extractor.

(** [s.replace(re, '')] for a pattern without the [g] flag: the leftmost
    match goes.  Starts are tried left to right, as [exec] tries them; the
    whole match is group 0. *)
Fixpoint replaceFirst (ic : bool) (r : regex) (s : jsstring) : jsstring :=
  match run ic (Grp 0 r) s [] accept with
  | Some cs =>
      skipn (List.length (match cap 0 cs with Some m => m | None => [] end)) s
  | None =>
      match s with
      | [] => []
      | c :: s' => c :: replaceFirst ic r s'
      end
  end.

(** [/\.(ts|tsx|js|jsx|md)$/] *)
Definition extensionRe : regex :=
  seqs [ Chr ".";
         Grp 1 (alts (map lit (map str ["ts"; "tsx"; "js"; "jsx"; "md"]%string)));
         Eol ].

(** [p.split('/').pop()] *)
Definition baseName (p : jsstring) : jsstring := last (split p "/"%char) [].

(** [a.filter(f => f.status === st)] *)
Definition withStatus (fs : list GitDiff) (st : string) : list GitDiff :=
  filter (fun f => jsstring_eqb (status f) (str st)) fs.

(** [changes.files.reduce((sum, f) => sum + f.additions, 0)], and the same
    for deletions. *)
Definition sumOf (g : GitDiff -> nat) (fs : list GitDiff) : nat :=
  fold_left (fun sum f => sum + g f) fs 0.

(** [findCommonPath(filePaths)] *)
Section FindCommonPath.

Variable pathParts : list (list jsstring).
Variable shortestPath : list jsstring.

(** The [for] loop from index [i], with [n] iterations left. *)
Fixpoint commonLoop (n i : nat) (commonParts : list jsstring)
  : list jsstring :=
  match n with
  | O => commonParts
  | S n' =>
      match nth_error shortestPath i with
      | Some part =>
          if forallb (fun p => match nth_error p i with
                               | Some x => jsstring_eqb x part
                               | None => false
                               end) pathParts
          then commonLoop n' (S i) (commonParts ++ [part])
          else commonParts
      | None => commonParts
      end
  end.

End FindCommonPath.

(** [(min, curr) => curr.length < min.length ? curr : min] *)
Definition shorter (min curr : list jsstring) : list jsstring :=
  if List.length curr <? List.length min then curr else min.

Definition findCommonPath (filePaths : list jsstring)
  : option (list jsstring) :=
  match map (fun p => split p "/"%char) filePaths with
  | [] => None
  | first :: rest =>
      let pathParts := first :: rest in
      let shortestPath := fold_left shorter rest first in
      let commonParts :=
        commonLoop pathParts shortestPath (List.length shortestPath - 1) 0 [] in
      if 0 <? List.length commonParts then Some commonParts else None
  end.

(** [findMostCommon(strings)].  [counts] is an object: its keys are
    enumerated with the array indices first, in ascending order, and then
    the other keys in the order they were created; and a key that
    [Object.prototype] already has is read as a function the first time,
    so what is stored under it is a string, never a number. *)
Inductive Count : Type :=
| Number (n : nat)
| Text.                                    (* a string that is no number *)

Definition prototypeNames : list jsstring :=
  map str [ "constructor"; "__defineGetter__"; "__defineSetter__";
            "hasOwnProperty"; "__lookupGetter__"; "__lookupSetter__";
            "isPrototypeOf"; "propertyIsEnumerable"; "toString"; "valueOf";
            "__proto__"; "toLocaleString" ]%string.

(** [counts[str] = (counts[str] || 0) + 1] on the own properties, in the
    order they were created. *)
Fixpoint bump (counts : list (jsstring * Count)) (key : jsstring)
  : list (jsstring * Count) :=
  match counts with
  | [] =>
      if jsstring_eqb key (str "__proto__") then []   (* the setter ignores a string *)
      else if mem key prototypeNames then [(key, Text)]
      else [(key, Number 1)]
  | (k, v) :: rest =>
      if jsstring_eqb k key then
        (k, match v with
            | Number n => Number (S n)
            | Text => Text
            end) :: rest
      else (k, v) :: bump rest key
  end.

(** The value of a decimal numeral. *)
Definition digitsValue (s : jsstring) : N :=
  fold_left (fun v c => (10 * v + N.of_nat (code c - 48))%N) s 0%N.

(** An array index: a canonical numeral below [2^32 - 1]. *)
Definition arrayIndex (key : jsstring) : option N :=
  match key with
  | [] => None
  | c :: rest =>
      if forallb isDigit key
         && (negb (Ascii.eqb c "0") || match rest with [] => true | _ => false end)
         && (digitsValue key <? 4294967295)%N
      then Some (digitsValue key)
      else None
  end.

Fixpoint insertIndex (k : N) (e : jsstring * Count)
         (sorted : list (N * (jsstring * Count)))
  : list (N * (jsstring * Count)) :=
  match sorted with
  | [] => [(k, e)]
  | (k', e') :: rest =>
      if (k <? k')%N then (k, e) :: sorted else (k', e') :: insertIndex k e rest
  end.

(** The order of [for (const str in counts)]. *)
Definition enumerate (counts : list (jsstring * Count))
  : list (jsstring * Count) :=
  let indexed :=
    fold_left (fun acc e =>
                 match arrayIndex (fst e) with
                 | Some k => insertIndex k e acc
                 | None => acc
                 end) counts [] in
  map snd indexed
  ++ filter (fun e => match arrayIndex (fst e) with
                      | Some _ => false
                      | None => true
                      end) counts.

(** [if (counts[str] > maxCount) { maxCount = counts[str]; mostCommon = str }] *)
Definition pick (best : nat * jsstring) (e : jsstring * Count)
  : nat * jsstring :=
  match snd e with
  | Number n => if fst best <? n then (n, fst e) else best
  | Text => best
  end.

Definition findMostCommon (strings : list jsstring) : option jsstring :=
  let counts := fold_left bump strings [] in
  let (maxCount, mostCommon) := fold_left pick (enumerate counts) (0, []) in
  if truthy mostCommon then Some mostCommon else None.

(** [generateSmartScope(changes, analysis)] *)
Definition generateSmartScope (changes : StagedChanges) (analysis : Analysis)
  : option jsstring :=
  (* Use category-based scope first for special cases *)
  if jsstring_eqb (category analysis) (str "API") then Some (str "api")
  else if jsstring_eqb (category analysis) (str "components") then Some (str "ui")
  else if jsstring_eqb (category analysis) (str "testing") then Some (str "tests")
  else if jsstring_eqb (category analysis) (str "cli") then Some (str "cli")
  else if jsstring_eqb (category analysis) (str "build") then Some (str "build")
  else
    (* Try to find common directory *)
    let directories :=
      map (fun parts => nth (List.length parts - 2) parts [])
          (filter (fun parts => 1 <? List.length parts)
                  (map (fun f => split (file f) "/"%char) (files changes))) in
    let commonDir := findMostCommon directories in
    let named :=
      match commonDir with
      | Some d =>
          (1 <? List.length d) && negb (jsstring_eqb d (str "src"))
          && negb (jsstring_eqb d (str "lib"))
      | None => false
      end in
    if named then commonDir
    else
      (* Check if mostly lib files *)
      let libFiles :=
        List.length
          (filter (fun f => includes (file f) (str "/lib/")
                            || startsWith (file f) (str "lib/"))
                  (files changes)) in
      if Float.gtTimes libFiles (List.length (files changes))
                       Float.significand_0_6
      then Some (str "lib") else None.

(** [generateWhyItMatters(category, diffAnalysis)] *)
Definition generateWhyItMatters (category : jsstring)
           (diffAnalysis : DiffAnalysis) : jsstring :=
  if jsstring_eqb category (str "components")
     || (0 <? List.length (newComponents diffAnalysis))
  then str "Type: feat | Confidence: 85%"
  else if jsstring_eqb category (str "API")
          || (0 <? List.length (apiChanges diffAnalysis))
  then str "Type: feat | Confidence: 90%"
  else if jsstring_eqb category (str "testing")
  then str "Type: test | Confidence: 95%"
  else if jsstring_eqb category (str "documentation")
  then str "Type: docs | Confidence: 95%"
  else if jsstring_eqb category (str "configuration")
  then str "Type: chore | Confidence: 90%"
  else if (0 <? List.length (newClasses diffAnalysis))
          || (0 <? List.length (newFunctions diffAnalysis))
  then str "Type: feat | Confidence: 85%"
  else [].

Section DeletedFiles.

(** [analyzeDeletedFiles] and [analyzeDeletedFilesForBody] word what was
    deleted, from the words the names of the deleted files share
    ([findCommonWords]).  They return on every input; the properties below
    hold whatever they return. *)
Variable analyzeDeletedFiles : list GitDiff -> option jsstring.
Variable analyzeDeletedFilesForBody : list GitDiff -> list jsstring.

(** [generateSmartSubject(changes, analysis, diffAnalysis)] *)
Definition generateSmartSubject (changes : StagedChanges)
           (analysis : Analysis) (diffAnalysis : DiffAnalysis) : jsstring :=
  match files changes with
  | [file0] =>
      (* For single file changes, be specific *)
      let stripped := replaceFirst false extensionRe (baseName (file file0)) in
      let fileName := if truthy stripped then stripped else file file0 in
      (* Use diff analysis if available *)
      if truthy (mainPurpose diffAnalysis) then mainPurpose diffAnalysis
      else if jsstring_eqb (status file0) (str "A") then str "add " ++ fileName
      else if jsstring_eqb (status file0) (str "D") then str "remove " ++ fileName
      else str "update " ++ fileName
  | _ =>
      (* For multiple files, use diff analysis for better description *)
      let fileCount := List.length (files changes) in
      let deletedFiles := withStatus (files changes) "D" in
      (* Special handling for large deletions *)
      let deletionAnalysis :=
        if Float.gtTimes (List.length deletedFiles) fileCount
                         Float.significand_0_7
        then analyzeDeletedFiles deletedFiles
        else None in
      if truthyOpt deletionAnalysis
      then match deletionAnalysis with Some d => d | None => [] end
      (* If we have a meaningful purpose from diff analysis, use it *)
      else if truthy (mainPurpose diffAnalysis) then mainPurpose diffAnalysis
      (* Try to infer what was done based on file patterns *)
      else if jsstring_eqb (category analysis) (str "documentation") then
        str "update documentation (" ++ numToString fileCount ++ str " files)"
      else if jsstring_eqb (category analysis) (str "testing") then
        str "update tests (" ++ numToString fileCount ++ str " files)"
      else if jsstring_eqb (category analysis) (str "configuration") then
        str "update configuration files"
      else if jsstring_eqb (category analysis) (str "API") then
        str "update API endpoints and handlers"
      else if jsstring_eqb (category analysis) (str "components") then
        str "update UI components (" ++ numToString fileCount ++ str " files)"
      else if jsstring_eqb (category analysis) (str "styling") then
        str "update styles and formatting"
      else
        (* Generic fallback *)
        let additions := sumOf additions (files changes) in
        let deletions := sumOf deletions (files changes) in
        if deletions * 2 <? additions then
          str "add new functionality (" ++ numToString fileCount ++ str " files)"
        else if additions * 2 <? deletions then
          str "refactor and cleanup (" ++ numToString fileCount ++ str " files)"
        else
          str "update multiple files (" ++ numToString fileCount ++ str " changes)"
  end.

(** [if (a.length > 0) parts.push(`${a.length}${text}`)], as what is
    appended. *)
Definition counted (a : list GitDiff) (text : string) : list jsstring :=
  if 0 <? List.length a then [numToString (List.length a) ++ str text] else [].

(** [a.map(f => f.file.split('/').pop()).join(', ')] *)
Definition baseNames (a : list GitDiff) : jsstring :=
  join (map (fun f => baseName (file f)) a) (str ", ").

(** [`${first}${a.length > n ? ` and ${a.length - n}${rest}` : ''}`] with
    [first] the first [n] names. *)
Definition firstOf (a : list jsstring) (n : nat) (rest : string) : jsstring :=
  join (slice0 a n) (str ", ")
  ++ (if n <? List.length a
      then str " and " ++ numToString (List.length a - n) ++ str rest
      else []).

(** [generateSmartBody(changes, analysis, diffAnalysis)] *)
Definition generateSmartBody (changes : StagedChanges)
           (analysis : Analysis) (diffAnalysis : DiffAnalysis)
  : option jsstring :=
  if List.length (files changes) <=? 1 then None
  else
    let components := newComponents diffAnalysis in
    let classes := newClasses diffAnalysis in
    let functions := newFunctions diffAnalysis in
    let imports := newImports diffAnalysis in
    (* 1. Describe new components/classes/functions *)
    let described :=
      (if 0 <? List.length components
       then [str "- Implemented new components: " ++ firstOf components 3 " more"]
       else [])
      ++ (if 0 <? List.length classes
          then [str "- Added " ++ join classes (str ", ") ++ str " class"
                ++ plural classes "es" ++ str " for improved architecture"]
          else [])
      ++ (if (0 <? List.length functions) && (List.length components =? 0)
          then [str "- Implemented helper functions: "
                ++ firstOf functions 3 " more utilities"]
          else [])
      (* 2. Describe new dependencies *)
      ++ (if 0 <? List.length imports
          then [str "- Integrated new dependencies: "
                ++ firstOf imports 3 " others"]
          else [])
      (* 3. Describe configuration changes *)
      ++ (if 0 <? List.length (configChanges diffAnalysis)
          then [str "- Updated configuration settings for "
                ++ join (slice0 (configChanges diffAnalysis) 3) (str ", ")]
          else [])
      (* 4. Describe API changes *)
      ++ (if 0 <? List.length (apiChanges diffAnalysis)
          then [str "- Added " ++ join (apiChanges diffAnalysis) (str ", ")
                ++ str " API endpoint" ++ plural (apiChanges diffAnalysis) "s"]
          else [])
      (* 5. Describe UI enhancements *)
      ++ (if (5 <? List.length (uiChanges diffAnalysis))
             && (List.length components =? 0)
          then [str "- Enhanced UI with "
                ++ numToString (List.length (uiChanges diffAnalysis))
                ++ str " component updates"]
          else []) in
    (* 6. Add file statistics if we have meaningful changes *)
    let added := withStatus (files changes) "A" in
    let modified := withStatus (files changes) "M" in
    let deleted := withStatus (files changes) "D" in
    let statistics :=
      if List.length described =? 0 then
        (* No specific changes detected, fall back to file-based description *)
        (if 0 <? List.length deleted then
           let deletedAnalysis := analyzeDeletedFilesForBody deleted in
           if 0 <? List.length deletedAnalysis then deletedAnalysis
           else if List.length deleted <=? 3
           then [str "- Removed: " ++ baseNames deleted]
           else [str "- Removed " ++ numToString (List.length deleted)
                 ++ str " files"]
         else [])
        ++ (if 0 <? List.length added then
              if List.length added <=? 3
              then [str "- Added: " ++ baseNames added]
              else [str "- Added " ++ numToString (List.length added)
                    ++ str " new files"]
            else [])
        ++ (if 0 <? List.length modified then
              if List.length modified <=? 3
              then [str "- Modified: " ++ baseNames modified]
              else [str "- Modified " ++ numToString (List.length modified)
                    ++ str " existing files"]
            else [])
      else
        (* We have specific changes, just add a summary line *)
        let fileParts :=
          counted added " added" ++ counted modified " modified"
          ++ counted deleted " deleted" in
        if 0 <? List.length fileParts
        then [str "- Files: " ++ join fileParts (str ", ")]
        else [] in
    (* Always add total changes *)
    let total :=
      str "- Total: +" ++ numToString (sumOf additions (files changes))
      ++ str " -" ++ numToString (sumOf deletions (files changes))
      ++ str " lines" in
    (* Add a "why this matters" line based on category *)
    let whyItMatters := generateWhyItMatters (category analysis) diffAnalysis in
    let bullets :=
      described ++ statistics ++ [total]
      ++ (if truthy whyItMatters
          then [(["010"%char] ++ str "   ") ++ whyItMatters]
          else []) in
    if 0 <? List.length bullets
    then Some (join bullets ["010"%char])
    else None.

End DeletedFiles.

End Summarizer.

(* ================================================================== *)
(** ** The wording of deletions ([analyzeDeletedFiles]) *)
(* ================================================================== *)

Module Deletions.

Import Summarizer.

Definition isAlphaNumeric (c : ascii) : bool :=
  isLowerAZ c || isUpperAZ c || isDigit c.

(** [/^[A-Z][a-zA-Z0-9]*$/] *)
Definition pascalCaseRe : RegExp.t :=
  RegExp.mk true false (seqs [ Cls isUpperAZ; Star isAlphaNumeric; Eol ]).

(** The array [patterns], in its order. *)
Definition patterns : list (RegExp.t * jsstring) :=
  [ (* /\.test\.|\.spec\./i *)
    (RegExp.mk false true (Alt (lit (str ".test.")) (lit (str ".spec."))),
     str "remove test files");
    (* /\.md$/i *)
    (RegExp.mk false true (Seq (lit (str ".md")) Eol),
     str "remove documentation files");
    (* /component/i *)
    (RegExp.mk false true (lit (str "component")),
     str "remove deprecated components");
    (* /backup|old|deprecated|unused/i *)
    (RegExp.mk false true
       (alts (map lit (map str ["backup"; "old"; "deprecated"; "unused"]%string))),
     str "remove deprecated files");
    (* /\.css$|\.scss$/i *)
    (RegExp.mk false true
       (Alt (Seq (lit (str ".css")) Eol) (Seq (lit (str ".scss")) Eol)),
     str "remove style files");
    (* /config/i *)
    (RegExp.mk false true (lit (str "config")),
     str "remove configuration files") ].

(** [for (const { pattern, description } of patterns)]: the first pattern
    that more than half of the files match. *)
Fixpoint patternLoop (ps : list (RegExp.t * jsstring))
         (nonGeneratedFiles : list jsstring) : option jsstring :=
  match ps with
  | [] => None
  | (pattern, description) :: ps' =>
      let matchCount :=
        List.length (filter (fun f => test pattern f) nonGeneratedFiles) in
      if Float.gtTimes matchCount (List.length nonGeneratedFiles)
                       Float.significand_0_5
         && (0 <? List.length nonGeneratedFiles)
      then Some (description ++ str " and generated assets")
      else patternLoop ps' nonGeneratedFiles
  end.

Section Words.

(** [findCommonWords(fileNames)]: the words that the names share, the most
    telling first.  [analyzeDeletedFiles] uses its first word only. *)
Variable findCommonWords : list jsstring -> list jsstring.

(** [analyzeDeletedFiles(deletedFiles)], declared [string | null] *)
Definition analyzeDeletedFiles (deletedFiles : list GitDiff)
  : option jsstring :=
  let fileNames := map file deletedFiles in
  (* Look for common file name patterns FIRST *)
  let commonWords := findCommonWords fileNames in
  let byWord : option jsstring :=
    match commonWords with
    | mainWord :: _ =>
        if truthy mainWord && (3 <? List.length mainWord) then
          let isPascalCase := test pascalCaseRe mainWord in
          let isClass :=
            some fileNames
                 (fun f => includes f (str ".d.ts") || includes f (str "class")) in
          if isPascalCase && isClass then
            Some (str "remove deprecated " ++ mainWord
                  ++ str " class and related assets")
          else if isPascalCase then
            Some (str "remove " ++ mainWord ++ str " component and related files")
          else
            Some (str "remove " ++ mainWord ++ str "-related files and assets")
        else None
    | [] => None
    end in
  match byWord with
  | Some description => Some description
  | None =>
      (* Look for common directory or module being removed *)
      let byPath : option jsstring :=
        match findCommonPath fileNames with
        | Some commonPaths =>
            if 1 <? List.length commonPaths then
              let moduleName := List.last commonPaths [] in
              Some (str "remove " ++ moduleName
                    ++ str " module and related files")
            else None
        | None => None
        end in
      match byPath with
      | Some description => Some description
      | None =>
          (* Count files matching each pattern (excluding generated files) *)
          let nonGeneratedFiles :=
            filter (fun f => negb (endsWith f (str ".d.ts"))
                             && negb (endsWith f (str ".map")))
                   fileNames in
          match patternLoop patterns nonGeneratedFiles with
          | Some description => Some description
          | None =>
              Some (str "remove unused files ("
                    ++ numToString (List.length deletedFiles) ++ str " files)")
          end
      end
  end.

End Words.

End Deletions.

(* ================================================================== *)
(** * Specification-level definitions *)
(* ================================================================== *)

(** ** What a pattern matches *)

(** [matches ic r s cs s' cs']: pattern [r] matches a prefix of [s], leaving
    [s'], and turns the captures [cs] into [cs'].  This is the declarative
    reading of a pattern, without the priorities of backtracking. *)
Fixpoint matches (ic : bool) (r : regex) (s : jsstring) (cs : captures)
         (s' : jsstring) (cs' : captures) {struct r} : Prop :=
  match r with
  | Eps => s' = s /\ cs' = cs
  | Chr c => exists a, s = a :: s' /\ sameChar ic c a = true /\ cs' = cs
  | Cls p => exists a, s = a :: s' /\ p a = true /\ cs' = cs
  | Seq r1 r2 =>
      exists s1 cs1, matches ic r1 s cs s1 cs1 /\ matches ic r2 s1 cs1 s' cs'
  | Alt r1 r2 => matches ic r1 s cs s' cs' \/ matches ic r2 s cs s' cs'
  | Star p => exists w, s = w ++ s' /\ forallb p w = true /\ cs' = cs
  | Plus p =>
      exists w, s = w ++ s' /\ w <> [] /\ forallb p w = true /\ cs' = cs
  | Opt r' => matches ic r' s cs s' cs' \/ (s' = s /\ cs' = cs)
  | Grp n r' =>
      exists cs1, matches ic r' s cs s' cs1 /\ cs' = (n, consumed s s') :: cs1
  | Eol => s = [] /\ s' = [] /\ cs' = cs
  end.

(** [binds n r]: every match of [r] sets group [n] (the group stands
    outside optional parts, and in every alternative). *)
Fixpoint binds (n : nat) (r : regex) : bool :=
  match r with
  | Grp m r' => Nat.eqb n m || binds n r'
  | Seq r1 r2 => binds n r1 || binds n r2
  | Alt r1 r2 => binds n r1 && binds n r2
  | _ => false
  end.

(** ** Headers *)

(** The text [(scope)] of a header, empty when there is no scope. *)
Definition scopeText (sc : option jsstring) : jsstring :=
  match sc with
  | Some x => str "(" ++ x ++ str ")"
  | None => []
  end.

(** The canonical rendering [type(scope)!: subject\n\nbody] of the data
    model: the scope, the breaking marker and the body are present only
    when set. *)
Definition template (type : jsstring) (scope : option jsstring)
           (breaking : bool) (subject : jsstring) (body : option jsstring)
  : jsstring :=
  type
  ++ (if truthyOpt scope then scopeText scope else [])
  ++ (if breaking then str "!" else [])
  ++ str ": " ++ subject
  ++ match body with
     | Some b => if truthy b then str (String "010" (String "010" "")) ++ b else []
     | None => []
     end.

Definition rendered (s : CommitMessageSuggestion) : jsstring :=
  template (type s) (scope s) (breaking s) (subject s) (body s).

(** The header grammar [type(scope)?!?: subject] as the parser reads a
    line: the type in lower case, the scope and the subject trimmed. *)
Definition headerGrammar (line : jsstring)
  : option (jsstring * option jsstring * jsstring) :=
  match RegExp.exec Parser.headerRe line with
  | Some m =>
      match cap 1 m, cap 5 m with
      | Some ty, Some subj =>
          Some (toLowerCase ty, option_map trim (cap 3 m), trim subj)
      | _, _ => None
      end
  | None => None
  end.

(** Re-parsing a message: the header grammar on its first line, trimmed as
    the parser trims every line. *)
Definition reparse (message : jsstring)
  : option (jsstring * option jsstring * jsstring) :=
  headerGrammar (trim (hd [] (split message "010"%char))).

(** A well-formed suggestion: a type of the closed set; a scope, when
    there is one, that is not empty, is trimmed and has neither [)] nor a
    line feed; a subject that is not empty, is trimmed and stays on one
    line. *)
Definition wellFormedScope (sc : option jsstring) : Prop :=
  match sc with
  | Some x =>
      x <> [] /\ trim x = x /\ forallb Parser.notRParen x = true /\
      ~ In "010"%char x
  | None => True
  end.

Definition wellFormed (s : CommitMessageSuggestion) : Prop :=
  In (type s) commitTypes /\
  wellFormedScope (scope s) /\
  subject s <> [] /\ trim (subject s) = subject s /\
  forallb isDot (subject s) = true.

(** ** The scan of the parser, by blocks *)

(** What a line is to the scan: a header that opens a suggestion, a line
    of body text, or a line that is dropped (empty, meta-commentary or
    instruction leakage). *)
Inductive Role : Type :=
| Opens (cur : Parser.Current)
| Continues (line : jsstring)
| Dropped.

Definition roleOf (rawLine : jsstring) : Role :=
  let line := trim rawLine in
  if negb (truthy line) then Dropped
  else
    match RegExp.exec Parser.headerRe line with
    | Some m =>
        match cap 1 m, cap 5 m with
        | Some ty, Some subj =>
            if Parser.isMetaCommentary line (trim subj) then Dropped
            else Opens {| Parser.c_type := toLowerCase ty;
                          Parser.c_scope := option_map trim (cap 3 m);
                          Parser.c_subject := trim subj;
                          Parser.c_breaking :=
                            truthyOpt (cap 4 m) ||
                            includes line (str "BREAKING CHANGE") |}
        | _, _ => Dropped
        end
    | None =>
        if Parser.isInstruction line then Dropped else Continues line
    end.

(** The body lines before the first header, and then every header with the
    body lines up to the next header. *)
Fixpoint blocks (roles : list Role)
  : list jsstring * list (Parser.Current * list jsstring) :=
  match roles with
  | [] => ([], [])
  | r :: rest =>
      let (pre, bs) := blocks rest in
      match r with
      | Opens cur => ([], (cur, pre) :: bs)
      | Continues line => (line :: pre, bs)
      | Dropped => (pre, bs)
      end
  end.

(** Closing a suggestion: its body lines joined, the message rendered, the
    confidence 0.9. *)
Definition close (b : Parser.Current * list jsstring) : CommitMessageSuggestion :=
  let (cur, bodyLines) := b in
  let body :=
    match bodyLines with
    | [] => None
    | _ :: _ => Some (trim (join bodyLines (str (String "010" ""))))
    end in
  {| type := Parser.c_type cur;
     scope := Parser.c_scope cur;
     subject := Parser.c_subject cur;
     body := body;
     breaking := Parser.c_breaking cur;
     fullMessage :=
       template (Parser.c_type cur) (Parser.c_scope cur)
                (Parser.c_breaking cur) (Parser.c_subject cur) body;
     confidence := 0.9%Q |}.

(** The lines before the first instruction-echo marker. *)
Definition relevantLines (text : jsstring) : list jsstring :=
  let lines := split text "010"%char in
  firstn (Parser.stopAtLine lines) lines.

(** The closed suggestions of a text, in discovery order. *)
Definition closedSuggestions (text : jsstring) : list CommitMessageSuggestion :=
  map close (snd (blocks (map roleOf (relevantLines text)))).

(** ** Signals *)

(** The HTTP-verb tokens, in upper case. *)
Definition verbTokens : list jsstring := map toUpperCase Extractor.httpVerbs.

(** ** Classification by kinds of files *)

(** The kinds of files the classifier tells apart, in the order in which
    it tries their path tests; [OtherFile] has no test. *)
Inductive Kind : Type :=
| TestFile | DocFile | ConfigFile | BuildFile | CliFile
| ComponentFile | ApiFile | StyleFile | OtherFile.

Definition Kind_eqb (a b : Kind) : bool :=
  match a, b with
  | TestFile, TestFile | DocFile, DocFile | ConfigFile, ConfigFile
  | BuildFile, BuildFile | CliFile, CliFile | ComponentFile, ComponentFile
  | ApiFile, ApiFile | StyleFile, StyleFile | OtherFile, OtherFile => true
  | _, _ => false
  end.

Definition kinds : list Kind :=
  [ TestFile; DocFile; ConfigFile; BuildFile; CliFile;
    ComponentFile; ApiFile; StyleFile; OtherFile ].

(** The path test of a kind: a path is a test path, a documentation
    path, ... when it passes. *)
Definition pathTest (k : Kind) (p : jsstring) : bool :=
  match k with
  | TestFile => includes p (str ".test.") || includes p (str ".spec.")
  | DocFile => endsWith p (str ".md")
  | ConfigFile => includes p (str "package.json")
                  || includes p (str "tsconfig.json")
                  || includes p (str ".config.")
  | BuildFile => includes p (str "webpack") || includes p (str "vite")
                 || includes p (str "build") || includes p (str "/dist/")
  | CliFile => includes p (str "/cli/") || includes p (str "cli-")
  | ComponentFile => includes p (str "component") || endsWith p (str ".tsx")
                     || endsWith p (str ".jsx")
  | ApiFile => includes p (str "/api/") || includes p (str "route.")
               || includes p (str "controller")
  | StyleFile => endsWith p (str ".css") || endsWith p (str ".scss")
                 || includes p (str "style")
  | OtherFile => true
  end.

(** The kinds that come before [k] in a list of kinds. *)
Fixpoint before (k : Kind) (ks : list Kind) : list Kind :=
  match ks with
  | [] => []
  | k' :: ks' => if Kind_eqb k' k then [] else k' :: before k ks'
  end.

(** A path is counted for one kind only: for [k] when it passes the test
    of [k] and the test of no kind before [k]; for [OtherFile] when it
    passes no test at all. *)
Definition countedFor (k : Kind) (p : jsstring) : bool :=
  pathTest k p && forallb (fun k' => negb (pathTest k' p)) (before k kinds).

(** "Files of kind [k] are present", read over the whole file set: some
    path passes the test of [k]. *)
Definition passes (k : Kind) (fs : list GitDiff) : bool :=
  existsb (fun f => pathTest k (file f)) fs.

(** "Files of kind [k] are present", read per file: some file is counted
    for [k]. *)
Definition counted (k : Kind) (fs : list GitDiff) : bool :=
  existsb (fun f => countedFor k (file f)) fs.

Definition sumAdditions (fs : list GitDiff) : nat := list_sum (map additions fs).
Definition sumDeletions (fs : list GitDiff) : nat := list_sum (map deletions fs).

Section DecisionOrder.

(** Which kinds of files are present. *)
Variable present : Kind -> bool.
Variable fs : list GitDiff.

(** The decision order of the classifier: the first rule that matches
    wins. *)
Definition firstMatch : jsstring * jsstring :=
  (* 1 *)
  if present TestFile then (str "test", str "testing")
  (* 2 *)
  else if present DocFile
          && negb (present ComponentFile || present ApiFile)
  then (str "docs", str "documentation")
  (* 3 *)
  else if present ConfigFile && (List.length fs <=? 3)
  then (str "chore", str "configuration")
  (* 4 *)
  else if present BuildFile || present CliFile
  then (str "build", if present CliFile then str "cli" else str "build")
  (* 5 *)
  else if present StyleFile
          && negb (present ComponentFile || present ApiFile)
  then (str "style", str "styling")
  (* 6 *)
  else if present ApiFile
  then (if 50 <? sumAdditions fs then str "feat" else str "fix", str "API")
  (* 7 *)
  else if present ComponentFile
  then (if 50 <? sumAdditions fs then str "feat" else str "fix",
        str "components")
  (* 8 *)
  else if 2 * sumDeletions fs <? sumAdditions fs
  then (str "feat", str "features")
  else if 2 * sumAdditions fs <? sumDeletions fs
  then (str "refactor", str "refactoring")
  else (str "fix", str "fixes").

(** One of the rules 1 to 5, those that come before the API rule,
    matches. *)
Definition earlierRule : bool :=
  present TestFile
  || (present DocFile
      && negb (present ComponentFile || present ApiFile))
  || (present ConfigFile && (List.length fs <=? 3))
  || (present BuildFile || present CliFile)
  || (present StyleFile
      && negb (present ComponentFile || present ApiFile)).

End DecisionOrder.

(** The decision order as the specification words it: each rule asks
    whether some path of the file set passes a test. *)
Definition classifyByPaths (fs : list GitDiff) : jsstring * jsstring :=
  firstMatch (fun k => passes k fs) fs.

(** The decision order over the kinds the files are counted for. *)
Definition classify (fs : list GitDiff) : jsstring * jsstring :=
  firstMatch (fun k => counted k fs) fs.

Definition earlierRuleMatches (fs : list GitDiff) : bool :=
  earlierRule (fun k => counted k fs) fs.

(** A file is listed among the notable files: counted as documentation
    with more than 10 additions, counted as component with more than 20
    changed lines, counted as API, or counted for no kind with more than
    30 changed lines. *)
Definition listed (f : GitDiff) : bool :=
  (countedFor DocFile (file f) && (10 <? additions f))
  || (countedFor ComponentFile (file f) && (20 <? additions f + deletions f))
  || countedFor ApiFile (file f)
  || (countedFor OtherFile (file f) && (30 <? additions f + deletions f)).

(** What a file adds to [notableFiles]. *)
Definition notable (f : GitDiff) : list jsstring :=
  if listed f then [file f] else [].

(** No path passes two tests. *)
Definition unambiguous (fs : list GitDiff) : Prop :=
  forall f k k',
    In f fs -> k <> OtherFile -> k' <> OtherFile ->
    pathTest k (file f) = true -> pathTest k' (file f) = true -> k = k'.

(** ** The generative path *)

(** The escape hatch: [AI_COMMIT_SKIP_AI] is ["true"], or the model
    identifier is ["none"]. *)
Definition skipsAI (w : World) (self : Assistant) : bool :=
  match AI_COMMIT_SKIP_AI w with
  | Some v => jsstring_eqb v (str "true")
  | None => false
  end
  || jsstring_eqb (modelId self) (str "none").

(** The pipeline a generative attempt calls, if one is available after the
    model was loaded on demand. *)
Definition modelInUse (w : World) (self : Assistant) : option Pipeline :=
  let self' := if negb (modelLoaded self) then Engine.loadModel w self else self in
  if modelLoaded self' then model self' else None.

(** [result[0]?.generated_text || ''] *)
Definition generatedText (generated_text : option jsstring) : jsstring :=
  match generated_text with
  | Some t => t
  | None => []
  end.

(** The failures of the generative path. *)
Inductive GenerativeFailure (w : World) (self : Assistant)
          (changes : StagedChanges) (options : AIProcessingOptions) : Prop :=
| LoadFailure (message : jsstring) :
    modelLoaded self = false ->
    pipeline w (modelId self) = Throw message ->
    GenerativeFailure w self changes options
| CallFailure (m : Pipeline) (message : jsstring) :
    modelInUse w self = Some m ->
    m changes options = Rejects message ->
    GenerativeFailure w self changes options
| CallTimeout (m : Pipeline) :
    modelInUse w self = Some m ->
    m changes options = StillPending ->
    GenerativeFailure w self changes options
| NothingUsable (m : Pipeline) (generated_text : option jsstring) :
    modelInUse w self = Some m ->
    m changes options = Resolves generated_text ->
    Parser.parseAIResponse (generatedText generated_text) changes = Ok [] ->
    GenerativeFailure w self changes options.

(** ** Definitions used by the proofs *)

Module ProofDefs.

Import Parser Classifier Git.

(** The three parts of the header pattern after the type group. *)
Definition scopeGroup : regex :=
  Opt (Grp 2 (seqs [Chr "("; Grp 3 (Plus notRParen); Chr ")"])).

Definition bangGroup : regex := Opt (Grp 4 (Chr "!")).

Definition subjectPart : regex :=
  seqs [Chr ":"; Star isWhiteSpace; Grp 5 (Plus isDot); Eol].

(** What is pending in a state, given the body lines still to come: the
    open suggestion, if any, closed with all its body lines. *)
Definition pending (st : State) (pre : list jsstring)
  : list CommitMessageSuggestion :=
  match currentSuggestion st with
  | Some cur => [close (cur, bodyLines st ++ pre)]
  | None => []
  end.

Definition openOk (st : State) : Prop :=
  match currentSuggestion st with
  | Some cur => truthy (c_type cur) && truthy (c_subject cur) = true
  | None => True
  end.

(** The flags after a scan that started from [fl]. *)
Definition flagsAfter (fl : Flags) (fs : list GitDiff) : Flags :=
  {| hasTests := hasTests fl || counted TestFile fs;
     hasDocs := hasDocs fl || counted DocFile fs;
     hasConfig := hasConfig fl || counted ConfigFile fs;
     hasBuild := hasBuild fl || counted BuildFile fs;
     hasComponents := hasComponents fl || counted ComponentFile fs;
     hasAPI := hasAPI fl || counted ApiFile fs;
     hasStyles := hasStyles fl || counted StyleFile fs;
     hasCLI := hasCLI fl || counted CliFile fs;
     mainFiles := mainFiles fl ++ flat_map notable fs |}.

(** The entry of a file whose diff could not be read is a zero-stat
    placeholder. *)
Definition placeholderFor (git : SimpleGit) (e : GitDiff) : Prop :=
  forall message,
    git_diff git [str "--cached"; str "--"; file e] = Throw message ->
    additions e = 0 /\ deletions e = 0.

Ltac char_arith :=
  unfold isLowerAZ, isUpperAZ, code in *;
  repeat match goal with
         | H : (_ && _)%bool = true |- _ => apply andb_true_iff in H; destruct H
         | H : (_ && _)%bool = false |- _ => apply andb_false_iff in H
         | H : (_ <=? _) = true |- _ => apply Nat.leb_le in H
         | H : (_ <=? _) = false |- _ => apply Nat.leb_gt in H
         end.

End ProofDefs.
Import ProofDefs.

(** ** Example inputs *)

Module Examples.

Import Classifier Extractor.

Definition lf : jsstring := str (String "010" "").

(** Scenario A of the specification: one modified test file, +5/-1. *)
Definition testFile : GitDiff :=
  {| file := str "src/a.test.ts"; status := str "M";
     additions := 5; deletions := 1;
     diff := str "+it('works', () => {})" |}.

Definition oneTestFile : StagedChanges :=
  {| files := [testFile];
     summary := str "1 file(s) changed, 5 insertions(+), 1 deletions(-)";
     hasChanges := true |}.

(** Stand-ins for the three text generators. *)
Definition sampleSubject (c : StagedChanges) (a : Analysis) (d : DiffAnalysis)
  : jsstring := str "update a.test".
Definition sampleBody (c : StagedChanges) (a : Analysis) (d : DiffAnalysis)
  : option jsstring := None.
Definition sampleScope (c : StagedChanges) (a : Analysis) : option jsstring :=
  if jsstring_eqb (category a) (str "testing") then Some (str "tests") else None.

(** A pipeline that is still running when the timer fires, and an
    assistant that has it loaded. *)
Definition slowPipeline : Pipeline := fun _ _ => StillPending.

Definition loadedAssistant : Assistant :=
  {| modelId := str "meta-llama/Llama-3.2-1B-Instruct";
     model := Some slowPipeline;
     modelLoaded := true |}.

Definition quietWorld : World :=
  {| AI_COMMIT_SKIP_AI := None;
     pipeline := fun _ => Throw (str "offline") |}.

Definition noOptions : AIProcessingOptions := mkOptions None None None None None.

(** Scenario D of the specification: one new route file, 80 additions. *)
Definition routeFile : GitDiff :=
  {| file := str "src/api/users/route.ts"; status := str "A";
     additions := 80; deletions := 0;
     diff := str "+router.post('/users', createUser)" |}.

Definition oneRouteFile : StagedChanges :=
  {| files := [routeFile];
     summary := str "1 file(s) changed, 80 insertions(+), 0 deletions(-)";
     hasChanges := true |}.

(** Two files under an API path, in the two orders. *)
Definition apiA : GitDiff :=
  {| file := str "src/api/a.ts"; status := str "M";
     additions := 3; deletions := 0; diff := [] |}.
Definition apiB : GitDiff :=
  {| file := str "src/api/b.ts"; status := str "M";
     additions := 2; deletions := 0; diff := [] |}.

Definition changesAB : StagedChanges :=
  {| files := [apiA; apiB];
     summary := str "2 file(s) changed, 5 insertions(+), 0 deletions(-)";
     hasChanges := true |}.
Definition changesBA : StagedChanges :=
  {| files := [apiB; apiA];
     summary := str "2 file(s) changed, 5 insertions(+), 0 deletions(-)";
     hasChanges := true |}.

(** Paths that pass more than one path test: a read-me under an API
    path, a page under an API path, and the configuration file of a build
    tool staged with three notes. *)
Definition apiReadme : StagedChanges :=
  {| files := [ {| file := str "src/api/README.md"; status := str "M";
                   additions := 4; deletions := 1;
                   diff := str "+# Users API" |} ];
     summary := str "1 file(s) changed, 4 insertions(+), 1 deletions(-)";
     hasChanges := true |}.

Definition apiPage : StagedChanges :=
  {| files := [ {| file := str "src/api/Foo.tsx"; status := str "M";
                   additions := 3; deletions := 2;
                   diff := str "+const n = 1" |} ];
     summary := str "1 file(s) changed, 3 insertions(+), 2 deletions(-)";
     hasChanges := true |}.

Definition note (name : string) : GitDiff :=
  {| file := str "notes/" ++ str name; status := str "M";
     additions := 1; deletions := 1; diff := str "+a note" |}.

Definition viteConfigAndNotes : StagedChanges :=
  {| files := [ {| file := str "vite.config.ts"; status := str "M";
                   additions := 2; deletions := 1;
                   diff := str "+  port: 3000," |};
                note "a.txt"; note "b.txt"; note "c.txt" ];
     summary := str "4 file(s) changed, 5 insertions(+), 4 deletions(-)";
     hasChanges := true |}.

(** A page with six different upper-case tags on six added lines. *)
Definition sixTagsPage : GitDiff :=
  {| file := str "src/app/page.tsx"; status := str "M";
     additions := 6; deletions := 0;
     diff := str "+<Header />" ++ lf ++ str "+<Sidebar />" ++ lf
             ++ str "+<Content />" ++ lf ++ str "+<Toolbar />" ++ lf
             ++ str "+<Footer />" ++ lf ++ str "+<Modal />" |}.

Definition sixTags : StagedChanges :=
  {| files := [sixTagsPage];
     summary := str "1 file(s) changed, 6 insertions(+), 0 deletions(-)";
     hasChanges := true |}.

(** A suggestion as the parser makes it from [feat(api)!: add users]. *)
Definition addUsers : CommitMessageSuggestion :=
  {| type := str "feat"; scope := Some (str "api"); subject := str "add users";
     body := Some (str "- new endpoint"); breaking := true;
     fullMessage := str "feat(api)!: add users" ++ lf ++ lf ++ str "- new endpoint";
     confidence := 0.9%Q |}.

(** Git when the only staged change is the deletion of [old.ts], and
    [git diff --cached old.ts] fails. *)
Definition deletionOnly : Git.SimpleGit :=
  {| Git.git_status :=
       Ok {| Git.staged := [str "old.ts"];
             Git.st_files := [ {| Git.path := str "old.ts"; Git.index := str "D" |} ] |};
     Git.git_diff :=
       fun _ => Throw (str "fatal: ambiguous argument 'old.ts'") |}.

(** Git when the staged file has no entry in [status.files] and its diff
    fails. *)
Definition unknownStaged : Git.SimpleGit :=
  {| Git.git_status :=
       Ok {| Git.staged := [str "new.ts"]; Git.st_files := [] |};
     Git.git_diff := fun _ => Throw (str "fatal: bad revision") |}.

(** Scenario E of the specification: the model echoes the instruction
    block of the prompt. *)
Definition echoedPrompt : jsstring :=
  str "Generate a conventional commit message with:" ++ lf
  ++ str "1. First line: type(scope): brief description of the change" ++ lf
  ++ str "- Type: feat, fix, refactor, docs, style, test, chore, perf, ci, or build".

Definition echoingPipeline : Pipeline := fun _ _ => Resolves (Some echoedPrompt).

Definition echoingAssistant : Assistant :=
  {| modelId := str "meta-llama/Llama-3.2-1B-Instruct";
     model := Some echoingPipeline;
     modelLoaded := true |}.

(** A cache entry written at time 1000 for [oneTestFile]. *)
Definition cachedEntry : CLI.SuggestionCache :=
  {| CLI.suggestions := [addUsers];
     CLI.changesSummary := summary oneTestFile;
     CLI.timestamp := 1000%Z |}.

End Examples.

(** ** Capped signal sets *)

(** [set] holds distinct names, at most [n] of them, and as many as the
    cap allows of the distinct names of [raw]: duplicates go before the
    cap applies. *)
Definition cappedSet (set raw : list jsstring) (n : nat) : Prop :=
  NoDup set /\
  List.length set <= n /\
  List.length set = Nat.min n (List.length (newSet raw)).

(* ================================================================== *)
(** * Further definitions *)
(* ================================================================== *)

(** ** Shapes of names and lines *)

(** An identifier: one or more [\w] characters. *)
Definition isIdentifier (s : jsstring) : Prop :=
  s <> [] /\ forallb isWord s = true.

(** A capitalised identifier of two or more characters, [[A-Z]\w+]. *)
Definition isCapitalised (s : jsstring) : Prop :=
  exists c t, s = c :: t /\ isUpperAZ c = true /\ t <> [] /\
              forallb isWord t = true.

(** A line the parser opens a suggestion on. *)
Definition opensSuggestion (rawLine : jsstring) : Prop :=
  exists cur, roleOf rawLine = Opens cur.

(** A subject the parser takes for an echo of the prompt: the tests of
    [isMetaCommentary] that read the subject alone. *)
Definition placeholderSubject (subjectText : jsstring) : bool :=
  includes subjectText (str "type(scope)") ||
  includes subjectText (str "brief description") ||
  includes subjectText (str "what was accomplished") ||
  jsstring_eqb subjectText (str "improvements") ||
  jsstring_eqb subjectText (str "updates").

(** A line the parser keeps as body text when a suggestion is open. *)
Definition keptAsBody (line : jsstring) : Prop :=
  line <> [] /\ trim line = line /\
  RegExp.exec Parser.headerRe line = None /\
  Parser.isInstruction line = false /\
  Parser.hasStopMarker line = false.

(** The body of a suggestion, as the parser builds one: absent, or lines
    the parser keeps, joined by line feeds. *)
Definition bodyKept (body : option jsstring) : Prop :=
  match body with
  | None => True
  | Some b => b <> [] /\ trim b = b /\ Forall keptAsBody (split b "010"%char)
  end.

(** The first line of a message. *)
Definition headerLine (message : jsstring) : jsstring :=
  hd [] (split message "010"%char).

(** ** The path tests of the extractor, as string tests *)

(** [/\.(tsx|jsx)$/] *)
Definition isJsxPath (p : jsstring) : bool :=
  endsWith p (str ".tsx") || endsWith p (str ".jsx").

(** [/route\.|api\//] *)
Definition isApiPath (p : jsstring) : bool :=
  includes p (str "route.") || includes p (str "api/").

(** [/config|\.json$|\.yaml$|\.env/] *)
Definition isConfigPath (p : jsstring) : bool :=
  includes p (str "config") || endsWith p (str ".json") ||
  endsWith p (str ".yaml") || includes p (str ".env").

(** The root of an import path that the extractor keeps: it has no [/] and
    does not start with a dot. *)
Definition isPackageRoot (pkg : jsstring) : Prop :=
  ~ In "/"%char pkg /\ startsWith pkg (str ".") = false.

(** The lines of a diff that the extractor reads. *)
Definition addedLines (f : GitDiff) : list jsstring :=
  filter (fun line => startsWith line (str "+")) (split (diff f) "010"%char).

(** What the scan has collected, at any point: names of the shapes the
    patterns capture, and no modified function. *)
Definition namesOk (found : Extractor.Found) : Prop :=
  Forall isIdentifier (Extractor.f_newFunctions found) /\
  Forall isIdentifier (Extractor.f_newClasses found) /\
  Forall isCapitalised (Extractor.f_newComponents found) /\
  Forall isPackageRoot (Extractor.f_newImports found) /\
  Extractor.f_modifiedFunctions found = [] /\
  Forall isIdentifier (Extractor.f_configChanges found) /\
  Forall isCapitalised (Extractor.f_uiChanges found).

(** What the extractor reads of a file: its path and its added lines. *)
Definition readByExtractor (f : GitDiff) : jsstring * list jsstring :=
  (file f, addedLines f).

(** ** Entries of the version-control adapter *)

(** What the copy whose [catch] only warns keeps of a staged file: its
    entry when [git diff --cached file] answers, nothing otherwise. *)
Definition readEntry (git : Git.SimpleGit) (status : Git.StatusResult)
           (f : jsstring) : list GitDiff :=
  match Git.git_diff git [str "--cached"; f] with
  | Ok d => [Git.entryOf status f d]
  | Throw _ => []
  end.

(** The placeholder entry of the other copy. *)
Definition placeholderEntry (f : jsstring) (s : Git.FileStatus) : GitDiff :=
  {| file := f;
     status := if truthy (Git.index s) then Git.index s else str "M";
     additions := 0;
     deletions := 0;
     diff := str "// Unable to retrieve diff for " ++ f |}.

(** What the copy with the placeholder branch keeps of a staged file: its
    entry when [git diff --cached -- file] answers; otherwise a
    placeholder when [status.files] knows the file, and nothing when it
    does not. *)
Definition readOrPlaceholder (git : Git.SimpleGit) (status : Git.StatusResult)
           (f : jsstring) : list GitDiff :=
  match Git.git_diff git [str "--cached"; str "--"; f] with
  | Ok d => [Git.entryOf status f d]
  | Throw _ =>
      match Git.findStatus status f with
      | Some s => [placeholderEntry f s]
      | None => []
      end
  end.

(** The answer of [getStagedChanges] once the status is known, given what
    is kept of every staged file. *)
Definition stagedReport (keep : jsstring -> list GitDiff)
           (status : Git.StatusResult) : StagedChanges :=
  match Git.staged status with
  | [] => Git.noStagedChanges
  | _ :: _ => Git.report (flat_map keep (Git.staged status))
  end.

(** ** Texts the parser finds nothing in *)

(** No line of the text opens a suggestion. *)
Definition quietText (text : jsstring) : Prop :=
  Forall (fun rawLine => ~ opensSuggestion rawLine) (split text "010"%char).

(** The line starts with one of the ten types, in any case. *)
Definition typeAhead (line : jsstring) : bool :=
  existsb (fun w => startsWith (toLowerCase line) w) commitTypes.

(** The line starts with a trimmed word after which no type can be read,
    whatever follows. *)
Definition plainStart (line : jsstring) : Prop :=
  exists u r, line = u ++ r /\ u <> [] /\ trim u = u /\
              forall r', typeAhead (u ++ r') = false.

(** Paths and statuses that stay on one line. *)
Definition oneLineNames (changes : StagedChanges) : Prop :=
  Forall (fun f => ~ In "010"%char (file f) /\ ~ In "010"%char (status f))
         (files changes).

(** ** Counting and common prefixes *)

(** How often a string occurs in an array. *)
Definition occurrences (x : jsstring) (a : list jsstring) : nat :=
  List.length (filter (jsstring_eqb x) a).

(** [parts], followed by at least one more component, starts the
    components of every path: a common prefix made of directories. *)
Definition commonDirectories (parts : list jsstring)
           (filePaths : list jsstring) : Prop :=
  forall p, In p filePaths ->
    exists rest, split p "/"%char = parts ++ rest /\ rest <> [].

(** The parent directories of the staged files that have one. *)
Definition parentDirectories (changes : StagedChanges) : list jsstring :=
  map (fun parts => nth (List.length parts - 2) parts [])
      (filter (fun parts => 1 <? List.length parts)
              (map (fun f => split (file f) "/"%char) (files changes))).

(** The line of totals in the body of the heuristic path. *)
Definition totalLine (changes : StagedChanges) : jsstring :=
  str "- Total: +"
  ++ numToString (Summarizer.sumOf additions (files changes))
  ++ str " -" ++ numToString (Summarizer.sumOf deletions (files changes))
  ++ str " lines".

(** ** The counts of [findMostCommon] *)

(** [counts[key]], on the own properties. *)
Fixpoint lookup (counts : list (jsstring * Summarizer.Count)) (key : jsstring)
  : option Summarizer.Count :=
  match counts with
  | [] => None
  | (k, v) :: rest => if jsstring_eqb k key then Some v else lookup rest key
  end.

(** What [counts] holds under a key after the first loop over [seen]. *)
Definition tally (seen : list jsstring) (key : jsstring)
  : option Summarizer.Count :=
  if jsstring_eqb key (str "__proto__") then None
  else if occurrences key seen =? 0 then None
  else if mem key Summarizer.prototypeNames then Some Summarizer.Text
  else Some (Summarizer.Number (occurrences key seen)).

(** The fixed scopes of [generateSmartScope]. *)
Definition fixedScopes : list jsstring :=
  map str ["api"; "ui"; "tests"; "cli"; "build"; "lib"]%string.

(** ** More example inputs *)

Module MoreExamples.

Import Examples.

(** One page, staged twice over: as a modification with a removed line,
    and as an addition with context lines and other counts.  The path and
    the added line are the same. *)
Definition pageEdited : StagedChanges :=
  {| files := [ {| file := str "src/App.tsx"; status := str "M";
                   additions := 1; deletions := 1;
                   diff := str "-old" ++ lf ++ str "+function Render() {}" |} ];
     summary := str "1 file(s) changed, 1 insertions(+), 1 deletions(-)";
     hasChanges := true |}.

Definition pageAdded : StagedChanges :=
  {| files := [ {| file := str "src/App.tsx"; status := str "A";
                   additions := 7; deletions := 0;
                   diff := str " context" ++ lf ++ str "+function Render() {}"
                           ++ lf ++ str " more context" |} ];
     summary := str "1 file(s) changed, 7 insertions(+), 0 deletions(-)";
     hasChanges := true |}.

(** A stand-in for the warning sign of the prompt. *)
Definition sign : jsstring := str "!".

(** A pipeline that answers with the prompt followed by its continuation,
    as text generation does when it returns the full text; and an
    assistant that has it loaded. *)
Definition fullTextPipeline : Pipeline :=
  fun changes options =>
    Resolves (Some (Prompt.buildPrompt sign changes options
                    ++ lf ++ str "feat(api): add users")).

Definition fullTextAssistant : Assistant :=
  {| modelId := str "meta-llama/Llama-3.2-1B-Instruct";
     model := Some fullTextPipeline;
     modelLoaded := true |}.

(** A run of [commit] in a repository with one staged test file, no
    cache file, an engine that suggests [addUsers], no confirmation and a
    [git commit] that succeeds. *)
Definition plainRun : CLICommands.Surroundings :=
  {| CLICommands.isGitRepository := true;
     CLICommands.stagedChanges := Ok oneTestFile;
     CLICommands.cacheFile := CLI.Absent;
     CLICommands.loadedAt := 0%Z;
     CLICommands.savedAt := 0%Z;
     CLICommands.generated := fun _ => Ok [addUsers];
     CLICommands.saveWrite := CLICommands.Written;
     CLICommands.clearWrite := CLICommands.Written;
     CLICommands.noConfirm := true;
     CLICommands.typed := [];
     CLICommands.gitCommit := fun _ => Ok tt |}.

(** Two helpers of one directory, edited. *)
Definition parserHelpers : StagedChanges :=
  {| files := [ {| file := str "src/parser/lines.txt"; status := str "M";
                   additions := 2; deletions := 1; diff := str "+a line" |};
                {| file := str "src/parser/words.txt"; status := str "M";
                   additions := 1; deletions := 1; diff := str "+a word" |} ];
     summary := str "2 file(s) changed, 3 insertions(+), 2 deletions(-)";
     hasChanges := true |}.

(** Two notes, deleted, whose names share no word. *)
Definition notesDeleted : StagedChanges :=
  {| files := [ {| file := str "first.txt"; status := str "D";
                   additions := 0; deletions := 4; diff := str "-one" |};
                {| file := str "second.txt"; status := str "D";
                   additions := 0; deletions := 3; diff := str "-two" |} ];
     summary := str "2 file(s) changed, 0 insertions(+), 7 deletions(-)";
     hasChanges := true |}.

(** For names that share no word [findCommonWords] returns the empty
    array. *)
Definition noCommonWords (fileNames : list jsstring) : list jsstring := [].

End MoreExamples.

(* ================================================================== *)
(** * Properties *)
(* ================================================================== *)

Unset Implicit Arguments.

(** ** The matcher is sound for [matches] *)

Module RegExpFacts.

Lemma orElse_Some {A} (a b : option A) (x : A) :
  orElse a b = Some x -> a = Some x \/ b = Some x.
Proof. destruct a; simpl; auto. Qed.

Lemma greedy_sound (p : ascii -> bool) s k res :
  greedy p s k = Some res ->
  exists w s', s = w ++ s' /\ forallb p w = true /\ k s' = Some res.
Proof.
  induction s as [|c s IH]; simpl; intros H.
  - exists [], []. auto.
  - destruct (p c) eqn:Hp.
    + apply orElse_Some in H. destruct H as [H|H].
      * destruct (IH H) as (w & s' & -> & Hw & Hk).
        exists (c :: w), s'. simpl. rewrite Hp, Hw. auto.
      * exists [], (c :: s). auto.
    + exists [], (c :: s). auto.
Qed.

Lemma run_sound ic r : forall s cs k res,
  run ic r s cs k = Some res ->
  exists s' cs', matches ic r s cs s' cs' /\ k s' cs' = Some res.
Proof.
  induction r; simpl; intros s cs k res H.
  - eauto.
  - destruct s as [|a s]; [discriminate|].
    destruct (sameChar ic c a) eqn:E; [|discriminate]. eauto 8.
  - destruct s as [|a s]; [discriminate|].
    destruct (p a) eqn:E; [|discriminate]. eauto 8.
  - apply IHr1 in H. destruct H as (s1 & cs1 & M1 & H).
    apply IHr2 in H. destruct H as (s2 & cs2 & M2 & H). eauto 8.
  - apply orElse_Some in H. destruct H as [H|H].
    + apply IHr1 in H. destruct H as (s1 & cs1 & M1 & H). eauto.
    + apply IHr2 in H. destruct H as (s1 & cs1 & M1 & H). eauto.
  - apply greedy_sound in H. destruct H as (w & s' & -> & Hw & Hk). eauto 8.
  - destruct s as [|a s]; [discriminate|].
    destruct (p a) eqn:E; [|discriminate].
    apply greedy_sound in H. destruct H as (w & s' & -> & Hw & Hk).
    exists s', cs. split; [|assumption].
    exists (a :: w). simpl. rewrite E, Hw. repeat split; congruence.
  - apply orElse_Some in H. destruct H as [H|H].
    + apply IHr in H. destruct H as (s1 & cs1 & M1 & H). eauto.
    + eauto 8.
  - apply IHr in H. destruct H as (s1 & cs1 & M1 & H). eauto 8.
  - destruct s; [|discriminate]. eauto 8.
Qed.

(** The matcher is complete for [matches]: where a pattern matches and the
    continuation accepts, the matcher finds a match (the one of highest
    priority, which need not be this one). *)

Lemma orElse_not_None {A} (a b : option A) :
  a <> None \/ b <> None -> orElse a b <> None.
Proof. destruct a; simpl; intros [H|H]; congruence. Qed.

Lemma greedy_complete (p : ascii -> bool) w s' k :
  forallb p w = true -> k s' <> None -> greedy p (w ++ s') k <> None.
Proof.
  induction w as [|c w IH]; simpl; intros Hw Hk.
  - destruct s' as [|c s']; simpl; [exact Hk|].
    destruct (p c); [|exact Hk]. apply orElse_not_None. right. exact Hk.
  - apply andb_true_iff in Hw. destruct Hw as [Hc Hw]. rewrite Hc.
    apply orElse_not_None. left. auto.
Qed.

Lemma run_complete ic r : forall s cs s' cs' k,
  matches ic r s cs s' cs' ->
  k s' cs' <> None ->
  run ic r s cs k <> None.
Proof.
  induction r; simpl; intros s cs s' cs' k M K.
  - destruct M as [-> ->]. exact K.
  - destruct M as (a & -> & E & ->). rewrite E. exact K.
  - destruct M as (a & -> & E & ->). rewrite E. exact K.
  - destruct M as (s1 & cs1 & M1 & M2).
    apply (IHr1 _ _ _ _ _ M1). apply (IHr2 _ _ _ _ _ M2). exact K.
  - apply orElse_not_None. destruct M as [M|M].
    + left. apply (IHr1 _ _ _ _ _ M). exact K.
    + right. apply (IHr2 _ _ _ _ _ M). exact K.
  - destruct M as (w & -> & Hw & ->).
    apply (greedy_complete p w s' (fun s'' => k s'' cs) Hw K).
  - destruct M as (w & -> & N & Hw & ->).
    destruct w as [|a w]; [congruence|]. simpl in Hw |- *.
    apply andb_true_iff in Hw. destruct Hw as [Ha Hw]. rewrite Ha.
    apply (greedy_complete p w s' (fun s'' => k s'' cs) Hw K).
  - apply orElse_not_None. destruct M as [M|[-> ->]].
    + left. apply (IHr _ _ _ _ _ M). exact K.
    + right. exact K.
  - destruct M as (cs1 & M & ->).
    apply (IHr _ _ _ _ _ M). exact K.
  - destruct M as (-> & -> & ->). exact K.
Qed.

End RegExpFacts.

(** ** Strings *)

Module JSFacts.

Lemma jsstring_eqb_eq a b : jsstring_eqb a b = true <-> a = b.
Proof.
  unfold jsstring_eqb. destruct (list_eq_dec ascii_dec a b); split; congruence.
Qed.

Lemma jsstring_eqb_refl a : jsstring_eqb a a = true.
Proof. apply jsstring_eqb_eq. reflexivity. Qed.

Lemma mem_In x l : mem x l = true <-> In x l.
Proof.
  unfold mem. rewrite existsb_exists. split.
  - intros (y & Hy & E). apply jsstring_eqb_eq in E. subst. assumption.
  - intros H. exists x. split; [assumption | apply jsstring_eqb_refl].
Qed.

(** *** [trim] *)

Lemma trimStart_length s : List.length (trimStart s) <= List.length s.
Proof.
  induction s as [|c s IH]; simpl; [lia|].
  destruct (isWhiteSpace c); simpl; lia.
Qed.

Lemma trimEnd_length s : List.length (trimEnd s) <= List.length s.
Proof.
  unfold trimEnd. rewrite length_rev.
  pose proof (trimStart_length (rev s)) as H. rewrite length_rev in H. exact H.
Qed.

Lemma trimStart_head s c t :
  trimStart s = c :: t -> isWhiteSpace c = false.
Proof.
  induction s as [|a s IH]; simpl; [discriminate|].
  destruct (isWhiteSpace a) eqn:E; [exact IH|].
  intros H. injection H as <- _. exact E.
Qed.

Lemma trimStart_fix c t :
  isWhiteSpace c = false -> trimStart (c :: t) = c :: t.
Proof. intros H. simpl. rewrite H. reflexivity. Qed.

(** A string that [trim] leaves alone does not start with white space. *)
Lemma trim_fix_head c t :
  trim (c :: t) = c :: t -> isWhiteSpace c = false.
Proof.
  intros H. destruct (isWhiteSpace c) eqn:E; [|reflexivity].
  exfalso.
  assert (L : List.length (trim (c :: t)) <= List.length t).
  { unfold trim. simpl trimStart. rewrite E.
    etransitivity; [apply trimEnd_length | apply trimStart_length]. }
  rewrite H in L. simpl in L. lia.
Qed.

Lemma trimStart_app_keep s t :
  trimStart s <> [] -> trimStart (s ++ t) = trimStart s ++ t.
Proof.
  induction s as [|c s IH]; simpl; [congruence|].
  destruct (isWhiteSpace c); [exact IH | reflexivity].
Qed.

(** The last character of a trimmed string is not white space. *)
Lemma trimEnd_last s u c :
  trimEnd s = u ++ [c] -> isWhiteSpace c = false.
Proof.
  unfold trimEnd. intros H.
  apply (f_equal (@rev ascii)) in H.
  rewrite rev_involutive, rev_app_distr in H. simpl in H.
  exact (trimStart_head _ _ _ H).
Qed.

Lemma trim_last s u c : trim s = u ++ [c] -> isWhiteSpace c = false.
Proof. unfold trim. apply trimEnd_last. Qed.

(** White space in front goes, the rest stays, when the string ends in a
    character that is not white space. *)
Lemma trimEnd_keep u c :
  isWhiteSpace c = false -> trimEnd (u ++ [c]) = u ++ [c].
Proof.
  intros H. unfold trimEnd. rewrite rev_app_distr. simpl.
  rewrite H. simpl. rewrite rev_involutive. reflexivity.
Qed.

Lemma trimStart_suffix s : exists w, s = w ++ trimStart s.
Proof.
  induction s as [|c s [w IH]]; simpl.
  - exists []. reflexivity.
  - destruct (isWhiteSpace c).
    + exists (c :: w). simpl. congruence.
    + exists []. reflexivity.
Qed.

Lemma trimStart_last_keep u c :
  isWhiteSpace c = false -> exists v, trimStart (u ++ [c]) = v ++ [c].
Proof.
  intros H. induction u as [|a u IH]; simpl.
  - rewrite H. exists []. reflexivity.
  - destruct (isWhiteSpace a); [exact IH|].
    exists (a :: u). reflexivity.
Qed.

(** Trimming a string that ends in a character that is not white space
    leaves a string that is not empty. *)
Lemma trim_nonempty u c :
  isWhiteSpace c = false -> trim (u ++ [c]) <> [].
Proof.
  intros H. unfold trim.
  destruct (trimStart_last_keep u c H) as [v ->].
  rewrite (trimEnd_keep _ _ H). destruct v; discriminate.
Qed.

Lemma trim_idem_ends c t u d :
  c :: t = u ++ [d] ->
  isWhiteSpace c = false -> isWhiteSpace d = false ->
  trim (c :: t) = c :: t.
Proof.
  intros E Hc Hd. unfold trim. rewrite (trimStart_fix _ _ Hc), E.
  apply trimEnd_keep. exact Hd.
Qed.

Lemma trimEnd_cons_keep c t :
  isWhiteSpace c = false -> exists t', trimEnd (c :: t) = c :: t'.
Proof.
  intros H. unfold trimEnd. simpl rev.
  destruct (trimStart_last_keep (rev t) c H) as [v ->].
  rewrite rev_app_distr. simpl. eauto.
Qed.

(** A trimmed string is empty, or starts and ends with characters that are
    not white space. *)
Lemma trim_ends s :
  trim s = [] \/
  exists c t u d, trim s = c :: t /\ c :: t = u ++ [d] /\
                  isWhiteSpace c = false /\ isWhiteSpace d = false.
Proof.
  unfold trim. destruct (trimStart s) as [|c0 t0] eqn:E0.
  - left. reflexivity.
  - right. pose proof (trimStart_head _ _ _ E0) as Hc0.
    destruct (trimEnd_cons_keep c0 t0 Hc0) as [t' Et].
    destruct (@exists_last _ (c0 :: t')) as (u & d & Eu); [discriminate|].
    exists c0, t', u, d. repeat split; try assumption.
    rewrite Eu in Et. exact (trimEnd_last _ _ _ Et).
Qed.

Lemma trim_idem s : trim (trim s) = trim s.
Proof.
  destruct (trim_ends s) as [E | (c & t & u & d & E & Eu & Hc & Hd)].
  - rewrite E. reflexivity.
  - rewrite E. exact (trim_idem_ends c t u d Eu Hc Hd).
Qed.

(** *** [split] on the line feed *)

Lemma split_nonempty s sep : split s sep <> [].
Proof.
  destruct s as [|c s]; simpl; [discriminate|].
  destruct (Ascii.eqb c sep); [discriminate|].
  destruct (split s sep); discriminate.
Qed.

Lemma split_no_sep s sep :
  Forall (fun l => ~ In sep l) (split s sep).
Proof.
  induction s as [|c s IH]; simpl.
  - constructor; [intros [] | constructor].
  - destruct (Ascii.eqb_spec c sep) as [->|N].
    + constructor; [intros [] | exact IH].
    + destruct (split s sep) as [|l ls]; constructor.
      * intros [H|[]]. congruence.
      * constructor.
      * inversion IH; subst. intros [H|H]; [congruence | contradiction].
      * inversion IH; assumption.
Qed.

(** The first line of [h ++ "\n" ++ rest] is [h] when [h] has no line feed. *)
Lemma split_head h rest sep :
  ~ In sep h ->
  hd [] (split (h ++ sep :: rest) sep) = h /\ hd [] (split h sep) = h.
Proof.
  induction h as [|c h IH]; simpl; intros N.
  - rewrite Ascii.eqb_refl. auto.
  - destruct (Ascii.eqb_spec c sep) as [->|Nc]; [exfalso; auto|].
    assert (N' : ~ In sep h) by (intros H; apply N; right; exact H).
    destruct (IH N') as [H1 H2].
    pose proof (split_nonempty (h ++ sep :: rest) sep) as NE1.
    pose proof (split_nonempty h sep) as NE2.
    destruct (split (h ++ sep :: rest) sep); [congruence|].
    destruct (split h sep); [congruence|].
    simpl in *. subst. auto.
Qed.

(** *** [[...new Set(a)]] *)

Lemma setFrom_In seen a x :
  In x (setFrom seen a) -> In x a /\ ~ In x seen.
Proof.
  revert seen. induction a as [|y a IH]; simpl; intros seen H; [contradiction|].
  destruct (mem y seen) eqn:E.
  - destruct (IH _ H); auto.
  - destruct H as [<-|H].
    + split; [auto|]. intros Hin. apply mem_In in Hin. congruence.
    + destruct (IH _ H) as [H1 H2]. split; [auto|].
      intros Hin. apply H2. right. exact Hin.
Qed.

Lemma setFrom_NoDup seen a : NoDup (setFrom seen a).
Proof.
  revert seen. induction a as [|y a IH]; simpl; intros seen; [constructor|].
  destruct (mem y seen) eqn:E; [apply IH|].
  constructor; [|apply IH].
  intros H. apply setFrom_In in H. destruct H as [_ H]. apply H. left. reflexivity.
Qed.

Lemma newSet_NoDup a : NoDup (newSet a).
Proof. apply setFrom_NoDup. Qed.

Lemma newSet_incl a : incl (newSet a) a.
Proof. intros x H. apply setFrom_In in H. tauto. Qed.

Lemma slice0_In {A} (a : list A) n x : In x (slice0 a n) -> In x a.
Proof.
  unfold slice0. revert a. induction n as [|n IH]; intros a; simpl; [tauto|].
  destruct a as [|y a]; simpl; [tauto|]. intros [H|H]; auto.
Qed.

Lemma slice0_NoDup (a : list jsstring) n : NoDup a -> NoDup (slice0 a n).
Proof.
  unfold slice0. revert a. induction n as [|n IH]; intros a H; simpl; [constructor|].
  destruct a as [|x a]; [constructor|].
  inversion H; subst. constructor; [|auto].
  intros Hin. apply H2. exact (slice0_In a n x Hin).
Qed.

Lemma slice0_length {A} (a : list A) n :
  List.length (slice0 a n) = Nat.min n (List.length a).
Proof. apply length_firstn. Qed.

End JSFacts.

(** ** What a successful match tells *)

Module MatchFacts.

Import RegExpFacts JSFacts.

Lemma consumed_app (w s' : jsstring) : consumed (w ++ s') s' = w.
Proof.
  unfold consumed. rewrite length_app, Nat.add_sub.
  rewrite firstn_app, Nat.sub_diag, firstn_all. simpl. apply app_nil_r.
Qed.

Lemma consumed_eq (s s' w : jsstring) : s = w ++ s' -> consumed s s' = w.
Proof. intros ->. apply consumed_app. Qed.

Lemma consumed_cons (a : ascii) s : consumed (a :: s) s = [a].
Proof. exact (consumed_app [a] s). Qed.

Lemma consumed_all (s : jsstring) : consumed s [] = s.
Proof. apply consumed_eq. symmetry. apply app_nil_r. Qed.

Lemma matches_consumes ic r : forall s cs s' cs',
  matches ic r s cs s' cs' -> exists w, s = w ++ s'.
Proof.
  induction r; simpl; intros s cs s' cs' H.
  - destruct H as [-> _]. exists []. reflexivity.
  - destruct H as (a & -> & _). exists [a]. reflexivity.
  - destruct H as (a & -> & _). exists [a]. reflexivity.
  - destruct H as (s1 & cs1 & H1 & H2).
    destruct (IHr1 _ _ _ _ H1) as [w1 ->].
    destruct (IHr2 _ _ _ _ H2) as [w2 ->].
    exists (w1 ++ w2). apply app_assoc.
  - destruct H as [H|H]; eauto.
  - destruct H as (w & -> & _). eauto.
  - destruct H as (w & -> & _). eauto.
  - destruct H as [H|[-> _]]; [eauto|]. exists []. reflexivity.
  - destruct H as (cs1 & H & _). eauto.
  - destruct H as (-> & -> & _). exists []. reflexivity.
Qed.

(** A group read as [Some] before a match is [Some] after it, and a group
    the pattern binds is [Some] after it. *)
Lemma matches_cap ic n r : forall s cs s' cs',
  matches ic r s cs s' cs' ->
  binds n r = true \/ cap n cs <> None ->
  cap n cs' <> None.
Proof.
  induction r; simpl; intros s cs s' cs' H B;
    try (destruct B as [B|B]; [discriminate|]).
  - destruct H as [_ ->]. exact B.
  - destruct H as (a & _ & _ & ->). exact B.
  - destruct H as (a & _ & _ & ->). exact B.
  - destruct H as (s1 & cs1 & H1 & H2).
    destruct B as [B|B].
    + apply orb_true_iff in B. destruct B as [B|B].
      * eapply IHr2; [exact H2|]. right. eapply IHr1; [exact H1|]. auto.
      * eapply IHr2; [exact H2|]. auto.
    + eapply IHr2; [exact H2|]. right. eapply IHr1; [exact H1|]. auto.
  - destruct B as [B|B].
    + apply andb_true_iff in B. destruct B as [B1 B2].
      destruct H as [H|H]; [eapply IHr1 | eapply IHr2]; eauto.
    + destruct H as [H|H]; [eapply IHr1 | eapply IHr2]; eauto.
  - destruct H as (w & _ & _ & ->). exact B.
  - destruct H as (w & _ & _ & _ & ->). exact B.
  - destruct H as [H|[_ ->]]; [|exact B]. eapply IHr; eauto.
  - destruct H as (cs1 & H & ->). simpl.
    destruct (Nat.eqb n n0) eqn:E; [discriminate|].
    eapply IHr; [exact H|]. destruct B as [B|B]; [|auto].
    simpl in B. auto.
  - destruct H as (_ & _ & ->). exact B.
Qed.

Lemma search_sound ic r : forall s m,
  search ic r s = Some m ->
  exists pre s0 s', s = pre ++ s0 /\ matches ic r s0 [] s' m.
Proof.
  induction s as [|c s IH]; simpl; intros m H.
  - destruct (run ic r [] [] accept) eqn:E; [|discriminate].
    injection H as ->. apply run_sound in E.
    destruct E as (s' & cs' & M & A). injection A as ->.
    exists [], [], s'. auto.
  - destruct (run ic r (c :: s) [] accept) eqn:E.
    + injection H as ->. apply run_sound in E.
      destruct E as (s' & cs' & M & A). injection A as ->.
      exists [], (c :: s), s'. auto.
    + destruct (IH _ H) as (pre & s0 & s' & -> & M).
      exists (c :: pre), s0, s'. auto.
Qed.

Lemma exec_sound re s m :
  RegExp.exec re s = Some m ->
  exists pre s0 s',
    s = pre ++ s0 /\ (anchored re = true -> pre = []) /\
    matches (ignoreCase re) (pattern re) s0 [] s' m.
Proof.
  unfold RegExp.exec. destruct (anchored re) eqn:A; intros H.
  - apply run_sound in H. destruct H as (s' & cs' & M & E). injection E as ->.
    exists [], s, s'. auto.
  - apply search_sound in H. destruct H as (pre & s0 & s' & -> & M).
    exists pre, s0, s'. repeat split; [discriminate | assumption].
Qed.

Lemma search_complete ic r pre : forall s0 s' m,
  matches ic r s0 [] s' m -> search ic r (pre ++ s0) <> None.
Proof.
  induction pre as [|c pre IH]; intros s0 s' m M.
  - simpl. pose proof (run_complete ic r s0 [] s' m accept M) as R.
    destruct s0; simpl;
      (destruct (run ic r _ [] accept); [discriminate|]);
      exfalso; apply R; [discriminate | reflexivity | discriminate | reflexivity].
  - simpl. destruct (run ic r (c :: pre ++ s0) [] accept); [discriminate|].
    exact (IH _ _ _ M).
Qed.

(** [re.test(s)] holds exactly when the pattern matches somewhere in [s]
    (at the start of [s] when the pattern is anchored). *)
Lemma test_matches re s :
  RegExp.test re s = true <->
  exists pre s0 s' m,
    s = pre ++ s0 /\ (anchored re = true -> pre = []) /\
    matches (ignoreCase re) (pattern re) s0 [] s' m.
Proof.
  unfold RegExp.test. split.
  - destruct (RegExp.exec re s) as [m|] eqn:E; [|discriminate].
    intros _. destruct (exec_sound re s m E) as (pre & s0 & s' & H).
    exists pre, s0, s', m. exact H.
  - intros (pre & s0 & s' & m & -> & A & M).
    unfold RegExp.exec. destruct (anchored re).
    + rewrite (A eq_refl). simpl.
      pose proof (run_complete _ _ s0 [] s' m accept M) as R.
      destruct (run _ _ s0 [] accept); [reflexivity|].
      exfalso. apply R; [discriminate | reflexivity].
    + pose proof (search_complete _ _ pre s0 s' m M) as R.
      destruct (search _ _ (pre ++ s0)); [reflexivity | congruence].
Qed.

(** A group the pattern binds is defined in every match. *)
Lemma exec_binds re n s m :
  RegExp.exec re s = Some m ->
  binds n (pattern re) = true ->
  exists v, cap n m = Some v.
Proof.
  intros H B. apply exec_sound in H.
  destruct H as (pre & s0 & s' & _ & _ & M).
  pose proof (matches_cap _ n _ _ _ _ _ M (or_introl B)) as D.
  destruct (cap n m); [eauto | congruence].
Qed.

(** *** Literal words *)

Lemma lit_cons c w :
  lit (c :: w) = match w with [] => Chr c | _ :: _ => Seq (Chr c) (lit w) end.
Proof. reflexivity. Qed.

Lemma lit_exact w : forall s cs s' cs',
  matches false (lit w) s cs s' cs' -> s = w ++ s' /\ cs' = cs.
Proof.
  induction w as [|c w IH]; intros s cs s' cs' H.
  - simpl in H. destruct H as [-> ->]. auto.
  - rewrite lit_cons in H. destruct w as [|d w].
    + simpl in H. destruct H as (a & -> & E & ->).
      apply Ascii.eqb_eq in E. subst. auto.
    + simpl matches in H. destruct H as (s1 & cs1 & (a & -> & E & ->) & H).
      apply Ascii.eqb_eq in E. subst a.
      destruct (IH _ _ _ _ H) as [-> ->]. auto.
Qed.

Lemma ascii_of_code_inj m n :
  m < 256 -> n < 256 -> ascii_of_nat m = ascii_of_nat n -> m = n.
Proof.
  intros Hm Hn E. apply (f_equal nat_of_ascii) in E.
  rewrite !nat_ascii_embedding in E; assumption.
Qed.

(** Under the [i] flag a lower-case pattern letter matches itself and its
    capital, nothing else. *)
Lemma sameChar_lower c a :
  isLowerAZ c = true -> sameChar true c a = true ->
  lowerChar a = c /\ upperChar a = upperChar c.
Proof.
  intros Hc E. unfold sameChar in E. apply Ascii.eqb_eq in E.
  unfold canonicalize in E. rewrite Hc in E.
  pose proof (nat_ascii_bounded a) as Ba.
  pose proof (nat_ascii_bounded c) as Bc.
  assert (Rc : 97 <= nat_of_ascii c <= 122) by (char_arith; lia).
  destruct (isLowerAZ a) eqn:Ha.
  - assert (Ra : 97 <= nat_of_ascii a <= 122) by (char_arith; lia).
    assert (nat_of_ascii c = nat_of_ascii a) as Eca.
    { unfold code in E. apply ascii_of_code_inj in E; lia. }
    assert (c = a) as ->.
    { rewrite <- (ascii_nat_embedding c), <- (ascii_nat_embedding a).
      congruence. }
    split; [|reflexivity].
    unfold lowerChar, isUpperAZ, code.
    replace (nat_of_ascii a <=? 90) with false
      by (symmetry; apply Nat.leb_gt; lia).
    replace (nat_of_ascii a <=? 222) with true
      by (symmetry; apply Nat.leb_le; lia).
    replace (192 <=? nat_of_ascii a) with false
      by (symmetry; apply Nat.leb_gt; lia).
    rewrite andb_false_r. reflexivity.
  - assert (nat_of_ascii a = nat_of_ascii c - 32) as Eac.
    { rewrite <- E. unfold code. apply nat_ascii_embedding. lia. }
    split.
    + unfold lowerChar, isUpperAZ, code.
      replace (65 <=? nat_of_ascii a) with true
        by (symmetry; apply Nat.leb_le; lia).
      replace (nat_of_ascii a <=? 90) with true
        by (symmetry; apply Nat.leb_le; lia).
      simpl. rewrite Eac.
      replace (nat_of_ascii c - 32 + 32) with (nat_of_ascii c) by lia.
      apply ascii_nat_embedding.
    + unfold upperChar at 1. rewrite Ha. unfold code.
      replace (224 <=? nat_of_ascii a) with false
        by (symmetry; apply Nat.leb_gt; lia).
      simpl. unfold upperChar. rewrite Hc. symmetry. exact E.
Qed.

Lemma lit_ignoreCase w : forall s cs s' cs',
  forallb isLowerAZ w = true ->
  matches true (lit w) s cs s' cs' ->
  exists u, s = u ++ s' /\ toLowerCase u = w /\
            toUpperCase u = toUpperCase w /\ cs' = cs.
Proof.
  induction w as [|c w IH]; intros s cs s' cs' L H.
  - simpl in H. destruct H as [-> ->]. exists []. auto.
  - simpl in L. apply andb_true_iff in L. destruct L as [Lc Lw].
    rewrite lit_cons in H. destruct w as [|d w].
    + simpl in H. destruct H as (a & -> & E & ->).
      destruct (sameChar_lower c a Lc E) as [E1 E2].
      exists [a]. simpl. rewrite E1, E2. auto.
    + simpl matches in H. destruct H as (s1 & cs1 & (a & -> & E & ->) & H).
      destruct (sameChar_lower c a Lc E) as [E1 E2].
      destruct (IH _ _ _ _ Lw H) as (u & -> & U1 & U2 & ->).
      exists (a :: u). simpl. simpl in U1, U2. rewrite E1, E2, U1, U2. auto.
Qed.

Lemma alts_inv ic rs : forall s cs s' cs',
  rs <> [] ->
  matches ic (alts rs) s cs s' cs' ->
  exists r, In r rs /\ matches ic r s cs s' cs'.
Proof.
  induction rs as [|r rs IH]; intros s cs s' cs' N H; [congruence|].
  destruct rs as [|r' rs].
  - simpl in H. exists r. simpl. auto.
  - change (alts (r :: r' :: rs)) with (Alt r (alts (r' :: rs))) in H.
    simpl matches in H. destruct H as [H|H].
    + exists r. simpl. auto.
    + destruct (IH _ _ _ _ ltac:(discriminate) H) as (r0 & I & M).
      exists r0. split; [right; exact I | exact M].
Qed.

(** A word of a list of lower-case words, matched without regard to case:
    the matched text is that word up to case. *)
Lemma words_ignoreCase ws s cs s' cs' :
  ws <> [] ->
  Forall (fun w => forallb isLowerAZ w = true) ws ->
  matches true (alts (map lit ws)) s cs s' cs' ->
  exists u, s = u ++ s' /\ In (toLowerCase u) ws /\
            In (toUpperCase u) (map toUpperCase ws) /\ cs' = cs.
Proof.
  intros N L H.
  apply alts_inv in H; [|destruct ws; [congruence | discriminate]].
  destruct H as (r & I & M). apply in_map_iff in I.
  destruct I as (w & <- & I).
  rewrite Forall_forall in L.
  destruct (lit_ignoreCase w _ _ _ _ (L _ I) M) as (u & -> & U1 & U2 & ->).
  exists u. repeat split; try congruence.
  rewrite U2. apply in_map. exact I.
Qed.

End MatchFacts.

(** ** The header pattern *)

Module HeaderFacts.

Import RegExpFacts JSFacts MatchFacts Parser.

Lemma sameChar_punct ic c a :
  code c < 65 -> sameChar ic c a = true -> a = c.
Proof.
  intros Hc E. unfold sameChar in E.
  destruct ic; apply Ascii.eqb_eq in E; [|congruence].
  unfold canonicalize in E.
  assert (isLowerAZ c = false) as Lc.
  { unfold isLowerAZ. apply andb_false_iff. left. apply Nat.leb_gt. lia. }
  rewrite Lc in E. destruct (isLowerAZ a) eqn:La; [|congruence].
  exfalso. unfold isLowerAZ in La. apply andb_true_iff in La.
  destruct La as [L1 L2]. apply Nat.leb_le in L1, L2.
  apply (f_equal nat_of_ascii) in E. unfold code in *.
  rewrite nat_ascii_embedding in E by lia. lia.
Qed.

Lemma commitTypes_lower :
  Forall (fun w => forallb isLowerAZ w = true) commitTypes.
Proof. repeat constructor. Qed.

(** The shape of a line the header pattern matches, and what the groups
    hold. *)
Lemma header_match line m :
  RegExp.exec headerRe line = Some m ->
  exists ty sc (bang : bool) ws subj,
    line = ty ++ scopeText sc ++ (if bang then str "!" else [])
              ++ str ":" ++ ws ++ subj /\
    In (toLowerCase ty) commitTypes /\
    (forall x, sc = Some x -> x <> [] /\ forallb notRParen x = true) /\
    forallb isWhiteSpace ws = true /\
    subj <> [] /\ forallb isDot subj = true /\
    cap 1 m = Some ty /\ cap 3 m = sc /\
    cap 4 m = (if bang then Some (str "!") else None) /\
    cap 5 m = Some subj.
Proof.
  intros H. apply exec_sound in H.
  destruct H as (pre & s0 & s' & -> & A & M).
  rewrite (A eq_refl). clear A pre. simpl app.
  unfold headerRe in M. cbn [pattern ignoreCase seqs matches] in M.
  destruct M as (s1 & cs1 & (cs2 & Mty & ->) & s2 & cs3 & Msc & s3 & cs4 & Mb
                 & s4 & cs5 & (a & -> & Ea & ->) & s5 & cs6
                 & (ws & -> & Hws & ->) & s6 & cs7
                 & (cs8 & (subj & -> & Ns & Hs & ->) & ->) & -> & _ & ->).
  apply sameChar_punct in Ea; [subst a | vm_compute; lia].
  apply words_ignoreCase in Mty;
    [|discriminate | exact commitTypes_lower].
  destruct Mty as (ty & -> & Ity & _ & ->).
  destruct Msc as [(cs & (s7 & cs9 & (a & -> & Ea & ->) & s8 & cs10
                         & (cs11 & (x & -> & Nx & Hx & ->) & ->)
                         & b & -> & Eb & ->) & ->) | [-> ->]];
  destruct Mb as [(cs & (c & -> & Ec & ->) & ->) | [<- ->]].
  all: repeat match goal with
       | H : sameChar _ _ _ = true |- _ =>
           apply sameChar_punct in H; [subst | vm_compute; lia]
       end.
  all: cbn [cap Nat.eqb].
  all: rewrite ?app_nil_r, ?consumed_app, ?consumed_cons, ?consumed_all.
  - exists ty, (Some x), true, ws, subj. simpl. rewrite <- app_assoc. simpl.
    repeat split; try assumption; try reflexivity.
    all: injection H as <-; assumption.
  - exists ty, (Some x), false, ws, subj. simpl. rewrite <- app_assoc. simpl.
    repeat split; try assumption; try reflexivity.
    all: injection H as <-; assumption.
  - exists ty, None, true, ws, subj. simpl.
    repeat split; try assumption; try reflexivity; discriminate.
  - exists ty, None, false, ws, subj. simpl.
    repeat split; try assumption; try reflexivity; discriminate.
Qed.

End HeaderFacts.

(** ** The parser *)

Module ParserFacts.

Import RegExpFacts JSFacts MatchFacts HeaderFacts Parser.

(** The header of a trimmed line has a type and a subject that are not
    empty. *)
Lemma header_truthy raw m ty subj :
  RegExp.exec headerRe (trim raw) = Some m ->
  cap 1 m = Some ty -> cap 5 m = Some subj ->
  truthy (toLowerCase ty) = true /\ truthy (trim subj) = true.
Proof.
  intros H C1 C5.
  destruct (header_match _ _ H)
    as (ty' & sc & bang & ws & subj' & L & Ity & _ & _ & Ns & _ & C1' & _ & _ & C5').
  rewrite C1 in C1'. rewrite C5 in C5'.
  injection C1' as <-. injection C5' as <-.
  split.
  - destruct (toLowerCase ty); [|reflexivity].
    exfalso. vm_compute in Ity. intuition discriminate.
  - destruct (@exists_last _ subj Ns) as (u & d & ->).
    assert (isWhiteSpace d = false) as Hd.
    { apply (trim_last raw
               (ty ++ scopeText sc ++ (if bang then str "!" else [])
                   ++ str ":" ++ ws ++ u) d).
      rewrite L. repeat rewrite <- app_assoc. reflexivity. }
    pose proof (trim_nonempty u d Hd) as N.
    destruct (trim (u ++ [d])); [congruence | reflexivity].
Qed.

(** One iteration of the loop never throws, and does what the role of the
    line says. *)
Lemma step_role st raw :
  step st raw =
  Ok match roleOf raw with
     | Opens cur =>
         {| suggestions := pushCurrent st;
            currentSuggestion := Some cur;
            bodyLines := [] |}
     | Continues line =>
         match currentSuggestion st with
         | Some _ =>
             {| suggestions := suggestions st;
                currentSuggestion := currentSuggestion st;
                bodyLines := bodyLines st ++ [line] |}
         | None => st
         end
     | Dropped => st
     end.
Proof.
  unfold step, roleOf.
  destruct (negb (truthy (trim raw))); [reflexivity|].
  destruct (RegExp.exec headerRe (trim raw)) as [m|] eqn:E.
  - destruct (header_match _ _ E)
      as (ty & sc & bang & ws & subj & _ & _ & _ & _ & _ & _ & C1 & _ & _ & C5).
    rewrite C1, C5. simpl.
    destruct (isMetaCommentary (trim raw) (trim subj)); reflexivity.
  - destruct (currentSuggestion st);
      destruct (isInstruction (trim raw)); reflexivity.
Qed.

Lemma roleOf_truthy raw cur :
  roleOf raw = Opens cur ->
  truthy (c_type cur) && truthy (c_subject cur) = true.
Proof.
  unfold roleOf.
  destruct (negb (truthy (trim raw))); [discriminate|].
  destruct (RegExp.exec headerRe (trim raw)) as [m|] eqn:E.
  - destruct (cap 1 m) as [ty|] eqn:C1; [|discriminate].
    destruct (cap 5 m) as [subj|] eqn:C5; [|discriminate].
    destruct (isMetaCommentary (trim raw) (trim subj)); [discriminate|].
    intros H. injection H as <-. simpl.
    destruct (header_truthy raw m ty subj E C1 C5) as [-> ->]. reflexivity.
  - destruct (isInstruction (trim raw)); discriminate.
Qed.

(** The suggestion the push block makes of an open header and its body
    lines is [close]. *)
Lemma pushCurrent_close sugg cur bl :
  truthy (c_type cur) && truthy (c_subject cur) = true ->
  pushCurrent (mkState sugg (Some cur) bl) = sugg ++ [close (cur, bl)].
Proof.
  intros T. unfold pushCurrent, close. simpl. rewrite T.
  unfold template, scopeText. rewrite orb_false_r.
  destruct (c_scope cur) as [x|]; destruct bl as [|l bl]; reflexivity.
Qed.

(** The loop never throws; after it, pushing the open suggestion gives the
    suggestions so far, then the pending one, then one per later block. *)
Lemma loop_blocks lines : forall st,
  openOk st ->
  exists st',
    loop lines st = Ok st' /\
    pushCurrent st' =
      suggestions st
      ++ pending st (fst (blocks (map roleOf lines)))
      ++ map close (snd (blocks (map roleOf lines))).
Proof.
  induction lines as [|raw lines IH]; intros st O.
  - exists st. split; [reflexivity|]. simpl. rewrite app_nil_r.
    unfold pending. unfold openOk in O.
    destruct st as [sugg [cur|] bl]; simpl in *.
    + rewrite app_nil_r. apply pushCurrent_close. exact O.
    + rewrite app_nil_r. reflexivity.
  - simpl loop. rewrite step_role. simpl bind. simpl map. simpl blocks.
    destruct (blocks (map roleOf lines)) as [pre bs] eqn:B.
    destruct (roleOf raw) as [cur|line|] eqn:R.
    + pose proof (roleOf_truthy raw cur R) as T.
      destruct (IH {| suggestions := pushCurrent st;
                      currentSuggestion := Some cur;
                      bodyLines := [] |} T) as (st' & L & P).
      exists st'. split; [exact L|]. rewrite P. simpl.
      unfold pending at 1. simpl.
      unfold pending. unfold openOk in O.
      destruct st as [sugg [cur0|] bl]; simpl in *.
      * rewrite (pushCurrent_close sugg cur0 bl O), app_nil_r.
        rewrite <- app_assoc. reflexivity.
      * reflexivity.
    + destruct st as [sugg [cur0|] bl]; simpl in *.
      * destruct (IH {| suggestions := sugg;
                        currentSuggestion := Some cur0;
                        bodyLines := bl ++ [line] |} O) as (st' & L & P).
        exists st'. split; [exact L|]. rewrite P. simpl.
        unfold pending. simpl. rewrite <- app_assoc. reflexivity.
      * destruct (IH {| suggestions := sugg;
                        currentSuggestion := None;
                        bodyLines := bl |} I) as (st' & L & P).
        exists st'. split; [exact L|]. rewrite P. reflexivity.
    + destruct (IH st O) as (st' & L & P).
      exists st'. split; [exact L|]. rewrite P. reflexivity.
Qed.

(** The parser returns, and returns the first two closed suggestions. *)
Lemma parseAIResponse_closed text changes :
  parseAIResponse text changes = Ok (firstn 2 (closedSuggestions text)).
Proof.
  unfold parseAIResponse, closedSuggestions, relevantLines, slice0.
  destruct (loop_blocks (firstn (stopAtLine (split text "010"%char))
                                (split text "010"%char)) initial I)
    as (st' & L & P).
  rewrite L. simpl bind. rewrite P. reflexivity.
Qed.

End ParserFacts.

(** ** Running the header pattern on a rendered header *)

Module HeaderRun.

Import RegExpFacts JSFacts MatchFacts HeaderFacts Parser.

Lemma orElse_l {A} (a b : option A) x : a = Some x -> orElse a b = Some x.
Proof. intros ->. reflexivity. Qed.

Lemma orElse_None_r {A} (a : option A) : orElse a None = a.
Proof. destruct a; reflexivity. Qed.

(** The greedy loop stops where the class stops, when the continuation
    accepts there. *)
Lemma greedy_stop p w rest k res :
  forallb p w = true ->
  match rest with [] => True | c :: _ => p c = false end ->
  k rest = Some res ->
  greedy p (w ++ rest) k = Some res.
Proof.
  intros Hw Hr Hk. induction w as [|c w IH]; simpl.
  - destruct rest as [|c r]; simpl; [exact Hk|]. rewrite Hr. exact Hk.
  - simpl in Hw. apply andb_true_iff in Hw. destruct Hw as [Hc Hw].
    rewrite Hc. rewrite (IH Hw). reflexivity.
Qed.

Lemma run_Seq ic r1 r2 s cs k :
  run ic (Seq r1 r2) s cs k = run ic r1 s cs (fun s' cs' => run ic r2 s' cs' k).
Proof. reflexivity. Qed.

(** The type group on a lower-case type: no other alternative applies. *)
Lemma run_type ty rest cs k :
  In ty commitTypes ->
  run true (Grp 1 (alts (map lit commitTypes))) (ty ++ rest) cs k =
  k rest ((1, ty) :: cs).
Proof.
  intros H. cbn [run].
  rewrite <- (consumed_app ty rest) at 2.
  generalize (consumed (ty ++ rest)). intros g.
  simpl in H.
  repeat (destruct H as [<-|H]; [simpl; rewrite ?orElse_None_r; reflexivity|]).
  contradiction.
Qed.

Lemma run_scope_some x rest cs k res :
  x <> [] -> forallb notRParen x = true ->
  k rest ((2, str "(" ++ x ++ str ")") :: (3, x) :: cs) = Some res ->
  run true scopeGroup (str "(" ++ x ++ str ")" ++ rest) cs k = Some res.
Proof.
  intros N P K. destruct x as [|a x]; [congruence|].
  simpl in P. apply andb_true_iff in P. destruct P as [Pa Px].
  unfold scopeGroup. simpl. rewrite Pa. apply orElse_l.
  apply greedy_stop; [exact Px | reflexivity |]. simpl.
  rewrite (consumed_eq _ rest ("("%char :: a :: x ++ [")"%char]))
    by (simpl; rewrite <- app_assoc; reflexivity).
  rewrite (consumed_eq _ (")"%char :: rest) (a :: x)) by reflexivity.
  exact K.
Qed.

Lemma run_scope_none c rest cs k :
  Ascii.eqb c "(" = false ->
  run true scopeGroup (c :: rest) cs k = k (c :: rest) cs.
Proof.
  intros N. unfold scopeGroup. cbn [run seqs].
  replace (sameChar true "(" c) with false; [reflexivity|].
  symmetry. destruct (sameChar true "(" c) eqn:E; [|reflexivity].
  apply sameChar_punct in E; [|vm_compute; lia]. subst.
  discriminate.
Qed.

Lemma run_subject subj cs :
  subj <> [] -> trim subj = subj -> forallb isDot subj = true ->
  run true subjectPart (str ": " ++ subj) cs accept = Some ((5, subj) :: cs).
Proof.
  intros N T D. destruct subj as [|a subj]; [congruence|].
  pose proof (trim_fix_head a subj T) as Ha.
  simpl in D. apply andb_true_iff in D. destruct D as [Da Ds].
  unfold subjectPart. simpl. rewrite Ha, Da. apply orElse_l.
  rewrite <- (app_nil_r subj) at 1.
  apply greedy_stop; [exact Ds | exact I |].
  rewrite consumed_all. reflexivity.
Qed.

Lemma run_bang_subject (bang : bool) subj cs :
  subj <> [] -> trim subj = subj -> forallb isDot subj = true ->
  run true (Seq bangGroup subjectPart)
      ((if bang then str "!" else []) ++ str ": " ++ subj) cs accept =
  Some ((5, subj) :: (if bang then [(4, str "!")] else []) ++ cs).
Proof.
  intros N T D. rewrite run_Seq. destruct bang.
  - unfold bangGroup. cbn [run str list_ascii_of_string app].
    replace (sameChar true "!" "!") with true by reflexivity.
    apply orElse_l. rewrite consumed_cons.
    exact (run_subject subj _ N T D).
  - unfold bangGroup. cbn [run str list_ascii_of_string app].
    replace (sameChar true "!" ":") with false by reflexivity.
    exact (run_subject subj cs N T D).
Qed.

(** The header pattern on a rendered header. *)
Lemma exec_rendered ty sc (bang : bool) subj :
  In ty commitTypes ->
  (forall x, sc = Some x -> x <> [] /\ forallb notRParen x = true) ->
  subj <> [] -> trim subj = subj -> forallb isDot subj = true ->
  exists m,
    RegExp.exec headerRe
      (ty ++ scopeText sc ++ (if bang then str "!" else []) ++ str ": " ++ subj)
    = Some m /\
    cap 1 m = Some ty /\ cap 3 m = sc /\ cap 5 m = Some subj.
Proof.
  intros Ity Hsc N T D.
  unfold RegExp.exec, headerRe. cbn [anchored ignoreCase pattern].
  change (seqs [Grp 1 (alts (map lit commitTypes));
                Opt (Grp 2 (seqs [Chr "("; Grp 3 (Plus notRParen); Chr ")"]));
                Opt (Grp 4 (Chr "!")); Chr ":"; Star isWhiteSpace;
                Grp 5 (Plus isDot); Eol])
    with (Seq (Grp 1 (alts (map lit commitTypes)))
              (Seq scopeGroup (Seq bangGroup subjectPart))).
  rewrite run_Seq, (run_type ty _ [] _ Ity), run_Seq.
  destruct sc as [x|].
  - destruct (Hsc x eq_refl) as [Nx Px].
    eexists. split.
    + unfold scopeText. rewrite <- !app_assoc.
      apply (run_scope_some x _ _ _ _ Nx Px).
      apply run_bang_subject; assumption.
    + destruct bang; repeat split; reflexivity.
  - eexists. split.
    + unfold scopeText. cbn [app].
      destruct bang; cbn [str list_ascii_of_string app];
        (rewrite run_scope_none by reflexivity).
      * exact (run_bang_subject true subj _ N T D).
      * exact (run_bang_subject false subj _ N T D).
    + destruct bang; repeat split; reflexivity.
Qed.

End HeaderRun.

(** ** The extractor *)

Module ExtractorFacts.

Import RegExpFacts JSFacts MatchFacts HeaderFacts Extractor.

Lemma pushName_ok guard name content a :
  binds 1 (pattern name) = true ->
  exists a', pushName guard name content a = Ok a'.
Proof.
  intros B. unfold pushName. destruct guard; [|eauto].
  destruct (RegExp.exec name content) as [m|] eqn:E; [|eauto].
  destruct (exec_binds _ 1 _ _ E B) as [v ->]. simpl. eauto.
Qed.

(** The verb the API pattern captures is one of the five, up to case. *)
Lemma apiCall_verb content m :
  RegExp.exec apiCallRe content = Some m ->
  exists v, cap 1 m = Some v /\ In (toUpperCase v) verbTokens.
Proof.
  intros H. apply exec_sound in H.
  destruct H as (pre & s0 & s' & _ & _ & M).
  unfold apiCallRe in M. cbn [pattern ignoreCase seqs matches] in M.
  destruct M as (s1 & cs1 & (a & -> & _ & ->) & s2 & cs2
                 & (cs3 & Mv & ->) & b & -> & _ & ->).
  apply words_ignoreCase in Mv; [|discriminate | repeat constructor].
  destruct Mv as (u & -> & _ & Iu & ->).
  exists u. cbn [cap Nat.eqb]. rewrite consumed_app. auto.
Qed.

Lemma pushImport_ok content a : exists a', pushImport content a = Ok a'.
Proof.
  unfold pushImport.
  destruct (RegExp.test importRe content); [|eauto].
  destruct (RegExp.exec importFromRe content) as [m|] eqn:E; [|eauto].
  destruct (exec_binds _ 1 _ _ E eq_refl) as [v ->]. simpl.
  match goal with |- context [if ?c then _ else _] => destruct c end; eauto.
Qed.

Lemma pushVerb_ok path content a :
  Forall (fun v => In v verbTokens) a ->
  exists a', pushVerb path content a = Ok a' /\
             Forall (fun v => In v verbTokens) a'.
Proof.
  intros V. unfold pushVerb.
  destruct (RegExp.test apiFileRe path); [|eauto].
  destruct (RegExp.test apiCallRe content); [|eauto].
  destruct (RegExp.exec apiCallRe content) as [m|] eqn:E; [|eauto].
  destruct (apiCall_verb _ _ E) as (v & -> & Iv). simpl.
  eexists. split; [reflexivity|].
  apply Forall_app. split; [exact V | constructor; [exact Iv | constructor]].
Qed.

(** One line is scanned without throwing; the verbs found stay among the
    five tokens. *)
Lemma scanLine_ok f acc line :
  Forall (fun v => In v verbTokens) (f_apiChanges acc) ->
  exists acc',
    scanLine f acc line = Ok acc' /\
    Forall (fun v => In v verbTokens) (f_apiChanges acc').
Proof.
  intros V. unfold scanLine.
  destruct (negb (startsWith line (str "+"))); [eauto|].
  set (content := trim (skipn 1 line)).
  destruct (pushName_ok (RegExp.test functionDeclRe content) functionNameRe
              content (f_newFunctions acc) eq_refl) as [a1 ->].
  cbn [bind].
  destruct (pushName_ok (RegExp.test arrowDeclRe content) constNameRe
              content a1 eq_refl) as [a2 ->].
  cbn [bind].
  destruct (pushName_ok (RegExp.test classDeclRe content) classNameRe
              content (f_newClasses acc) eq_refl) as [a3 ->].
  cbn [bind].
  destruct (pushName_ok (RegExp.test jsxFileRe (file f) &&
                         RegExp.test componentDeclRe content)
              componentNameRe content (f_newComponents acc) eq_refl) as [a4 ->].
  cbn [bind].
  destruct (pushImport_ok content (f_newImports acc)) as [a5 ->].
  cbn [bind].
  destruct (pushName_ok (RegExp.test configFileRe (file f)) configKeyRe
              content (f_configChanges acc) eq_refl) as [a6 ->].
  cbn [bind].
  destruct (pushName_ok (RegExp.test jsxFileRe (file f) &&
                         RegExp.test jsxTagRe content)
              jsxTagRe content (f_uiChanges acc) eq_refl) as [a7 ->].
  cbn [bind].
  destruct (pushVerb_ok (file f) content (f_apiChanges acc) V) as (a8 & -> & V8).
  cbn [bind]. eexists. split; [reflexivity | exact V8].
Qed.

Lemma scanLines_ok f lines : forall acc,
  Forall (fun v => In v verbTokens) (f_apiChanges acc) ->
  exists acc',
    scanLines f lines acc = Ok acc' /\
    Forall (fun v => In v verbTokens) (f_apiChanges acc').
Proof.
  induction lines as [|l ls IH]; intros acc V; simpl; [eauto|].
  destruct (scanLine_ok f acc l V) as (acc1 & -> & V1). simpl. auto.
Qed.

Lemma scanFiles_ok fs : forall acc,
  Forall (fun v => In v verbTokens) (f_apiChanges acc) ->
  exists acc',
    scanFiles fs acc = Ok acc' /\
    Forall (fun v => In v verbTokens) (f_apiChanges acc').
Proof.
  induction fs as [|f fs IH]; intros acc V; simpl; [eauto|].
  destruct (scanLines_ok f (split (diff f) "010"%char) acc V) as (acc1 & -> & V1).
  simpl. auto.
Qed.

(** The extractor never throws. *)
Lemma analyzeDiffsInDepth_ok changes :
  exists found,
    scanFiles (files changes) nothingFound = Ok found /\
    analyzeDiffsInDepth changes = Ok (summarize found) /\
    Forall (fun v => In v verbTokens) (f_apiChanges found).
Proof.
  destruct (scanFiles_ok (files changes) nothingFound (Forall_nil _))
    as (found & E & V).
  exists found. unfold analyzeDiffsInDepth. rewrite E. auto.
Qed.

(** A set of the result: without duplicates, and as long as the cap or as
    the number of distinct names found, whichever is smaller. *)
Lemma capped raw n : cappedSet (slice0 (newSet raw) n) raw n.
Proof.
  unfold cappedSet. split; [apply slice0_NoDup, newSet_NoDup|].
  rewrite slice0_length. split; [apply Nat.le_min_l | reflexivity].
Qed.

(** At most five distinct verbs exist. *)
Lemma verbs_at_most_five raw :
  Forall (fun v => In v verbTokens) raw ->
  List.length (newSet raw) <= 5.
Proof.
  intros V.
  change 5 with (List.length verbTokens).
  apply NoDup_incl_length; [apply newSet_NoDup|].
  intros v Hv. apply newSet_incl in Hv.
  rewrite Forall_forall in V. auto.
Qed.

End ExtractorFacts.

(** ** The classifier *)

Module ClassifierFacts.

Import Classifier.

(** One step of the scan counts the file for the first kind whose test
    its path passes. *)
Lemma visit_kind fl f : visit fl f = flagsAfter fl [f].
Proof.
  unfold visit, flagsAfter, counted, notable, listed, countedFor.
  cbn [existsb flat_map kinds before Kind_eqb forallb]. cbv zeta.
  change (includes (file f) (str ".test.") || includes (file f) (str ".spec."))
    with (pathTest TestFile (file f)).
  change (endsWith (file f) (str ".md")) with (pathTest DocFile (file f)).
  change (includes (file f) (str "package.json")
          || includes (file f) (str "tsconfig.json")
          || includes (file f) (str ".config."))
    with (pathTest ConfigFile (file f)).
  change (includes (file f) (str "webpack") || includes (file f) (str "vite")
          || includes (file f) (str "build") || includes (file f) (str "/dist/"))
    with (pathTest BuildFile (file f)).
  change (includes (file f) (str "/cli/") || includes (file f) (str "cli-"))
    with (pathTest CliFile (file f)).
  change (includes (file f) (str "component") || endsWith (file f) (str ".tsx")
          || endsWith (file f) (str ".jsx"))
    with (pathTest ComponentFile (file f)).
  change (includes (file f) (str "/api/") || includes (file f) (str "route.")
          || includes (file f) (str "controller"))
    with (pathTest ApiFile (file f)).
  change (endsWith (file f) (str ".css") || endsWith (file f) (str ".scss")
          || includes (file f) (str "style"))
    with (pathTest StyleFile (file f)).
  change (pathTest OtherFile (file f)) with true.
  generalize (pathTest TestFile (file f)), (pathTest DocFile (file f)),
    (pathTest ConfigFile (file f)), (pathTest BuildFile (file f)),
    (pathTest CliFile (file f)), (pathTest ComponentFile (file f)),
    (pathTest ApiFile (file f)), (pathTest StyleFile (file f)).
  intros c1 c2 c3 c4 c5 c6 c7 c8.
  destruct fl as [t d c b co a s cl m]. cbn [hasTests hasDocs hasConfig hasBuild
    hasComponents hasAPI hasStyles hasCLI mainFiles].
  destruct c1, c2, c3, c4, c5, c6, c7, c8; cbn [negb andb orb];
    repeat match goal with
           | |- context [?n <? ?k] => destruct (n <? k)
           end;
    cbn [negb andb orb app];
    rewrite ?orb_false_r, ?orb_true_r, ?app_nil_r;
    reflexivity.
Qed.

Lemma flagsAfter_nil fl : flagsAfter fl [] = fl.
Proof.
  destruct fl. unfold flagsAfter, counted. simpl.
  rewrite ?orb_false_r, app_nil_r. reflexivity.
Qed.

Lemma flagsAfter_cons fl f fs :
  flagsAfter (flagsAfter fl [f]) fs = flagsAfter fl (f :: fs).
Proof.
  unfold flagsAfter, counted. simpl.
  rewrite ?orb_false_r, ?app_nil_r, <- ?orb_assoc, <- app_assoc. reflexivity.
Qed.

Lemma scan_flags fs : forall fl, fold_left visit fs fl = flagsAfter fl fs.
Proof.
  induction fs as [|f fs IH]; intros fl; simpl.
  - symmetry. apply flagsAfter_nil.
  - rewrite IH, visit_kind. apply flagsAfter_cons.
Qed.

Lemma fold_sum {A} (g : A -> nat) l : forall n,
  fold_left (fun sum f => sum + g f) l n = n + list_sum (map g l).
Proof.
  induction l as [|x l IH]; intros n; simpl; [lia|]. rewrite IH. lia.
Qed.

Lemma totalAdditions_sum fs : totalAdditions fs = sumAdditions fs.
Proof. unfold totalAdditions, sumAdditions. rewrite fold_sum. reflexivity. Qed.

Lemma totalDeletions_sum fs : totalDeletions fs = sumDeletions fs.
Proof. unfold totalDeletions, sumDeletions. rewrite fold_sum. reflexivity. Qed.

(** The classifier decides by [classify] and collects by [notable]. *)
Lemma analyze_classify changes :
  (a_type (analyzeChangesForFallback changes),
   category (analyzeChangesForFallback changes)) = classify (files changes)
  /\ a_mainFiles (analyzeChangesForFallback changes)
     = flat_map notable (files changes).
Proof.
  unfold analyzeChangesForFallback. rewrite scan_flags.
  destruct (decide (flagsAfter noFlags (files changes)) (files changes))
    as [ty cat] eqn:D.
  cbn [a_type category a_mainFiles]. split; [|reflexivity].
  rewrite <- D. unfold decide, classify, firstMatch, flagsAfter.
  cbn [hasTests hasDocs hasConfig hasBuild hasComponents hasAPI hasStyles
       hasCLI noFlags orb].
  rewrite totalAdditions_sum, totalDeletions_sum, negb_orb.
  rewrite (Nat.mul_comm (sumDeletions _) 2), (Nat.mul_comm (sumAdditions _) 2).
  rewrite <- !andb_assoc. reflexivity.
Qed.

Lemma present_perm k fs fs' :
  Permutation fs fs' -> counted k fs = counted k fs'.
Proof.
  intros P. unfold counted.
  apply eq_true_iff_eq. rewrite !existsb_exists.
  split; intros (x & I & E); exists x; split; auto.
  - eapply Permutation_in; eauto.
  - eapply Permutation_in; [apply Permutation_sym|]; eauto.
Qed.

Lemma list_sum_perm l l' : Permutation l l' -> list_sum l = list_sum l'.
Proof. induction 1; simpl; lia. Qed.

Lemma classify_perm fs fs' :
  Permutation fs fs' -> classify fs = classify fs'.
Proof.
  intros P. unfold classify, firstMatch, sumAdditions, sumDeletions.
  rewrite !(present_perm _ fs fs' P).
  rewrite (Permutation_length P).
  rewrite (list_sum_perm _ _ (Permutation_map additions P)).
  rewrite (list_sum_perm _ _ (Permutation_map deletions P)).
  reflexivity.
Qed.

(** What the scan lists, as a selection of the staged files. *)
Lemma notable_listed fs : flat_map notable fs = map file (filter listed fs).
Proof.
  induction fs as [|f fs IH]; [reflexivity|].
  cbn [flat_map filter]. unfold notable at 1.
  destruct (listed f); cbn [map app]; rewrite IH; reflexivity.
Qed.

(** Of two kinds, one comes before the other in the order of the tests,
    or they are the same. *)
Lemma before_total k k' :
  In k' (before k kinds) \/ k = k' \/ In k (before k' kinds).
Proof. destruct k, k'; cbn; auto 20. Qed.

Lemma countedFor_passes k p : countedFor k p = true -> pathTest k p = true.
Proof.
  unfold countedFor. intros H. apply andb_true_iff in H. tauto.
Qed.

Lemma countedFor_before k k' p :
  countedFor k p = true -> In k' (before k kinds) -> pathTest k' p = false.
Proof.
  unfold countedFor. intros H I. apply andb_true_iff in H.
  destruct H as [_ H]. rewrite forallb_forall in H.
  apply negb_true_iff. exact (H k' I).
Qed.

(** A path is counted for one kind only. *)
Lemma countedFor_unique k k' p :
  countedFor k p = true -> countedFor k' p = true -> k = k'.
Proof.
  intros H H'. destruct (before_total k k') as [B|[E|B]]; [|exact E|].
  - pose proof (countedFor_before _ _ _ H B) as N.
    rewrite (countedFor_passes _ _ H') in N. discriminate.
  - pose proof (countedFor_before _ _ _ H' B) as N.
    rewrite (countedFor_passes _ _ H) in N. discriminate.
Qed.

Lemma before_not_other k k' : In k' (before k kinds) -> k' <> OtherFile.
Proof. destruct k, k'; cbn; intuition discriminate. Qed.

Lemma before_neq k k' : In k' (before k kinds) -> k' <> k.
Proof. destruct k, k'; cbn; intuition discriminate. Qed.

(** When no path passes two tests, a file is counted for every kind whose
    test its path passes. *)
Lemma counted_passes fs k :
  unambiguous fs -> k <> OtherFile -> counted k fs = passes k fs.
Proof.
  intros U K. unfold counted, passes.
  apply eq_true_iff_eq. rewrite !existsb_exists.
  split; intros (f & I & H); exists f; (split; [exact I|]).
  - exact (countedFor_passes _ _ H).
  - unfold countedFor. rewrite H. cbn [andb].
    apply forallb_forall. intros k' B. apply negb_true_iff.
    destruct (pathTest k' (file f)) eqn:T; [|reflexivity].
    exfalso. apply (before_neq _ _ B).
    exact (U f k' k I (before_not_other _ _ B) K T H).
Qed.

Lemma classify_unambiguous fs :
  unambiguous fs -> classify fs = classifyByPaths fs.
Proof.
  intros U. unfold classify, classifyByPaths, firstMatch.
  rewrite !(counted_passes fs) by (exact U || discriminate).
  reflexivity.
Qed.

End ClassifierFacts.

(** ** The summarizer and the orchestrator *)

Module EngineFacts.

Import JSFacts ExtractorFacts ParserFacts Classifier Extractor Engine.

Section Generators.

Variable gSubject : StagedChanges -> Analysis -> DiffAnalysis -> jsstring.
Variable gBody : StagedChanges -> Analysis -> DiffAnalysis -> option jsstring.
Variable gScope : StagedChanges -> Analysis -> option jsstring.

Local Abbreviation fallback := (generateFallbackSuggestions gSubject gBody gScope).
Local Abbreviation generate := (generateCommitMessage gSubject gBody gScope).

(** The heuristic path returns one suggestion, rendered by the template
    without the breaking marker, at confidence 0.85. *)
Lemma fallback_one changes :
  exists s,
    fallback changes = Ok [s] /\
    confidence s = 0.85%Q /\
    breaking s = false /\
    fullMessage s = template (type s) (scope s) false (subject s) (body s).
Proof.
  unfold generateFallbackSuggestions.
  destruct (analyzeDiffsInDepth_ok changes) as (found & _ & -> & _).
  cbn [bind]. eexists. split; [reflexivity|].
  cbn [confidence breaking fullMessage type scope subject body].
  repeat split. unfold template, scopeText.
  destruct (gScope changes (analyzeChangesForFallback changes)) as [x|];
    destruct (gBody changes (analyzeChangesForFallback changes)
                    (summarize found)) as [b|]; reflexivity.
Qed.

Lemma generatedText_truthy t :
  (if truthyOpt t then match t with Some t' => t' | None => [] end else [])
  = generatedText t.
Proof. destruct t as [[|c t]|]; reflexivity. Qed.

(** The orchestrator returns either what the parser found, when that is
    not empty, or what the heuristic path returns. *)
Lemma generate_cases w self changes options :
  exists self',
    (generate w self changes options = (self', fallback changes)) \/
    (exists m t l,
       skipsAI w self = false /\
       modelInUse w self = Some m /\
       m changes options = Resolves t /\
       Parser.parseAIResponse (generatedText t) changes = Ok l /\
       l <> [] /\
       generate w self changes options = (self', Ok l)).
Proof.
  unfold generateCommitMessage. fold (skipsAI w self).
  destruct (skipsAI w self) eqn:S; [eauto|].
  set (self' := if negb (modelLoaded self) then loadModel w self else self).
  exists self'.
  assert (U : modelInUse w self =
              if modelLoaded self' then model self' else None) by reflexivity.
  destruct (modelLoaded self'); [|left; reflexivity].
  destruct (model self') as [m|]; [|left; reflexivity].
  unfold generateAIBasedSuggestions.
  destruct (m changes options) as [t|msg|] eqn:C.
  - rewrite generatedText_truthy.
    rewrite (parseAIResponse_closed (generatedText t) changes).
    cbn [withTimeout bind].
    destruct (firstn 2 (closedSuggestions (generatedText t))) as [|s l] eqn:F.
    + left. reflexivity.
    + right. exists m, t, (s :: l). repeat split; try assumption.
      * rewrite parseAIResponse_closed, F. reflexivity.
      * discriminate.
  - left. reflexivity.
  - left. reflexivity.
Qed.

(** Every failure of the generative path ends in the heuristic path. *)
Lemma failure_falls_back w self changes options :
  skipsAI w self = false ->
  GenerativeFailure w self changes options ->
  snd (generate w self changes options) = fallback changes.
Proof.
  intros S F. unfold generateCommitMessage. fold (skipsAI w self). rewrite S.
  assert (U : modelInUse w self =
              if modelLoaded (if negb (modelLoaded self)
                              then loadModel w self else self)
              then model (if negb (modelLoaded self)
                          then loadModel w self else self)
              else None) by reflexivity.
  destruct F as [msg L P | m msg M C | m M C | m t M C E].
  - rewrite L. simpl negb. cbv iota. unfold loadModel. rewrite L, P.
    reflexivity.
  - rewrite U in M.
    destruct (modelLoaded _); [|discriminate]. rewrite M.
    unfold generateAIBasedSuggestions. rewrite C. reflexivity.
  - rewrite U in M.
    destruct (modelLoaded _); [|discriminate]. rewrite M.
    unfold generateAIBasedSuggestions. rewrite C. reflexivity.
  - rewrite U in M.
    destruct (modelLoaded _); [|discriminate]. rewrite M.
    unfold generateAIBasedSuggestions. rewrite C.
    rewrite generatedText_truthy, E. reflexivity.
Qed.

End Generators.

End EngineFacts.

(** ** The version-control adapter *)

Module GitFacts.

Import Git JSFacts.

(** With an entry in [status.files] for every staged file, the copy with
    the placeholder branch keeps one entry per staged file, in order, and
    a file whose diff failed has a zero-stat entry. *)
Lemma forEachStaged_keeps git status stagedFiles : forall diffs,
  Forall (fun f => findStatus status f <> None) stagedFiles ->
  Forall (placeholderFor git) diffs ->
  exists diffs',
    GitService.forEachStaged git status stagedFiles diffs = Ok diffs' /\
    map file diffs' = map file diffs ++ stagedFiles /\
    Forall (placeholderFor git) diffs'.
Proof.
  induction stagedFiles as [|f rest IH]; intros diffs K P; simpl.
  - exists diffs. rewrite app_nil_r. auto.
  - inversion K as [|? ? Kf Krest]; subst.
    unfold GitService.visit.
    destruct (git_diff git [str "--cached"; str "--"; f]) as [d|msg] eqn:D;
      cbn [bind tryCatch].
    + destruct (IH (diffs ++ [entryOf status f d]) Krest) as (diffs' & -> & M & P').
      { apply Forall_app. split; [exact P|]. constructor; [|constructor].
        intros message E. cbn [entryOf file] in E. rewrite D in E.
        discriminate. }
      exists diffs'. split; [reflexivity|]. split; [|exact P'].
      rewrite M, map_app, <- app_assoc. reflexivity.
    + destruct (findStatus status f) as [s|]; [|congruence].
      cbn [bind tryCatch].
      match goal with
      | |- context [GitService.forEachStaged git status rest ?l] =>
          destruct (IH l Krest) as (diffs' & -> & M & P')
      end.
      { apply Forall_app. split; [exact P|]. constructor; [|constructor].
        intros message E. simpl. auto. }
      exists diffs'. split; [reflexivity|]. split; [|exact P'].
      rewrite M, map_app, <- app_assoc. reflexivity.
Qed.

Lemma getStagedChanges_keeps git status :
  git_status git = Ok status ->
  Forall (fun f => findStatus status f <> None) (staged status) ->
  exists r,
    GitService.getStagedChanges git = Ok r /\
    map file (files r) = staged status /\
    hasChanges r = (0 <? List.length (files r)) /\
    Forall (placeholderFor git) (files r).
Proof.
  intros S K. unfold GitService.getStagedChanges. rewrite S. cbn [bind].
  destruct (staged status) as [|f rest] eqn:E.
  - exists noStagedChanges. simpl. auto.
  - cbn [List.length Nat.eqb].
    destruct (forEachStaged_keeps git status (f :: rest) [] K (Forall_nil _))
      as (diffs' & -> & M & P).
    cbn [bind tryCatch]. exists (report diffs'). split; [reflexivity|].
    cbn [report files hasChanges]. repeat split; try assumption.
    destruct diffs'; [discriminate | reflexivity].
Qed.

End GitFacts.

(** ** The scenarios of the specification *)

Module Scenarios.

Import Examples.

(** Scenario A: a test file gives type [test], category "testing". *)
Example scenario_A :
  Classifier.analyzeChangesForFallback oneTestFile
  = {| Classifier.a_type := str "test";
       Classifier.category := str "testing";
       Classifier.a_mainFiles := [] |}.
Proof. vm_compute. reflexivity. Qed.

(** Scenario D: a new route file with 80 additions gives [feat]/"API", and
    the verb POST among the signals. *)
Example scenario_D :
  Classifier.analyzeChangesForFallback oneRouteFile
  = {| Classifier.a_type := str "feat";
       Classifier.category := str "API";
       Classifier.a_mainFiles := [str "src/api/users/route.ts"] |}
  /\ exists a,
       Extractor.analyzeDiffsInDepth oneRouteFile = Ok a /\
       Extractor.apiChanges a = [str "POST"].
Proof.
  split; [vm_compute; reflexivity|].
  eexists. split; vm_compute; reflexivity.
Qed.

(** Scenario E: an echoed instruction block parses to nothing, and the
    orchestrator answers with the heuristic suggestion. *)
Example scenario_E :
  Parser.parseAIResponse echoedPrompt oneTestFile = Ok []
  /\ snd (Engine.generateCommitMessage sampleSubject sampleBody sampleScope
            quietWorld echoingAssistant oneTestFile noOptions)
     = Engine.generateFallbackSuggestions sampleSubject sampleBody sampleScope
         oneTestFile.
Proof. split; vm_compute; reflexivity. Qed.

End Scenarios.

(* ================================================================== *)
(** * The claims of the specification *)
(* ================================================================== *)

Import JSFacts MatchFacts HeaderFacts HeaderRun ParserFacts ExtractorFacts.
Import ClassifierFacts EngineFacts GitFacts.

(** ** C1 *)

(** C1. For every non-empty ChangeSet, [generateCommitMessage] returns at
    least one suggestion and no exception leaves it; a failure of the
    generative path (the model does not load, the call fails, the call
    outlasts the timer, the parser finds nothing usable) ends in the
    heuristic fallback path. *)
Theorem generateCommitMessage_always_suggests
        gSubject gBody gScope w self changes options :
  files changes <> [] ->
  exists self' l,
    Engine.generateCommitMessage gSubject gBody gScope w self changes options
      = (self', Ok l) /\
    1 <= List.length l /\
    (skipsAI w self = false ->
     GenerativeFailure w self changes options ->
     Ok l = Engine.generateFallbackSuggestions gSubject gBody gScope changes).
Proof.
  intros _.
  destruct (fallback_one gSubject gBody gScope changes) as (s & F & _).
  destruct (generate_cases gSubject gBody gScope w self changes options)
    as (self' & [G | (m & t & l & S & M & C & P & N & G)]).
  - exists self', [s]. rewrite G, F. repeat split; auto.
  - exists self', l. rewrite G. repeat split.
    + destruct l; [congruence | simpl; lia].
    + intros _ Fail.
      pose proof (failure_falls_back gSubject gBody gScope w self changes
                    options S Fail) as R.
      rewrite G in R. simpl in R. exact R.
Qed.

Lemma generateCommitMessage_always_suggests_witness :
  exists self' l,
    Engine.generateCommitMessage
      Examples.sampleSubject Examples.sampleBody Examples.sampleScope
      Examples.quietWorld Examples.loadedAssistant Examples.oneTestFile
      Examples.noOptions = (self', Ok l) /\
    1 <= List.length l /\
    (skipsAI Examples.quietWorld Examples.loadedAssistant = false ->
     GenerativeFailure Examples.quietWorld Examples.loadedAssistant
                       Examples.oneTestFile Examples.noOptions ->
     Ok l = Engine.generateFallbackSuggestions
              Examples.sampleSubject Examples.sampleBody Examples.sampleScope
              Examples.oneTestFile).
Proof.
  apply (generateCommitMessage_always_suggests
           Examples.sampleSubject Examples.sampleBody Examples.sampleScope
           Examples.quietWorld Examples.loadedAssistant Examples.oneTestFile
           Examples.noOptions).
  simpl. discriminate.
Defined.

(** ** C2 *)

(** C2. For every non-empty ChangeSet the heuristic summarizer
    [generateFallbackSuggestions] returns exactly one suggestion, of
    confidence 0.85; when the generative call outlasts the timer, that
    suggestion is what [generateCommitMessage] returns. *)
Theorem generateFallbackSuggestions_one_at_085
        gSubject gBody gScope changes :
  files changes <> [] ->
  exists s,
    Engine.generateFallbackSuggestions gSubject gBody gScope changes = Ok [s] /\
    confidence s = 0.85%Q /\
    (forall w self options m,
       skipsAI w self = false ->
       modelInUse w self = Some m ->
       m changes options = StillPending ->
       snd (Engine.generateCommitMessage gSubject gBody gScope
                                         w self changes options) = Ok [s]).
Proof.
  intros _.
  destruct (fallback_one gSubject gBody gScope changes) as (s & F & C & _).
  exists s. repeat split; try assumption.
  intros w self options m S M T.
  rewrite (failure_falls_back gSubject gBody gScope w self changes options S
             (@CallTimeout w self changes options m M T)).
  exact F.
Qed.

Lemma generateFallbackSuggestions_one_at_085_witness :
  exists s,
    Engine.generateFallbackSuggestions
      Examples.sampleSubject Examples.sampleBody Examples.sampleScope
      Examples.oneTestFile = Ok [s] /\
    confidence s = 0.85%Q /\
    (forall w self options m,
       skipsAI w self = false ->
       modelInUse w self = Some m ->
       m Examples.oneTestFile options = StillPending ->
       snd (Engine.generateCommitMessage
              Examples.sampleSubject Examples.sampleBody Examples.sampleScope
              w self Examples.oneTestFile options) = Ok [s]).
Proof.
  apply (generateFallbackSuggestions_one_at_085
           Examples.sampleSubject Examples.sampleBody Examples.sampleScope
           Examples.oneTestFile).
  simpl. discriminate.
Defined.

(** ** C3 *)

(** C3, as stated, fails: a path can pass several path tests, and the
    classifier counts the file only for the first one in the order of its
    chain.  On a read-me under an API path, API-path files are present and
    the first rule that matches over the file set is the API rule, but the
    classifier answers [docs]; on a page under an API path it answers
    with the component rule, which comes after the API rule; and on the
    configuration file of a build tool with three other files the build
    rule matches, but the classifier goes on to the last rule. *)
Theorem classifier_counts_first_test_only :
  (passes ApiFile (files Examples.apiReadme) = true /\
   classifyByPaths (files Examples.apiReadme) = (str "fix", str "API") /\
   Classifier.a_type (Classifier.analyzeChangesForFallback Examples.apiReadme)
   = str "docs" /\
   Classifier.category (Classifier.analyzeChangesForFallback Examples.apiReadme)
   = str "documentation") /\
  (passes ApiFile (files Examples.apiPage) = true /\
   classifyByPaths (files Examples.apiPage) = (str "fix", str "API") /\
   Classifier.a_type (Classifier.analyzeChangesForFallback Examples.apiPage)
   = str "fix" /\
   Classifier.category (Classifier.analyzeChangesForFallback Examples.apiPage)
   = str "components") /\
  (passes BuildFile (files Examples.viteConfigAndNotes) = true /\
   classifyByPaths (files Examples.viteConfigAndNotes)
   = (str "build", str "build") /\
   Classifier.a_type
     (Classifier.analyzeChangesForFallback Examples.viteConfigAndNotes)
   = str "fix" /\
   Classifier.category
     (Classifier.analyzeChangesForFallback Examples.viteConfigAndNotes)
   = str "fixes").
Proof.
  repeat split; vm_compute; reflexivity.
Qed.

(** C3, amended. The classifier counts each file for one kind only, the
    first of test, documentation, configuration, build tooling, CLI,
    component, API and style whose path test the path passes, and files
    of a kind are present when some file is counted for it.  Over these
    it decides by the first matching rule of the fixed order: test files;
    documentation without component or API files; configuration with at
    most three files; build or CLI; styles without component or API
    files; API files; component files; and last additions against
    deletions.  In particular, when no earlier rule matches and files
    counted as API are present, the type is [feat] if the additions of
    all files exceed 50 and [fix] otherwise; and when no rule but the last
    matches, additions of more than twice the deletions give
    [feat]/features, deletions of more than twice the additions give
    [refactor]/refactoring, and anything else gives [fix]/fixes.  When no
    staged path passes two path tests, this is the first matching rule
    over the paths of the whole file set. *)
Theorem analyzeChangesForFallback_first_match changes :
  let a := Classifier.analyzeChangesForFallback changes in
  let fs := files changes in
  (Classifier.a_type a, Classifier.category a)
  = firstMatch (fun k => counted k fs) fs /\
  (earlierRuleMatches fs = false -> counted ApiFile fs = true ->
   Classifier.a_type a
   = (if 50 <? sumAdditions fs then str "feat" else str "fix") /\
   Classifier.category a = str "API") /\
  (earlierRuleMatches fs = false -> counted ApiFile fs = false ->
   counted ComponentFile fs = false ->
   (2 * sumDeletions fs < sumAdditions fs ->
    Classifier.a_type a = str "feat" /\
    Classifier.category a = str "features") /\
   (~ 2 * sumDeletions fs < sumAdditions fs ->
    2 * sumAdditions fs < sumDeletions fs ->
    Classifier.a_type a = str "refactor" /\
    Classifier.category a = str "refactoring") /\
   (~ 2 * sumDeletions fs < sumAdditions fs ->
    ~ 2 * sumAdditions fs < sumDeletions fs ->
    Classifier.a_type a = str "fix" /\
    Classifier.category a = str "fixes")) /\
  (unambiguous fs ->
   (Classifier.a_type a, Classifier.category a) = classifyByPaths fs).
Proof.
  intros a fs.
  assert (C : (Classifier.a_type a, Classifier.category a) = classify fs)
    by exact (proj1 (analyze_classify changes)).
  split; [exact C|].
  cut ((earlierRuleMatches fs = false -> counted ApiFile fs = true ->
        Classifier.a_type a
        = (if 50 <? sumAdditions fs then str "feat" else str "fix") /\
        Classifier.category a = str "API") /\
       (earlierRuleMatches fs = false -> counted ApiFile fs = false ->
        counted ComponentFile fs = false ->
        (2 * sumDeletions fs < sumAdditions fs ->
         Classifier.a_type a = str "feat" /\
         Classifier.category a = str "features") /\
        (~ 2 * sumDeletions fs < sumAdditions fs ->
         2 * sumAdditions fs < sumDeletions fs ->
         Classifier.a_type a = str "refactor" /\
         Classifier.category a = str "refactoring") /\
        (~ 2 * sumDeletions fs < sumAdditions fs ->
         ~ 2 * sumAdditions fs < sumDeletions fs ->
         Classifier.a_type a = str "fix" /\
         Classifier.category a = str "fixes"))).
  { intros [P Q]. split; [exact P|]. split; [exact Q|].
    intros U. rewrite C. apply classify_unambiguous. exact U. }
  unfold classify, firstMatch in C. unfold earlierRuleMatches, earlierRule.
  destruct (counted TestFile fs), (counted DocFile fs),
    (counted ConfigFile fs), (counted BuildFile fs), (counted CliFile fs),
    (counted StyleFile fs), (counted ComponentFile fs), (counted ApiFile fs),
    (List.length fs <=? 3);
    cbn [orb andb negb] in C |- *;
    (split; [intros E1 E2; try discriminate; injection C as -> ->; auto|]);
    intros E1 E2 E3; try discriminate.
  all: destruct (Nat.ltb_spec (2 * sumDeletions fs) (sumAdditions fs));
    [|destruct (Nat.ltb_spec (2 * sumAdditions fs) (sumDeletions fs))];
    injection C as -> ->; repeat split; intros; try reflexivity; lia.
Qed.

Lemma analyzeChangesForFallback_first_match_witness :
  (Classifier.a_type (Classifier.analyzeChangesForFallback Examples.oneRouteFile)
   = str "feat" /\
   Classifier.category (Classifier.analyzeChangesForFallback Examples.oneRouteFile)
   = str "API") /\
  (Classifier.a_type (Classifier.analyzeChangesForFallback Examples.oneRouteFile),
   Classifier.category (Classifier.analyzeChangesForFallback Examples.oneRouteFile))
  = classifyByPaths (files Examples.oneRouteFile).
Proof.
  split.
  - apply (proj1 (proj2 (analyzeChangesForFallback_first_match
                           Examples.oneRouteFile))).
    + vm_compute. reflexivity.
    + vm_compute. reflexivity.
  - apply (proj2 (proj2 (proj2 (analyzeChangesForFallback_first_match
                                  Examples.oneRouteFile)))).
    intros f k k' I K K'. destruct I as [<-|[]].
    destruct k, k'; try reflexivity; try contradiction;
      vm_compute; discriminate.
Defined.

(** ** C4 *)

(** C4. On every input text [parseAIResponse] returns without throwing,
    returns at most two suggestions, and these are the first (at most two)
    closed suggestions of the text in discovery order. *)
Theorem parseAIResponse_first_two_closed text changes :
  exists l,
    Parser.parseAIResponse text changes = Ok l /\
    List.length l <= 2 /\
    l = firstn 2 (closedSuggestions text).
Proof.
  exists (firstn 2 (closedSuggestions text)).
  split; [apply parseAIResponse_closed|].
  split; [apply firstn_le_length | reflexivity].
Qed.

(** ** C5 *)

(** C5, as stated, fails: six different tags on added lines of a [.tsx]
    file give a UI-tag set of six elements. *)
Lemma sixTags_uiChanges_over_five :
  exists a,
    Extractor.analyzeDiffsInDepth Examples.sixTags = Ok a /\
    List.length (Extractor.uiChanges a) = 6 /\
    ~ List.length (Extractor.uiChanges a) <= 5.
Proof.
  eexists. split; [vm_compute; reflexivity|].
  split; [reflexivity | simpl; lia].
Qed.

(** C5, amended. The extractor returns on every ChangeSet; in its result
    the sets of new-function names, new-component names, new-dependency
    roots and config-key tokens are capped at 5, the set of new-type names
    at 3 and the set of UI-tag tokens at 10, each cap applied after
    duplicates are eliminated; the set of HTTP-verb tokens is not cut, has
    no duplicates, and has at most 5 elements because there are only five
    verb tokens. *)
Theorem analyzeDiffsInDepth_capped_sets changes :
  exists found a,
    Extractor.scanFiles (files changes) Extractor.nothingFound = Ok found /\
    Extractor.analyzeDiffsInDepth changes = Ok a /\
    cappedSet (Extractor.newFunctions a) (Extractor.f_newFunctions found) 5 /\
    cappedSet (Extractor.newClasses a) (Extractor.f_newClasses found) 3 /\
    cappedSet (Extractor.newComponents a) (Extractor.f_newComponents found) 5 /\
    cappedSet (Extractor.newImports a) (Extractor.f_newImports found) 5 /\
    cappedSet (Extractor.configChanges a) (Extractor.f_configChanges found) 5 /\
    cappedSet (Extractor.uiChanges a) (Extractor.f_uiChanges found) 10 /\
    Extractor.apiChanges a = newSet (Extractor.f_apiChanges found) /\
    NoDup (Extractor.apiChanges a) /\
    List.length (Extractor.apiChanges a) <= 5 /\
    incl (Extractor.apiChanges a) verbTokens.
Proof.
  destruct (analyzeDiffsInDepth_ok changes) as (found & S & A & V).
  exists found, (Extractor.summarize found).
  split; [exact S|]. split; [exact A|].
  unfold Extractor.summarize.
  cbn [Extractor.newFunctions Extractor.newClasses Extractor.newComponents
       Extractor.newImports Extractor.configChanges Extractor.uiChanges
       Extractor.apiChanges].
  repeat (split; [apply capped|]).
  split; [reflexivity|].
  split; [apply newSet_NoDup|].
  split; [apply verbs_at_most_five; exact V|].
  intros v Hv. apply newSet_incl in Hv. rewrite Forall_forall in V. auto.
Qed.

(** ** C6 *)

Lemma commitType_shape ty :
  In ty commitTypes ->
  exists c t, ty = c :: t /\ isWhiteSpace c = false /\
              ~ In "010"%char ty /\ toLowerCase ty = ty.
Proof.
  intros H. simpl in H.
  repeat (destruct H as [<-|H];
          [eexists; eexists; split; [reflexivity|];
           split; [reflexivity|]; split; [|reflexivity];
           simpl; intuition discriminate|]).
  contradiction.
Qed.

Lemma isDot_no_lf s : forallb isDot s = true -> ~ In "010"%char s.
Proof.
  intros D I. rewrite forallb_forall in D. specialize (D _ I). discriminate.
Qed.

Lemma wellFormedScope_text sc :
  wellFormedScope sc ->
  (if truthyOpt sc then scopeText sc else []) = scopeText sc /\
  ~ In "010"%char (scopeText sc) /\
  option_map trim sc = sc /\
  (forall x, sc = Some x -> x <> [] /\ forallb Parser.notRParen x = true).
Proof.
  destruct sc as [x|]; simpl.
  - intros (N & T & P & L). repeat split.
    + destruct x; [congruence | reflexivity].
    + intros [E|I]; [discriminate|]. apply in_app_or in I.
      destruct I as [I|[E|[]]]; [auto | discriminate].
    + rewrite T. reflexivity.
    + injection H as <-. exact N.
    + injection H as <-. exact P.
  - intros _. repeat split; auto; discriminate.
Qed.

Lemma template_header ty sc br subj bd :
  wellFormedScope sc ->
  exists tail,
    template ty sc br subj bd =
      (ty ++ scopeText sc ++ (if br then str "!" else []) ++ str ": " ++ subj)
      ++ tail /\
    (tail = [] \/ exists b, tail = "010"%char :: "010"%char :: b).
Proof.
  intros W. unfold template.
  exists (match bd with
          | Some b => if truthy b then str (String "010" (String "010" "")) ++ b else []
          | None => []
          end).
  split.
  - destruct sc as [[|c x]|]; cbn [truthyOpt truthy].
    + destruct W as (N & _). congruence.
    + repeat rewrite <- app_assoc. reflexivity.
    + cbn [scopeText]. repeat rewrite <- app_assoc. reflexivity.
  - destruct bd as [b|]; [destruct (truthy b)|].
    + right. exists b. reflexivity.
    + left. reflexivity.
    + left. reflexivity.
Qed.

(** The header grammar recovers type, scope and subject from the rendering
    of a well-formed suggestion. *)
Lemma reparse_rendered s :
  wellFormed s -> reparse (rendered s) = Some (type s, scope s, subject s).
Proof.
  destruct s as [ty sc subj bd br fm conf]. unfold wellFormed, rendered.
  cbn [type scope subject body breaking].
  intros (Ity & Wsc & Ns & Ts & Ds).
  destruct (wellFormedScope_text sc Wsc) as (_ & Lsc & Tsc & Hsc).
  destruct (commitType_shape ty Ity) as (c & t & Ety & Hc & Lty & Lower).
  destruct (template_header ty sc br subj bd Wsc) as (tail & -> & Tail).
  set (header := ty ++ scopeText sc ++ (if br then str "!" else [])
                    ++ str ": " ++ subj).
  assert (Lh : ~ In "010"%char header).
  { unfold header. intros I.
    repeat (apply in_app_or in I; destruct I as [I|I]); try contradiction.
    - destruct br; simpl in I; intuition discriminate.
    - simpl in I. intuition discriminate.
    - exact (isDot_no_lf subj Ds I). }
  assert (Th : trim header = header).
  { destruct (@exists_last _ subj Ns) as (u & d & Eu).
    assert (Hd : isWhiteSpace d = false).
    { apply (trim_last subj u d). rewrite Ts. exact Eu. }
    assert (E1 : header = c :: (t ++ scopeText sc ++ (if br then str "!" else [])
                                  ++ str ": " ++ subj)).
    { unfold header. rewrite Ety. reflexivity. }
    rewrite E1.
    apply (trim_idem_ends c _ (ty ++ scopeText sc ++ (if br then str "!" else [])
                                  ++ str ": " ++ u) d); try assumption.
    rewrite <- E1. unfold header. rewrite Eu.
    repeat rewrite <- app_assoc. reflexivity. }
  assert (Hh : hd [] (split (header ++ tail) "010"%char) = header).
  { destruct Tail as [-> | (b & ->)].
    - rewrite app_nil_r. exact (proj2 (split_head header [] "010"%char Lh)).
    - exact (proj1 (split_head header ("010"%char :: b) "010"%char Lh)). }
  unfold reparse. rewrite Hh, Th. unfold headerGrammar, header.
  destruct (exec_rendered ty sc br subj Ity Hsc Ns Ts Ds)
    as (m & -> & C1 & C3 & C5).
  rewrite C1, C5, C3, Lower, Tsc, Ts. reflexivity.
Qed.

Lemma close_rendered b : fullMessage (close b) = rendered (close b).
Proof. destruct b as [cur bl]. reflexivity. Qed.

Lemma closed_rendered text s :
  In s (firstn 2 (closedSuggestions text)) -> fullMessage s = rendered s.
Proof.
  intros I. apply (slice0_In (closedSuggestions text) 2) in I.
  unfold closedSuggestions in I. apply in_map_iff in I.
  destruct I as (b & <- & _). apply close_rendered.
Qed.

(** *** What the parser opens is well formed *)

Lemma trim_infix s : exists a b, s = a ++ trim s ++ b.
Proof.
  unfold trim, trimEnd.
  destruct (trimStart_suffix s) as [w Hw].
  destruct (trimStart_suffix (rev (trimStart s))) as [w' Hw'].
  exists w, (rev w').
  rewrite <- rev_app_distr, <- Hw', rev_involutive. exact Hw.
Qed.

Lemma infix_forallb (p : ascii -> bool) a s b :
  forallb p (a ++ s ++ b) = true -> forallb p s = true.
Proof.
  rewrite !forallb_app. intros H.
  apply andb_true_iff in H. destruct H as [_ H].
  apply andb_true_iff in H. tauto.
Qed.

Lemma trim_forallb (p : ascii -> bool) s :
  forallb p s = true -> forallb p (trim s) = true.
Proof.
  destruct (trim_infix s) as (a & b & E). intros H. rewrite E in H.
  exact (infix_forallb p a (trim s) b H).
Qed.

Lemma trim_no_lf s : ~ In "010"%char s -> ~ In "010"%char (trim s).
Proof.
  destruct (trim_infix s) as (a & b & E). intros N I. apply N.
  rewrite E. apply in_or_app. right. apply in_or_app. left. exact I.
Qed.

(** A header opened on a line without line feed is well formed, unless
    its scope is white space only. *)
Lemma roleOf_wellFormed raw cur :
  ~ In "010"%char raw ->
  roleOf raw = Opens cur ->
  In (Parser.c_type cur) commitTypes /\
  (Parser.c_scope cur = Some [] \/ wellFormedScope (Parser.c_scope cur)) /\
  Parser.c_subject cur <> [] /\
  trim (Parser.c_subject cur) = Parser.c_subject cur /\
  forallb isDot (Parser.c_subject cur) = true.
Proof.
  intros L. unfold roleOf.
  destruct (negb (truthy (trim raw))); [discriminate|].
  destruct (RegExp.exec Parser.headerRe (trim raw)) as [m|] eqn:E.
  2: { destruct (Parser.isInstruction (trim raw)); discriminate. }
  destruct (header_match _ _ E)
    as (ty & sc & bang & ws & subj & Hl & Ity & Hsc & _ & Ns & Ds
        & C1 & C3 & _ & C5).
  rewrite C1, C5, C3.
  destruct (Parser.isMetaCommentary (trim raw) (trim subj)); [discriminate|].
  intros H. injection H as <-. cbn [Parser.c_type Parser.c_scope Parser.c_subject].
  destruct (header_truthy raw m ty subj E C1 C5) as [_ Tsubj].
  repeat split.
  - exact Ity.
  - destruct sc as [x|]; [|right; exact I]. simpl.
    destruct (trim x) as [|c t] eqn:Ex; [left; reflexivity|].
    right. destruct (Hsc x eq_refl) as [_ Px]. rewrite <- Ex. repeat split.
    + rewrite Ex. discriminate.
    + apply trim_idem.
    + apply trim_forallb. exact Px.
    + apply trim_no_lf. intros Ix.
      apply (trim_no_lf raw L). rewrite Hl.
      apply in_or_app. right. apply in_or_app. left.
      unfold scopeText. apply in_or_app. right. apply in_or_app. left. exact Ix.
  - destruct (trim subj); [discriminate | discriminate].
  - apply trim_idem.
  - apply trim_forallb. exact Ds.
Qed.

Lemma blocks_opened roles b :
  In b (snd (blocks roles)) -> In (Opens (fst b)) roles.
Proof.
  induction roles as [|r roles IH]; simpl; [tauto|].
  destruct (blocks roles) as [pre bs]. simpl in IH.
  destruct r as [cur|line|]; simpl; intros H.
  - destruct H as [<-|H]; [left; reflexivity | right; auto].
  - right. auto.
  - right. auto.
Qed.

Lemma relevantLines_no_lf text raw :
  In raw (relevantLines text) -> ~ In "010"%char raw.
Proof.
  unfold relevantLines. intros H. apply (slice0_In _ _ raw) in H.
  pose proof (split_no_sep text "010"%char) as F.
  rewrite Forall_forall in F. auto.
Qed.

(** The suggestions the parser returns: well formed, unless the scope is
    the empty string. *)
Lemma closed_wellFormed text s :
  In s (closedSuggestions text) ->
  scope s <> Some [] ->
  wellFormed s.
Proof.
  unfold closedSuggestions. intros H N. apply in_map_iff in H.
  destruct H as ([cur bl] & <- & H). apply blocks_opened in H.
  apply in_map_iff in H. destruct H as (raw & R & Hraw). simpl in R.
  destruct (roleOf_wellFormed raw cur (relevantLines_no_lf text raw Hraw) R)
    as (Ity & Wsc & Ns & Ts & Ds).
  unfold wellFormed. simpl in *. repeat split; try assumption.
  destruct Wsc as [E|W]; [congruence | exact W].
Qed.

(** C6. Every suggestion of the parser, of the heuristic summarizer and of
    the orchestrator has as [fullMessage] the template rendering of its
    type, scope, breaking flag, subject and body; re-parsing the
    [fullMessage] of a well-formed suggestion with the header grammar
    recovers its type, scope and subject; and the suggestions the parser
    returns are well formed, so they re-parse, unless their scope is the
    empty string. *)
Theorem fullMessage_is_template_and_reparses :
  (forall text changes l s,
     Parser.parseAIResponse text changes = Ok l -> In s l ->
     fullMessage s = rendered s) /\
  (forall gSubject gBody gScope changes l s,
     Engine.generateFallbackSuggestions gSubject gBody gScope changes = Ok l ->
     In s l -> fullMessage s = rendered s) /\
  (forall gSubject gBody gScope w self changes options l s,
     snd (Engine.generateCommitMessage gSubject gBody gScope
                                       w self changes options) = Ok l ->
     In s l -> fullMessage s = rendered s) /\
  (forall s,
     wellFormed s -> fullMessage s = rendered s ->
     reparse (fullMessage s) = Some (type s, scope s, subject s)) /\
  (forall text changes l s,
     Parser.parseAIResponse text changes = Ok l -> In s l ->
     scope s <> Some [] ->
     wellFormed s /\
     reparse (fullMessage s) = Some (type s, scope s, subject s)).
Proof.
  assert (P : forall text changes l s,
             Parser.parseAIResponse text changes = Ok l -> In s l ->
             fullMessage s = rendered s).
  { intros text changes l s E I. rewrite parseAIResponse_closed in E.
    injection E as <-. exact (closed_rendered text s I). }
  assert (F : forall gSubject gBody gScope changes l s,
             Engine.generateFallbackSuggestions gSubject gBody gScope changes
               = Ok l ->
             In s l -> fullMessage s = rendered s).
  { intros gSubject gBody gScope changes l s E I.
    destruct (fallback_one gSubject gBody gScope changes)
      as (s0 & E0 & _ & B & M).
    rewrite E0 in E. injection E as <-. destruct I as [<-|[]].
    unfold rendered. rewrite B. exact M. }
  split; [exact P|]. split; [exact F|]. split; [|split].
  - intros gSubject gBody gScope w self changes options l s E I.
    destruct (generate_cases gSubject gBody gScope w self changes options)
      as (self' & [G | (m & t & l' & _ & _ & _ & Pl & _ & G)]);
      rewrite G in E; simpl in E.
    + exact (F _ _ _ _ _ _ E I).
    + injection E as <-. exact (P _ _ _ _ Pl I).
  - intros s W E. rewrite E. apply reparse_rendered. exact W.
  - intros text changes l s E I N.
    pose proof (P text changes l s E I) as R.
    rewrite parseAIResponse_closed in E. injection E as <-.
    apply (slice0_In (closedSuggestions text) 2) in I.
    pose proof (closed_wellFormed text s I N) as W.
    split; [exact W|]. rewrite R. apply reparse_rendered. exact W.
Qed.

Lemma fullMessage_is_template_and_reparses_witness :
  reparse (fullMessage Examples.addUsers)
  = Some (type Examples.addUsers, scope Examples.addUsers,
          subject Examples.addUsers).
Proof.
  apply (proj1 (proj2 (proj2 (proj2 fullMessage_is_template_and_reparses)))).
  - unfold wellFormed, wellFormedScope. simpl.
    repeat split; try reflexivity; try discriminate.
    + left. reflexivity.
    + intuition discriminate.
  - reflexivity.
Defined.

(** ** C7 *)

(** C7, as stated, fails: two API files in the two orders give the same
    type and category but [mainFiles] in the two orders. *)
Lemma changesAB_changesBA_differ :
  Permutation (files Examples.changesAB) (files Examples.changesBA) /\
  Classifier.analyzeChangesForFallback Examples.changesAB
  <> Classifier.analyzeChangesForFallback Examples.changesBA.
Proof.
  split; [apply perm_swap|].
  intros E. apply (f_equal Classifier.a_mainFiles) in E.
  vm_compute in E. discriminate.
Qed.

(** C7, amended. When the files of one ChangeSet are a permutation of the
    files of another, the classifier gives both the same type and the same
    category label, and the notable files of one are a permutation of the
    notable files of the other. *)
Theorem analyzeChangesForFallback_permutation changes changes' :
  Permutation (files changes) (files changes') ->
  Classifier.a_type (Classifier.analyzeChangesForFallback changes)
  = Classifier.a_type (Classifier.analyzeChangesForFallback changes') /\
  Classifier.category (Classifier.analyzeChangesForFallback changes)
  = Classifier.category (Classifier.analyzeChangesForFallback changes') /\
  Permutation
    (Classifier.a_mainFiles (Classifier.analyzeChangesForFallback changes))
    (Classifier.a_mainFiles (Classifier.analyzeChangesForFallback changes')).
Proof.
  intros P.
  destruct (analyze_classify changes) as [C M].
  destruct (analyze_classify changes') as [C' M'].
  rewrite (classify_perm _ _ P), <- C' in C.
  injection C as -> ->. repeat split.
  rewrite M, M'. apply Permutation_flat_map. exact P.
Qed.

Lemma analyzeChangesForFallback_permutation_witness :
  Classifier.a_type (Classifier.analyzeChangesForFallback Examples.changesAB)
  = Classifier.a_type (Classifier.analyzeChangesForFallback Examples.changesBA) /\
  Classifier.category (Classifier.analyzeChangesForFallback Examples.changesAB)
  = Classifier.category (Classifier.analyzeChangesForFallback Examples.changesBA) /\
  Permutation
    (Classifier.a_mainFiles (Classifier.analyzeChangesForFallback Examples.changesAB))
    (Classifier.a_mainFiles (Classifier.analyzeChangesForFallback Examples.changesBA)).
Proof.
  apply (analyzeChangesForFallback_permutation
           Examples.changesAB Examples.changesBA).
  simpl. apply perm_swap.
Defined.

(** ** C8 *)

(** C8 at its failing inputs. With one staged file whose diff fails, the
    copy of [getStagedChanges] whose [catch] only warns returns no file and
    [hasChanges: true]; the copy with the placeholder branch does the same
    when [status.files] has no entry for the file. *)
Theorem getStagedChanges_drops_failed_diff :
  (exists r,
     Git.GitServiceWarnOnly.getStagedChanges Examples.deletionOnly = Ok r /\
     files r = [] /\ hasChanges r = true /\
     hasChanges r <> (0 <? List.length (files r))) /\
  (exists r,
     Git.GitService.getStagedChanges Examples.unknownStaged = Ok r /\
     files r = [] /\ hasChanges r = true /\
     hasChanges r <> (0 <? List.length (files r))).
Proof.
  split; eexists; (split; [vm_compute; reflexivity|]);
    repeat split; discriminate.
Qed.

(** ** C9 *)

(** C9. The suggestions of a cache entry are reused only if the stored
    [changesSummary] equals the summary of the current ChangeSet and the
    entry is less than five minutes old; an entry that fails either
    condition is a miss, and the suggestions are generated afresh. *)
Theorem cache_reused_only_if_valid c now changes fresh :
  (fst (CLI.commitSuggestions (CLI.Holds c) now changes fresh) = CLI.FromCache ->
   CLI.changesSummary c = summary changes /\
   (now - CLI.timestamp c < 5 * 60 * 1000)%Z /\
   snd (CLI.commitSuggestions (CLI.Holds c) now changes fresh)
   = Ok (CLI.suggestions c)) /\
  (CLI.changesSummary c <> summary changes \/
   ~ (now - CLI.timestamp c < 5 * 60 * 1000)%Z ->
   CLI.commitSuggestions (CLI.Holds c) now changes fresh
   = (CLI.Generated, fresh)).
Proof.
  unfold CLI.commitSuggestions, CLI.loadCache.
  destruct (Z.ltb_spec (now - CLI.timestamp c) (5 * 60 * 1000)) as [A|A].
  - destruct (jsstring_eqb (CLI.changesSummary c) (summary changes)) eqn:E.
    + apply jsstring_eqb_eq in E.
      destruct (0 <? Z.of_nat (List.length (CLI.suggestions c)))%Z; simpl.
      * split; [auto|]. intros [N|N]; contradiction.
      * split; [discriminate | reflexivity].
    + simpl. split; [discriminate | reflexivity].
  - simpl. split; [discriminate | reflexivity].
Qed.

Lemma cache_reused_only_if_valid_witness :
  CLI.changesSummary Examples.cachedEntry = summary Examples.oneTestFile /\
  (2000 - CLI.timestamp Examples.cachedEntry < 5 * 60 * 1000)%Z /\
  snd (CLI.commitSuggestions (CLI.Holds Examples.cachedEntry) 2000
                             Examples.oneTestFile (Ok []))
  = Ok (CLI.suggestions Examples.cachedEntry).
Proof.
  apply (proj1 (cache_reused_only_if_valid
                  Examples.cachedEntry 2000 Examples.oneTestFile (Ok []))).
  vm_compute. reflexivity.
Defined.

(** ** C10 *)

(** C10. Whatever the ChangeSet holds, the heuristic fallback path returns
    one suggestion, with [breaking] false and a [fullMessage] rendered
    without the breaking marker: after the type and the optional scope
    comes the colon. *)
Theorem generateFallbackSuggestions_never_breaking
        gSubject gBody gScope changes :
  exists s,
    Engine.generateFallbackSuggestions gSubject gBody gScope changes = Ok [s] /\
    breaking s = false /\
    fullMessage s = template (type s) (scope s) false (subject s) (body s) /\
    exists rest,
      fullMessage s =
        type s ++ (if truthyOpt (scope s) then scopeText (scope s) else [])
               ++ str ":" ++ rest.
Proof.
  destruct (fallback_one gSubject gBody gScope changes) as (s & F & _ & B & M).
  exists s. repeat split; try assumption.
  rewrite M. unfold template. eexists. reflexivity.
Qed.

(* ================================================================== *)
(** * Further properties of the code *)
(* ================================================================== *)

(** ** More on strings *)

Module StringFacts.

Import JSFacts.

Lemma split_app a b sep :
  split (a ++ sep :: b) sep = split a sep ++ split b sep.
Proof.
  induction a as [|c a IH]; simpl.
  - rewrite Ascii.eqb_refl. reflexivity.
  - destruct (Ascii.eqb c sep); [rewrite IH; reflexivity|].
    rewrite IH. pose proof (split_nonempty a sep) as N.
    destruct (split a sep); [congruence | reflexivity].
Qed.

Lemma split_one s sep : ~ In sep s -> split s sep = [s].
Proof.
  induction s as [|c s IH]; simpl; intros N; [reflexivity|].
  destruct (Ascii.eqb_spec c sep) as [->|Nc]; [exfalso; auto|].
  rewrite IH by auto. reflexivity.
Qed.

Lemma startsWith_iff s p : startsWith s p = true <-> exists t, s = p ++ t.
Proof.
  revert s. induction p as [|a p IH]; intros s; simpl.
  - split; eauto.
  - destruct s as [|b s].
    + split; [discriminate | intros [t E]; discriminate].
    + rewrite andb_true_iff, IH. split.
      * intros [E [t ->]]. apply Ascii.eqb_eq in E. subst. eauto.
      * intros [t E]. injection E as -> ->. split; [apply Ascii.eqb_refl | eauto].
Qed.

Lemma endsWith_iff s p : endsWith s p = true <-> exists t, s = t ++ p.
Proof.
  unfold endsWith. rewrite startsWith_iff. split; intros [t E].
  - exists (rev t). apply (f_equal (@rev ascii)) in E.
    rewrite rev_involutive, rev_app_distr, rev_involutive in E. exact E.
  - exists (rev t). rewrite E, rev_app_distr. reflexivity.
Qed.

Lemma includes_iff s p : includes s p = true <-> exists a b, s = a ++ p ++ b.
Proof.
  induction s as [|c s IH]; simpl.
  - rewrite orb_false_r, startsWith_iff. split.
    + intros [t E]. exists [], t. exact E.
    + intros (a & b & E). destruct a; [|discriminate]. eauto.
  - rewrite orb_true_iff, startsWith_iff, IH. split.
    + intros [[t E] | (a & b & ->)].
      * exists [], t. exact E.
      * exists (c :: a), b. reflexivity.
    + intros (a & b & E). destruct a as [|x a].
      * left. eauto.
      * right. injection E as -> ->. eauto.
Qed.

Lemma includes_false_infix s a p b :
  includes (a ++ s ++ b) p = false -> includes s p = false.
Proof.
  intros H. destruct (includes s p) eqn:E; [|reflexivity].
  apply includes_iff in E. destruct E as (x & y & ->).
  assert (T : includes (a ++ (x ++ p ++ y) ++ b) p = true).
  { apply includes_iff. exists (a ++ x), (y ++ b).
    repeat rewrite <- app_assoc. reflexivity. }
  congruence.
Qed.

(** Joining lines and splitting again. *)
Lemma split_join lines sep :
  lines <> [] -> Forall (fun l => ~ In sep l) lines ->
  split (join lines [sep]) sep = lines.
Proof.
  induction lines as [|l rest IH]; intros N F; [congruence|].
  inversion F as [|? ? Hl Hrest]; subst.
  destruct rest as [|l' rest].
  - simpl. apply split_one. exact Hl.
  - change (join (l :: l' :: rest) [sep])
      with (l ++ sep :: join (l' :: rest) [sep]).
    rewrite split_app, (split_one l sep Hl), IH by (auto; discriminate).
    reflexivity.
Qed.

Lemma join_head l rest sep c t :
  l = c :: t -> exists t', join (l :: rest) sep = c :: t'.
Proof.
  intros ->. destruct rest; simpl; eauto.
Qed.

Lemma join_last lines sep : forall u d,
  lines <> [] -> last lines [] = u ++ [d] ->
  exists u', join lines sep = u' ++ [d].
Proof.
  induction lines as [|l rest IH]; intros u d N L; [congruence|].
  destruct rest as [|l' rest].
  - simpl in *. eauto.
  - change (join (l :: l' :: rest) sep) with (l ++ sep ++ join (l' :: rest) sep).
    destruct (IH u d ltac:(discriminate) L) as [u' ->].
    exists (l ++ sep ++ u'). repeat rewrite <- app_assoc. reflexivity.
Qed.

End StringFacts.

(** ** More on the parser *)

Module ParserMore.

Import RegExpFacts JSFacts StringFacts MatchFacts HeaderFacts HeaderRun.
Import ParserFacts Parser.

Local Abbreviation LF := ("010"%char).

(** The lines kept by the first loop: a line with a stop marker ends them. *)
Lemma relevant_cut L1 m L2 :
  hasStopMarker m = true ->
  firstn (stopAtLine (L1 ++ m :: L2)) (L1 ++ m :: L2)
  = firstn (stopAtLine L1) L1.
Proof.
  intros M. induction L1 as [|l L1 IH]; simpl.
  - rewrite M. reflexivity.
  - destruct (hasStopMarker l); [reflexivity|]. simpl. rewrite IH. reflexivity.
Qed.

Lemma relevant_no_marker lines l :
  In l (firstn (stopAtLine lines) lines) -> hasStopMarker l = false.
Proof.
  induction lines as [|x lines IH]; simpl; [tauto|].
  destruct (hasStopMarker x) eqn:E; simpl; [tauto|].
  intros [<-|H]; auto.
Qed.

Lemma relevant_all lines :
  Forall (fun l => hasStopMarker l = false) lines ->
  firstn (stopAtLine lines) lines = lines.
Proof.
  induction 1 as [|l lines Hl _ IH]; simpl; [reflexivity|].
  rewrite Hl. simpl. rewrite IH. reflexivity.
Qed.

Lemma hasStopMarker_trim raw : hasStopMarker (trim raw) = hasStopMarker raw.
Proof. unfold hasStopMarker. rewrite trim_idem. reflexivity. Qed.

Lemma roleOf_trim raw : roleOf (trim raw) = roleOf raw.
Proof. unfold roleOf. rewrite trim_idem. reflexivity. Qed.

Lemma roleOf_Continues raw line :
  roleOf raw = Continues line ->
  line = trim raw /\ line <> [] /\
  RegExp.exec headerRe line = None /\ isInstruction line = false.
Proof.
  unfold roleOf.
  destruct (trim raw) as [|c t] eqn:T; [discriminate|]. cbn [truthy negb].
  destruct (RegExp.exec headerRe (c :: t)) as [m|] eqn:E.
  - destruct (cap 1 m); [|discriminate].
    destruct (cap 5 m); [|discriminate].
    destruct (isMetaCommentary _ _); discriminate.
  - destruct (isInstruction (c :: t)) eqn:In; [discriminate|].
    intros H. injection H as <-. repeat split; auto. discriminate.
Qed.

Lemma roleOf_kept line :
  line <> [] -> trim line = line ->
  RegExp.exec headerRe line = None -> isInstruction line = false ->
  roleOf line = Continues line.
Proof.
  intros N T E In. unfold roleOf. rewrite T, E, In.
  destruct line; [congruence | reflexivity].
Qed.

(** The body lines of a block are lines of the scan, in their role. *)
Lemma blocks_lines roles :
  Forall (fun l => In (Continues l) roles) (fst (blocks roles)) /\
  forall cur bl, In (cur, bl) (snd (blocks roles)) ->
                 Forall (fun l => In (Continues l) roles) bl.
Proof.
  induction roles as [|r roles [IH1 IH2]]; simpl.
  - split; [constructor | tauto].
  - destruct (blocks roles) as [pre bs]. simpl in IH1, IH2.
    assert (W : forall bl, Forall (fun l => In (Continues l) roles) bl ->
                           Forall (fun l => r = Continues l \/
                                            In (Continues l) roles) bl).
    { intros bl F. eapply Forall_impl; [|exact F]. simpl. auto. }
    destruct r as [cur|line|]; simpl.
    + split; [constructor|].
      intros cur' bl [E|H]; [injection E as <- <-; auto | eauto].
    + split; [constructor; auto | eauto].
    + split; eauto.
Qed.

Lemma blocks_empty roles :
  snd (blocks roles) = [] <-> forall cur, ~ In (Opens cur) roles.
Proof.
  induction roles as [|r roles IH]; simpl.
  - split; [tauto | reflexivity].
  - destruct (blocks roles) as [pre bs]. simpl in IH.
    destruct r as [cur|line|]; simpl.
    + split; [discriminate|]. intros H. exfalso. apply (H cur). auto.
    + rewrite IH. split.
      * intros H cur [E|I]; [discriminate | exact (H cur I)].
      * intros H cur I. apply (H cur). auto.
    + rewrite IH. split.
      * intros H cur [E|I]; [discriminate | exact (H cur I)].
      * intros H cur I. apply (H cur). auto.
Qed.

(** Body lines alone open nothing. *)
Lemma blocks_body_only bl :
  blocks (map Continues bl) = (bl, []).
Proof.
  induction bl as [|l bl IH]; simpl; [reflexivity|]. rewrite IH. reflexivity.
Qed.

Lemma trimmed_ends l :
  l <> [] -> trim l = l ->
  exists c t u d, l = c :: t /\ l = u ++ [d] /\
                  isWhiteSpace c = false /\ isWhiteSpace d = false.
Proof.
  intros N T. destruct (trim_ends l) as [E|(c & t & u & d & E & E' & Hc & Hd)].
  - congruence.
  - rewrite T in E. exists c, t, u, d. repeat split; congruence.
Qed.

(** The text of a body: joined lines that are trimmed and not empty are
    left alone by [trim], and split into the same lines. *)
Lemma body_text bl :
  bl <> [] ->
  Forall (fun l => l <> [] /\ trim l = l /\ ~ In LF l) bl ->
  join bl [LF] <> [] /\
  trim (join bl [LF]) = join bl [LF] /\
  split (join bl [LF]) LF = bl.
Proof.
  intros N F.
  assert (S : split (join bl [LF]) LF = bl).
  { apply split_join; [exact N|]. eapply Forall_impl; [|exact F].
    simpl. tauto. }
  destruct bl as [|l rest]; [congruence|].
  inversion F as [|? ? (Nl & Tl & _) Frest]; subst.
  destruct (trimmed_ends l Nl Tl) as (c & t & _ & _ & El & _ & Hc & _).
  destruct (join_head l rest [LF] c t El) as [t' J].
  assert (L : exists u d, last (l :: rest) [] = u ++ [d] /\
                          isWhiteSpace d = false).
  { assert (Il : In (last (l :: rest) []) (l :: rest)).
    { destruct (@exists_last _ (l :: rest) N) as (a & b & E).
      rewrite E, last_last. apply in_or_app. right. left. reflexivity. }
    rewrite Forall_forall in F. destruct (F _ Il) as (Nx & Tx & _).
    destruct (trimmed_ends _ Nx Tx) as (_ & _ & u & d & _ & Eu & _ & Hd).
    eauto. }
  destruct L as (u & d & Lu & Hd).
  destruct (join_last (l :: rest) [LF] u d N Lu) as [u' J'].
  repeat split.
  - rewrite J. discriminate.
  - rewrite J. apply (trim_idem_ends c t' u' d); [congruence | exact Hc | exact Hd].
  - exact S.
Qed.

Lemma join_split s sep : join (split s sep) [sep] = s.
Proof.
  induction s as [|c s IH]; simpl; [reflexivity|].
  pose proof (split_nonempty s sep) as N.
  destruct (Ascii.eqb_spec c sep) as [->|Nc].
  - destruct (split s sep) as [|l ls] eqn:E; [congruence|].
    change (join ([] :: l :: ls) [sep]) with (sep :: join (l :: ls) [sep]).
    rewrite IH. reflexivity.
  - destruct (split s sep) as [|l ls] eqn:E; [congruence|].
    destruct ls as [|l' ls].
    + simpl in *. congruence.
    + change (join ((c :: l) :: l' :: ls) [sep])
        with (c :: join (l :: l' :: ls) [sep]).
      rewrite IH. reflexivity.
Qed.

(** The meta-commentary test, by its two parts. *)
Lemma isMetaCommentary_parts line subj :
  isMetaCommentary line subj =
  placeholderSubject subj || includes (toLowerCase line) (str "description:").
Proof.
  unfold isMetaCommentary, placeholderSubject.
  destruct (includes subj (str "type(scope)"));
    destruct (includes subj (str "brief description"));
    destruct (includes subj (str "what was accomplished"));
    destruct (includes (toLowerCase line) (str "description:"));
    destruct (jsstring_eqb subj (str "improvements"));
    destruct (jsstring_eqb subj (str "updates")); reflexivity.
Qed.

Lemma roleOf_Opens raw cur :
  roleOf raw = Opens cur ->
  placeholderSubject (c_subject cur) = false /\
  includes (toLowerCase (trim raw)) (str "description:") = false.
Proof.
  unfold roleOf.
  destruct (negb (truthy (trim raw))); [discriminate|].
  destruct (RegExp.exec headerRe (trim raw)) as [m|] eqn:E.
  - destruct (cap 1 m) as [ty|]; [|discriminate].
    destruct (cap 5 m) as [subj|]; [|discriminate].
    destruct (isMetaCommentary (trim raw) (trim subj)) eqn:M; [discriminate|].
    intros H. injection H as <-. simpl.
    rewrite isMetaCommentary_parts in M. apply orb_false_iff in M. exact M.
  - destruct (isInstruction (trim raw)); discriminate.
Qed.

(** What the parser makes of every closed suggestion. *)
Lemma closed_shape text s :
  In s (closedSuggestions text) ->
  confidence s = 0.9%Q /\
  In (type s) commitTypes /\
  subject s <> [] /\ trim (subject s) = subject s /\
  forallb isDot (subject s) = true /\
  placeholderSubject (subject s) = false /\
  bodyKept (body s).
Proof.
  unfold closedSuggestions. intros H. apply in_map_iff in H.
  destruct H as ([cur bl] & <- & H).
  pose proof (blocks_opened _ _ H) as O.
  apply in_map_iff in O. destruct O as (raw & R & Hraw). simpl in R.
  pose proof (relevantLines_no_lf text raw Hraw) as Nlf.
  destruct (roleOf_wellFormed raw cur Nlf R) as (Ity & _ & Ns & Ts & Ds).
  destruct (roleOf_Opens raw cur R) as [Pl _].
  simpl. repeat split; try assumption.
  destruct (blocks_lines (map roleOf (relevantLines text))) as [_ B].
  pose proof (B cur bl H) as F.
  assert (K : Forall (fun l => keptAsBody l /\ ~ In LF l) bl).
  { eapply Forall_impl; [|exact F]. simpl. intros l Il.
    apply in_map_iff in Il. destruct Il as (raw' & R' & Hraw').
    destruct (roleOf_Continues raw' l R') as (E & Nl & Ex & In').
    split.
    - repeat split; try assumption.
      + rewrite E. apply trim_idem.
      + rewrite E, hasStopMarker_trim.
        apply (relevant_no_marker (split text LF)). exact Hraw'.
    - rewrite E. apply trim_no_lf.
      exact (relevantLines_no_lf text raw' Hraw'). }
  destruct bl as [|l rest]; [exact I|].
  destruct (body_text (l :: rest) ltac:(discriminate)) as (Nb & Tb & Sb).
  { eapply Forall_impl; [|exact K]. simpl. unfold keptAsBody. tauto. }
  change (str (String LF "")) with [LF].
  rewrite Tb. cbn [bodyKept]. repeat split; try assumption.
  rewrite Sb. eapply Forall_impl; [|exact K]. simpl. tauto.
Qed.

(** The parser stops at the first line with a stop marker. *)
Lemma parse_cut before after changes :
  hasStopMarker (headerLine after) = true ->
  parseAIResponse (before ++ LF :: after) changes
  = parseAIResponse before changes.
Proof.
  unfold headerLine, parseAIResponse, slice0. intros M.
  rewrite split_app.
  pose proof (split_nonempty after LF) as N.
  destruct (split after LF) as [|m rest]; [congruence|].
  simpl in M. rewrite (relevant_cut _ m rest M). reflexivity.
Qed.

(** A text none of whose lines opens a suggestion parses to nothing. *)
Lemma parse_quiet text changes :
  quietText text -> parseAIResponse text changes = Ok [].
Proof.
  intros Q. rewrite parseAIResponse_closed. unfold closedSuggestions.
  rewrite (proj2 (blocks_empty (map roleOf (relevantLines text))));
    [reflexivity|].
  intros cur I. apply in_map_iff in I. destruct I as (raw & R & I).
  unfold relevantLines in I. apply slice0_In in I.
  unfold quietText in Q. rewrite Forall_forall in Q.
  apply (Q raw I). exists cur. exact R.
Qed.

End ParserMore.

(** ** Reading back a rendered message *)

Module RoundTrip.

Import RegExpFacts JSFacts StringFacts MatchFacts HeaderFacts HeaderRun.
Import ParserFacts ParserMore Parser.

Local Abbreviation LF := ("010"%char).

(** The header pattern on a rendered header, with the breaking marker. *)
Lemma exec_rendered_bang ty sc (bang : bool) subj :
  In ty commitTypes ->
  (forall x, sc = Some x -> x <> [] /\ forallb notRParen x = true) ->
  subj <> [] -> trim subj = subj -> forallb isDot subj = true ->
  exists m,
    RegExp.exec headerRe
      (ty ++ scopeText sc ++ (if bang then str "!" else []) ++ str ": " ++ subj)
    = Some m /\
    cap 1 m = Some ty /\ cap 3 m = sc /\
    cap 4 m = (if bang then Some (str "!") else None) /\
    cap 5 m = Some subj.
Proof.
  intros Ity Hsc N T D.
  unfold RegExp.exec, headerRe. cbn [anchored ignoreCase pattern].
  change (seqs [Grp 1 (alts (map lit commitTypes));
                Opt (Grp 2 (seqs [Chr "("; Grp 3 (Plus notRParen); Chr ")"]));
                Opt (Grp 4 (Chr "!")); Chr ":"; Star isWhiteSpace;
                Grp 5 (Plus isDot); Eol])
    with (Seq (Grp 1 (alts (map lit commitTypes)))
              (Seq scopeGroup (Seq bangGroup subjectPart))).
  rewrite run_Seq, (run_type ty _ [] _ Ity), run_Seq.
  destruct sc as [x|].
  - destruct (Hsc x eq_refl) as [Nx Px].
    eexists. split.
    + unfold scopeText. rewrite <- !app_assoc.
      apply (run_scope_some x _ _ _ _ Nx Px).
      apply run_bang_subject; assumption.
    + destruct bang; repeat split; reflexivity.
  - eexists. split.
    + unfold scopeText. cbn [app].
      destruct bang; cbn [str list_ascii_of_string app];
        (rewrite run_scope_none by reflexivity).
      * exact (run_bang_subject true subj _ N T D).
      * exact (run_bang_subject false subj _ N T D).
    + destruct bang; repeat split; reflexivity.
Qed.

(** A rendered header is one trimmed line. *)
Lemma header_one_line ty sc (br : bool) subj :
  In ty commitTypes -> wellFormedScope sc ->
  subj <> [] -> trim subj = subj -> forallb isDot subj = true ->
  let header := ty ++ scopeText sc ++ (if br then str "!" else [])
                   ++ str ": " ++ subj in
  ~ In LF header /\ trim header = header /\ header <> [].
Proof.
  intros Ity Wsc Ns Ts Ds header.
  destruct (wellFormedScope_text sc Wsc) as (_ & Lsc & _ & _).
  destruct (commitType_shape ty Ity) as (c & t & Ety & Hc & Lty & _).
  split; [|split].
  - unfold header. intros I.
    repeat (apply in_app_or in I; destruct I as [I|I]); try contradiction.
    + destruct br; simpl in I; intuition discriminate.
    + simpl in I. intuition discriminate.
    + exact (isDot_no_lf subj Ds I).
  - destruct (@exists_last _ subj Ns) as (u & d & Eu).
    assert (Hd : isWhiteSpace d = false).
    { apply (trim_last subj u d). rewrite Ts. exact Eu. }
    assert (E1 : header = c :: (t ++ scopeText sc ++ (if br then str "!" else [])
                                  ++ str ": " ++ subj)).
    { unfold header. rewrite Ety. reflexivity. }
    rewrite E1.
    apply (trim_idem_ends c _ (ty ++ scopeText sc ++ (if br then str "!" else [])
                                  ++ str ": " ++ u) d); try assumption.
    rewrite <- E1. unfold header. rewrite Eu.
    repeat rewrite <- app_assoc. reflexivity.
  - unfold header. rewrite Ety. discriminate.
Qed.

Lemma template_parts ty sc br subj bd :
  wellFormedScope sc ->
  template ty sc br subj bd =
  (ty ++ scopeText sc ++ (if br then str "!" else []) ++ str ": " ++ subj)
  ++ match bd with
     | Some b => if truthy b then LF :: LF :: b else []
     | None => []
     end.
Proof.
  intros W. unfold template.
  destruct sc as [[|c x]|]; cbn [truthyOpt truthy].
  - destruct W as (N & _). congruence.
  - repeat rewrite <- app_assoc. reflexivity.
  - cbn [scopeText]. repeat rewrite <- app_assoc. reflexivity.
Qed.

(** The role of a rendered header. *)
Lemma roleOf_header ty sc (br : bool) subj :
  In ty commitTypes -> wellFormedScope sc ->
  subj <> [] -> trim subj = subj -> forallb isDot subj = true ->
  let header := ty ++ scopeText sc ++ (if br then str "!" else [])
                   ++ str ": " ++ subj in
  isMetaCommentary header subj = false ->
  roleOf header =
  Opens {| c_type := ty; c_scope := sc; c_subject := subj;
           c_breaking := br || includes header (str "BREAKING CHANGE") |}.
Proof.
  intros Ity Wsc Ns Ts Ds header M.
  destruct (header_one_line ty sc br subj Ity Wsc Ns Ts Ds) as (_ & Th & Nh).
  destruct (wellFormedScope_text sc Wsc) as (_ & _ & Tsc & Hsc).
  destruct (commitType_shape ty Ity) as (_ & _ & _ & _ & _ & Lower).
  destruct (exec_rendered_bang ty sc br subj Ity Hsc Ns Ts Ds)
    as (m & E & C1 & C3 & C4 & C5).
  fold header in Th, Nh, E.
  unfold roleOf. rewrite Th.
  destruct header as [|h0 ht] eqn:Eh; [congruence|]. cbn [truthy negb].
  rewrite E, C1, C5, C3, C4, Ts, M, Lower, Tsc.
  destruct br; reflexivity.
Qed.

Lemma roles_kept bl :
  Forall keptAsBody bl -> map roleOf bl = map Continues bl.
Proof.
  induction 1 as [|l bl (N & T & E & In' & _) _ IH]; simpl; [reflexivity|].
  rewrite IH, (roleOf_kept l N T E In'). reflexivity.
Qed.

(** Parsing the rendering of a header and of body lines. *)
Lemma parse_rendered ty sc (br : bool) subj bd changes :
  In ty commitTypes -> wellFormedScope sc ->
  subj <> [] -> trim subj = subj -> forallb isDot subj = true ->
  bodyKept bd ->
  let header := ty ++ scopeText sc ++ (if br then str "!" else [])
                   ++ str ": " ++ subj in
  hasStopMarker header = false ->
  isMetaCommentary header subj = false ->
  (br = false -> includes header (str "BREAKING CHANGE") = false) ->
  headerLine (template ty sc br subj bd) = header /\
  parseAIResponse (template ty sc br subj bd) changes =
  Ok [ {| type := ty; scope := sc; subject := subj; body := bd;
          breaking := br; fullMessage := template ty sc br subj bd;
          confidence := 0.9%Q |} ].
Proof.
  intros Ity Wsc Ns Ts Ds Kb header Mk Mc Bc.
  destruct (header_one_line ty sc br subj Ity Wsc Ns Ts Ds) as (Lh & _ & _).
  pose proof (roleOf_header ty sc br subj Ity Wsc Ns Ts Ds Mc) as R.
  fold header in Lh, R.
  assert (Br : br || includes header (str "BREAKING CHANGE") = br).
  { destruct br; [reflexivity|]. simpl. auto. }
  rewrite Br in R.
  rewrite parseAIResponse_closed.
  unfold closedSuggestions, relevantLines, headerLine.
  rewrite (template_parts ty sc br subj bd Wsc). fold header.
  destruct bd as [b|].
  - destruct Kb as (Nb & Tb & Fb).
    assert (Tr : truthy b = true) by (destruct b; [congruence | reflexivity]).
    rewrite Tr.
    rewrite split_app, (split_one header LF Lh).
    cbn [split]. rewrite Ascii.eqb_refl.
    cbn [app hd]. split; [reflexivity|].
    rewrite relevant_all.
    2:{ constructor; [exact Mk|]. constructor; [reflexivity|].
        eapply Forall_impl; [|exact Fb]. unfold keptAsBody. simpl. tauto. }
    cbn [map]. rewrite R, (roles_kept _ Fb).
    replace (roleOf []) with Dropped by reflexivity.
    cbn [blocks]. rewrite blocks_body_only. cbn [snd map firstn close].
    pose proof (split_nonempty b LF) as Nl.
    destruct (split b LF) as [|l ls] eqn:Es; [congruence|].
    change (str (String LF "")) with [LF].
    rewrite <- Es, join_split, Tb.
    cbn [c_type c_scope c_subject c_breaking].
    rewrite (template_parts ty sc br subj (Some b) Wsc), Tr. reflexivity.
  - rewrite app_nil_r, (split_one header LF Lh). cbn [hd].
    split; [reflexivity|].
    rewrite relevant_all by (constructor; [exact Mk | constructor]).
    cbn [map]. rewrite R. cbn [blocks snd map firstn close].
    cbn [c_type c_scope c_subject c_breaking].
    rewrite (template_parts ty sc br subj None Wsc), app_nil_r. reflexivity.
Qed.

End RoundTrip.

(** ** More on the extractor *)

Module ExtractorMore.

Import RegExpFacts JSFacts StringFacts MatchFacts HeaderFacts.
Import ExtractorFacts Extractor.

Lemma lit_match w : forall s' cs, matches false (lit w) (w ++ s') cs s' cs.
Proof.
  induction w as [|c w IH]; intros s' cs.
  - simpl. auto.
  - rewrite lit_cons. destruct w as [|d w].
    + simpl. exists c. rewrite Ascii.eqb_refl. auto.
    + cbn [matches]. exists ((d :: w) ++ s'), cs. split.
      * exists c. cbn [sameChar]. rewrite Ascii.eqb_refl. auto.
      * apply IH.
Qed.

Lemma test_true_iff_eq (a b : bool) : (a = true <-> b = true) -> a = b.
Proof. destruct a, b; intuition congruence. Qed.

(** [/\.(tsx|jsx)$/] tests the end of the path. *)
Lemma jsxFileRe_test p : RegExp.test jsxFileRe p = isJsxPath p.
Proof.
  apply test_true_iff_eq. rewrite test_matches. unfold isJsxPath.
  rewrite orb_true_iff, !endsWith_iff. split.
  - intros (pre & s0 & s' & m & -> & _ & M).
    unfold jsxFileRe in M. cbn [pattern ignoreCase seqs matches] in M.
    destruct M as (s1 & cs1 & (a & -> & Ea & ->) & s2 & cs2
                   & (cs3 & Mx & ->) & -> & _ & _).
    cbn [sameChar] in Ea. apply Ascii.eqb_eq in Ea. subst a.
    destruct Mx as [Mx|Mx]; apply lit_exact in Mx; destruct Mx as [-> _].
    + left. exists pre. reflexivity.
    + right. exists pre. reflexivity.
  - intros [[t ->]|[t ->]].
    + exists t, (str ".tsx"), [], [(1, str "tsx")]. split; [reflexivity|].
      split; [discriminate|].
      unfold jsxFileRe. cbn [pattern ignoreCase seqs matches].
      exists (str "tsx"), []. split; [exists "."%char; auto|].
      exists [], [(1, str "tsx")]. split; [|auto].
      exists []. split; [left; exact (lit_match (str "tsx") [] [])|].
      reflexivity.
    + exists t, (str ".jsx"), [], [(1, str "jsx")]. split; [reflexivity|].
      split; [discriminate|].
      unfold jsxFileRe. cbn [pattern ignoreCase seqs matches].
      exists (str "jsx"), []. split; [exists "."%char; auto|].
      exists [], [(1, str "jsx")]. split; [|auto].
      exists []. split; [right; exact (lit_match (str "jsx") [] [])|].
      reflexivity.
Qed.

(** [/route\.|api\//] tests for either word anywhere in the path. *)
Lemma apiFileRe_test p : RegExp.test apiFileRe p = isApiPath p.
Proof.
  apply test_true_iff_eq. rewrite test_matches. unfold isApiPath.
  rewrite orb_true_iff, !includes_iff. split.
  - intros (pre & s0 & s' & m & -> & _ & M).
    unfold apiFileRe in M. cbn [pattern ignoreCase matches] in M.
    destruct M as [M|M]; apply lit_exact in M; destruct M as [-> _].
    + left. exists pre, s'. reflexivity.
    + right. exists pre, s'. reflexivity.
  - intros [(a & b & ->)|(a & b & ->)].
    + exists a, (str "route." ++ b), b, []. split; [reflexivity|].
      split; [discriminate|]. left. apply lit_match.
    + exists a, (str "api/" ++ b), b, []. split; [reflexivity|].
      split; [discriminate|]. right. apply lit_match.
Qed.

(** [/config|\.json$|\.yaml$|\.env/] *)
Lemma configFileRe_test p : RegExp.test configFileRe p = isConfigPath p.
Proof.
  apply test_true_iff_eq. rewrite test_matches. unfold isConfigPath.
  rewrite !orb_true_iff, !includes_iff, !endsWith_iff. split.
  - intros (pre & s0 & s' & m & -> & _ & M).
    unfold configFileRe in M. cbn [pattern ignoreCase alts matches] in M.
    destruct M as [M|[M|[M|M]]].
    + apply lit_exact in M. destruct M as [-> _].
      left. left. left. exists pre, s'. reflexivity.
    + destruct M as (s1 & cs1 & M & -> & _ & _).
      apply lit_exact in M. destruct M as [-> _].
      left. left. right. exists pre. reflexivity.
    + destruct M as (s1 & cs1 & M & -> & _ & _).
      apply lit_exact in M. destruct M as [-> _].
      left. right. exists pre. reflexivity.
    + apply lit_exact in M. destruct M as [-> _].
      right. exists pre, s'. reflexivity.
  - unfold configFileRe. cbn [pattern ignoreCase anchored alts].
    intros [[[(a & b & ->)|[t ->]]|[t ->]]|(a & b & ->)].
    + exists a, (str "config" ++ b), b, []. split; [reflexivity|].
      split; [discriminate|]. left. apply lit_match.
    + exists t, (str ".json"), [], []. split; [reflexivity|].
      split; [discriminate|]. right. left.
      exists [], []. split; [exact (lit_match (str ".json") [] [])|].
      cbn [matches]. auto.
    + exists t, (str ".yaml"), [], []. split; [reflexivity|].
      split; [discriminate|]. right. right. left.
      exists [], []. split; [exact (lit_match (str ".yaml") [] [])|].
      cbn [matches]. auto.
    + exists a, (str ".env" ++ b), b, []. split; [reflexivity|].
      split; [discriminate|]. right. right. right. apply lit_match.
Qed.

(** *** What the name patterns capture *)

Lemma functionNameRe_name content m v :
  RegExp.exec functionNameRe content = Some m -> cap 1 m = Some v ->
  isIdentifier v.
Proof.
  intros H C. apply exec_sound in H.
  destruct H as (pre & s0 & s' & _ & _ & M).
  unfold functionNameRe in M. cbn [pattern ignoreCase seqs matches] in M.
  destruct M as (s1 & cs1 & _ & s2 & cs2 & _ & cs3
                 & (w & -> & Nw & Hw & ->) & ->).
  cbn [cap Nat.eqb] in C. rewrite consumed_app in C. injection C as <-.
  split; assumption.
Qed.

Lemma constNameRe_name content m v :
  RegExp.exec constNameRe content = Some m -> cap 1 m = Some v ->
  isIdentifier v.
Proof.
  intros H C. apply exec_sound in H.
  destruct H as (pre & s0 & s' & _ & _ & M).
  unfold constNameRe in M. cbn [pattern ignoreCase seqs matches] in M.
  destruct M as (s1 & cs1 & _ & s2 & cs2 & _ & cs3
                 & (w & -> & Nw & Hw & ->) & ->).
  cbn [cap Nat.eqb] in C. rewrite consumed_app in C. injection C as <-.
  split; assumption.
Qed.

Lemma classNameRe_name content m v :
  RegExp.exec classNameRe content = Some m -> cap 1 m = Some v ->
  isIdentifier v.
Proof.
  intros H C. apply exec_sound in H.
  destruct H as (pre & s0 & s' & _ & _ & M).
  unfold classNameRe in M. cbn [pattern ignoreCase seqs matches] in M.
  destruct M as (s1 & cs1 & _ & s2 & cs2 & _ & cs3
                 & (w & -> & Nw & Hw & ->) & ->).
  cbn [cap Nat.eqb] in C. rewrite consumed_app in C. injection C as <-.
  split; assumption.
Qed.

Lemma configKeyRe_name content m v :
  RegExp.exec configKeyRe content = Some m -> cap 1 m = Some v ->
  isIdentifier v.
Proof.
  intros H C. apply exec_sound in H.
  destruct H as (pre & s0 & s' & _ & _ & M).
  unfold configKeyRe in M. cbn [pattern ignoreCase seqs matches] in M.
  destruct M as (s1 & cs1 & (q & -> & _ & ->) & s2 & cs2
                 & (cs3 & (w & -> & Nw & Hw & ->) & ->)
                 & s3 & cs4 & (q' & -> & _ & ->)
                 & s4 & cs5 & (ws & -> & _ & ->) & (c & -> & _ & ->)).
  cbn [cap Nat.eqb] in C. rewrite consumed_app in C. injection C as <-.
  split; assumption.
Qed.

Lemma capital_group s cs s' cs' :
  matches false (Grp 1 (Seq (Cls isUpperAZ) (Plus isWord))) s cs s' cs' ->
  exists v, cap 1 cs' = Some v /\ isCapitalised v.
Proof.
  cbn [matches].
  intros (cs1 & (s1 & cs2 & (a & -> & Ha & ->) & (w & -> & Nw & Hw & ->)) & ->).
  exists (a :: w). cbn [cap Nat.eqb].
  rewrite (consumed_eq _ s' (a :: w)) by reflexivity.
  split; [reflexivity|]. exists a, w. auto.
Qed.

Lemma componentNameRe_name content m v :
  RegExp.exec componentNameRe content = Some m -> cap 1 m = Some v ->
  isCapitalised v.
Proof.
  intros H C. apply exec_sound in H.
  destruct H as (pre & s0 & s' & _ & _ & M).
  unfold componentNameRe in M. cbn [pattern ignoreCase seqs] in M.
  destruct M as (s1 & cs1 & _ & s2 & cs2 & _ & M).
  destruct (capital_group _ _ _ _ M) as (v' & C' & K). congruence.
Qed.

Lemma jsxTagRe_name content m v :
  RegExp.exec jsxTagRe content = Some m -> cap 1 m = Some v ->
  isCapitalised v.
Proof.
  intros H C. apply exec_sound in H.
  destruct H as (pre & s0 & s' & _ & _ & M).
  unfold jsxTagRe in M. cbn [pattern ignoreCase seqs] in M.
  destruct M as (s1 & cs1 & _ & M).
  destruct (capital_group _ _ _ _ M) as (v' & C' & K). congruence.
Qed.

(** *** The pushes *)

Lemma pushName_Forall (P : jsstring -> Prop) guard name content a a' :
  (forall m v, RegExp.exec name content = Some m -> cap 1 m = Some v -> P v) ->
  Forall P a ->
  pushName guard name content a = Ok a' -> Forall P a'.
Proof.
  intros Hn F. unfold pushName. destruct guard.
  - destruct (RegExp.exec name content) as [m|] eqn:E.
    + destruct (cap 1 m) as [v|] eqn:C; simpl; [|discriminate].
      intros H. injection H as <-. apply Forall_app. split; [exact F|].
      constructor; [eauto | constructor].
    + intros H. injection H as <-. exact F.
  - intros H. injection H as <-. exact F.
Qed.

Lemma pushImport_Forall content a a' :
  Forall isPackageRoot a ->
  pushImport content a = Ok a' -> Forall isPackageRoot a'.
Proof.
  intros F. unfold pushImport.
  destruct (RegExp.test importRe content).
  2:{ intros H. injection H as <-. exact F. }
  destruct (RegExp.exec importFromRe content) as [m|].
  2:{ intros H. injection H as <-. exact F. }
  destruct (cap 1 m) as [from|]; cbn [defined bind]; [|discriminate].
  destruct (startsWith (hd [] (split from "/")) (str ".")) eqn:S; cbn [negb].
  - intros H. injection H as <-. exact F.
  - intros H. injection H as <-. apply Forall_app. split; [exact F|].
    constructor; [|constructor]. split; [|exact S].
    pose proof (split_no_sep from "/"%char) as N.
    pose proof (split_nonempty from "/"%char) as Ne.
    destruct (split from "/") as [|h t]; [congruence|].
    inversion N; subst. assumption.
Qed.

(** One line of the scan, by cases. *)
Lemma scanLine_cases f acc line acc' :
  scanLine f acc line = Ok acc' ->
  (startsWith line (str "+") = false /\ acc' = acc) \/
  (startsWith line (str "+") = true /\
   exists a1 a2 a3 a4 a5 a6 a7 a8,
     pushName (RegExp.test functionDeclRe (trim (skipn 1 line)))
              functionNameRe (trim (skipn 1 line)) (f_newFunctions acc) = Ok a1 /\
     pushName (RegExp.test arrowDeclRe (trim (skipn 1 line)))
              constNameRe (trim (skipn 1 line)) a1 = Ok a2 /\
     pushName (RegExp.test classDeclRe (trim (skipn 1 line)))
              classNameRe (trim (skipn 1 line)) (f_newClasses acc) = Ok a3 /\
     pushName (RegExp.test jsxFileRe (file f) &&
               RegExp.test componentDeclRe (trim (skipn 1 line)))
              componentNameRe (trim (skipn 1 line)) (f_newComponents acc) = Ok a4 /\
     pushImport (trim (skipn 1 line)) (f_newImports acc) = Ok a5 /\
     pushName (RegExp.test configFileRe (file f)) configKeyRe
              (trim (skipn 1 line)) (f_configChanges acc) = Ok a6 /\
     pushName (RegExp.test jsxFileRe (file f) &&
               RegExp.test jsxTagRe (trim (skipn 1 line)))
              jsxTagRe (trim (skipn 1 line)) (f_uiChanges acc) = Ok a7 /\
     pushVerb (file f) (trim (skipn 1 line)) (f_apiChanges acc) = Ok a8 /\
     acc' = mkFound a2 a3 a4 a5 (f_modifiedFunctions acc) a6 a7 a8).
Proof.
  unfold scanLine.
  destruct (startsWith line (str "+")); cbn [negb].
  - intros H. right. split; [reflexivity|].
    set (content := trim (skipn 1 line)) in *.
    destruct (pushName (RegExp.test functionDeclRe content) functionNameRe
                       content (f_newFunctions acc)) as [a1|] eqn:E1;
      cbn [bind] in H; [|discriminate].
    destruct (pushName (RegExp.test arrowDeclRe content) constNameRe
                       content a1) as [a2|] eqn:E2;
      cbn [bind] in H; [|discriminate].
    destruct (pushName (RegExp.test classDeclRe content) classNameRe
                       content (f_newClasses acc)) as [a3|] eqn:E3;
      cbn [bind] in H; [|discriminate].
    destruct (pushName (RegExp.test jsxFileRe (file f) &&
                        RegExp.test componentDeclRe content)
                       componentNameRe content (f_newComponents acc))
      as [a4|] eqn:E4; cbn [bind] in H; [|discriminate].
    destruct (pushImport content (f_newImports acc)) as [a5|] eqn:E5;
      cbn [bind] in H; [|discriminate].
    destruct (pushName (RegExp.test configFileRe (file f)) configKeyRe
                       content (f_configChanges acc)) as [a6|] eqn:E6;
      cbn [bind] in H; [|discriminate].
    destruct (pushName (RegExp.test jsxFileRe (file f) &&
                        RegExp.test jsxTagRe content)
                       jsxTagRe content (f_uiChanges acc)) as [a7|] eqn:E7;
      cbn [bind] in H; [|discriminate].
    destruct (pushVerb (file f) content (f_apiChanges acc)) as [a8|] eqn:E8;
      cbn [bind] in H; [|discriminate].
    injection H as <-.
    exists a1, a2, a3, a4, a5, a6, a7, a8. repeat split; assumption.
  - intros H. injection H as <-. left. auto.
Qed.

(** An invariant of every line of the scan is an invariant of the scan. *)
Lemma scanLines_inv (Inv : Found -> Prop) f lines :
  (forall line acc acc',
     In line lines -> Inv acc -> scanLine f acc line = Ok acc' -> Inv acc') ->
  forall acc found,
    Inv acc -> scanLines f lines acc = Ok found -> Inv found.
Proof.
  induction lines as [|l ls IH]; intros Step acc found I0 H; simpl in H.
  - injection H as <-. exact I0.
  - destruct (scanLine f acc l) as [acc1|] eqn:E; cbn [bind] in H; [|discriminate].
    apply (IH (fun line a a' I => Step line a a' (or_intror I)) acc1 found);
      [|exact H].
    exact (Step l acc acc1 (or_introl eq_refl) I0 E).
Qed.

Lemma scanFiles_inv (Inv : Found -> Prop) fs :
  (forall f line acc acc',
     In f fs -> In line (split (diff f) "010"%char) ->
     Inv acc -> scanLine f acc line = Ok acc' -> Inv acc') ->
  forall acc found,
    Inv acc -> scanFiles fs acc = Ok found -> Inv found.
Proof.
  induction fs as [|f fs IH]; intros Step acc found I0 H; simpl in H.
  - injection H as <-. exact I0.
  - destruct (scanLines f (split (diff f) "010"%char) acc) as [acc1|] eqn:E;
      cbn [bind] in H; [|discriminate].
    apply (IH (fun f' line a a' I => Step f' line a a' (or_intror I)) acc1 found);
      [|exact H].
    apply (scanLines_inv Inv f (split (diff f) "010"%char)
             (fun line a a' I => Step f line a a' (or_introl eq_refl) I) acc acc1 I0 E).
Qed.

Lemma scanLine_names f acc line acc' :
  namesOk acc -> scanLine f acc line = Ok acc' -> namesOk acc'.
Proof.
  intros (F1 & F2 & F3 & F4 & F5 & F6 & F7) H.
  apply scanLine_cases in H.
  destruct H as [[_ ->] | (_ & a1 & a2 & a3 & a4 & a5 & a6 & a7 & a8
                           & E1 & E2 & E3 & E4 & E5 & E6 & E7 & _ & ->)].
  - repeat split; assumption.
  - unfold namesOk. cbn. repeat split.
    + eapply pushName_Forall; [| |exact E2].
      * apply constNameRe_name.
      * eapply pushName_Forall; [| |exact E1]; [apply functionNameRe_name | exact F1].
    + eapply pushName_Forall; [| |exact E3]; [apply classNameRe_name | exact F2].
    + eapply pushName_Forall; [| |exact E4]; [apply componentNameRe_name | exact F3].
    + eapply pushImport_Forall; [|exact E5]. exact F4.
    + exact F5.
    + eapply pushName_Forall; [| |exact E6]; [apply configKeyRe_name | exact F6].
    + eapply pushName_Forall; [| |exact E7]; [apply jsxTagRe_name | exact F7].
Qed.

Lemma slice0_Forall {A} (P : A -> Prop) a n :
  Forall P a -> Forall P (slice0 a n).
Proof.
  intros F. apply Forall_forall. intros x I.
  rewrite Forall_forall in F. apply F. exact (slice0_In a n x I).
Qed.

Lemma newSet_Forall (P : jsstring -> Prop) a :
  Forall P a -> Forall P (newSet a).
Proof.
  intros F. apply Forall_forall. intros x I.
  rewrite Forall_forall in F. apply F. exact (newSet_incl a x I).
Qed.

Lemma newSet_nil_iff a : newSet a = [] <-> a = [].
Proof.
  split; [|intros ->; reflexivity].
  destruct a as [|x a]; [reflexivity|]. discriminate.
Qed.

Lemma capped_nil_iff a n : 0 < n -> (slice0 (newSet a) n = [] <-> a = []).
Proof.
  intros Hn. rewrite <- (newSet_nil_iff a). unfold slice0.
  destruct n; [lia|]. destruct (newSet a); simpl; split; intros; congruence.
Qed.

End ExtractorMore.

(** ** What the extractor reads *)

Module ExtractorReads.

Import JSFacts StringFacts ExtractorFacts ExtractorMore Extractor.

Lemma scanLine_skip f acc line :
  startsWith line (str "+") = false -> scanLine f acc line = Ok acc.
Proof. intros H. unfold scanLine. rewrite H. reflexivity. Qed.

Lemma scanLine_file f f' acc line :
  file f = file f' -> scanLine f acc line = scanLine f' acc line.
Proof. intros E. unfold scanLine. rewrite E. reflexivity. Qed.

Lemma scanLines_file f f' lines :
  file f = file f' ->
  forall acc, scanLines f lines acc = scanLines f' lines acc.
Proof.
  intros E. induction lines as [|l ls IH]; intros acc; simpl; [reflexivity|].
  rewrite (scanLine_file f f' acc l E).
  destruct (scanLine f' acc l); simpl; auto.
Qed.

Lemma scanLines_added f lines : forall acc,
  scanLines f lines acc
  = scanLines f (filter (fun line => startsWith line (str "+")) lines) acc.
Proof.
  induction lines as [|l ls IH]; intros acc; [reflexivity|].
  cbn [filter]. destruct (startsWith l (str "+")) eqn:E.
  - cbn [scanLines]. destruct (scanLine f acc l); simpl; auto.
  - cbn [scanLines]. rewrite (scanLine_skip f acc l E). simpl. apply IH.
Qed.

Lemma scanFiles_reads fs : forall fs' acc,
  map readByExtractor fs = map readByExtractor fs' ->
  scanFiles fs acc = scanFiles fs' acc.
Proof.
  induction fs as [|f fs IH]; intros [|f' fs'] acc E; try discriminate.
  - reflexivity.
  - cbn [map] in E. injection E as Ef Ea Er.
    cbn [scanFiles].
    rewrite (scanLines_added f), (scanLines_added f').
    unfold addedLines in Ea. rewrite Ea.
    rewrite (scanLines_file f f' _ Ef).
    destruct (scanLines f' _ acc); simpl; auto.
Qed.

End ExtractorReads.

(** ** Gating by path, and the purpose line *)

Module ExtractorGates.

Import JSFacts StringFacts ExtractorFacts ExtractorMore Extractor.

Lemma pushName_off guard name content a a' :
  guard = false -> pushName guard name content a = Ok a' -> a' = a.
Proof. intros ->. simpl. congruence. Qed.

Lemma pushVerb_off path content a a' :
  isApiPath path = false -> pushVerb path content a = Ok a' -> a' = a.
Proof.
  intros H. unfold pushVerb. rewrite apiFileRe_test, H. congruence.
Qed.

Lemma jsx_gate fs found :
  Forall (fun f => isJsxPath (file f) = false) fs ->
  scanFiles fs nothingFound = Ok found ->
  f_newComponents found = [] /\ f_uiChanges found = [].
Proof.
  intros F H.
  apply (scanFiles_inv
           (fun acc => f_newComponents acc = [] /\ f_uiChanges acc = [])
           fs) with (acc := nothingFound); [|split; reflexivity|exact H].
  intros f line acc acc' If _ [I1 I2] S.
  rewrite Forall_forall in F. pose proof (F f If) as Hf.
  apply scanLine_cases in S.
  destruct S as [[_ ->] | (_ & a1 & a2 & a3 & a4 & a5 & a6 & a7 & a8
                           & _ & _ & _ & E4 & _ & _ & E7 & _ & ->)];
    [auto|].
  rewrite jsxFileRe_test, Hf in E4, E7.
  apply pushName_off in E4; [|reflexivity].
  apply pushName_off in E7; [|reflexivity]. cbn. split; congruence.
Qed.

Lemma api_gate fs found :
  Forall (fun f => isApiPath (file f) = false) fs ->
  scanFiles fs nothingFound = Ok found ->
  f_apiChanges found = [].
Proof.
  intros F H.
  apply (scanFiles_inv (fun acc => f_apiChanges acc = []) fs)
    with (acc := nothingFound); [|reflexivity|exact H].
  intros f line acc acc' If _ I1 S.
  rewrite Forall_forall in F. pose proof (F f If) as Hf.
  apply scanLine_cases in S.
  destruct S as [[_ ->] | (_ & a1 & a2 & a3 & a4 & a5 & a6 & a7 & a8
                           & _ & _ & _ & _ & _ & _ & _ & E8 & ->)];
    [auto|].
  apply (pushVerb_off _ _ _ _ Hf) in E8. cbn. congruence.
Qed.

Lemma config_gate fs found :
  Forall (fun f => isConfigPath (file f) = false) fs ->
  scanFiles fs nothingFound = Ok found ->
  f_configChanges found = [].
Proof.
  intros F H.
  apply (scanFiles_inv (fun acc => f_configChanges acc = []) fs)
    with (acc := nothingFound); [|reflexivity|exact H].
  intros f line acc acc' If _ I1 S.
  rewrite Forall_forall in F. pose proof (F f If) as Hf.
  apply scanLine_cases in S.
  destruct S as [[_ ->] | (_ & a1 & a2 & a3 & a4 & a5 & a6 & a7 & a8
                           & _ & _ & _ & _ & _ & E6 & _ & _ & ->)];
    [auto|].
  rewrite configFileRe_test, Hf in E6.
  apply pushName_off in E6; [|reflexivity]. cbn. congruence.
Qed.

Lemma names_found fs found :
  scanFiles fs nothingFound = Ok found -> namesOk found.
Proof.
  intros H.
  apply (scanFiles_inv namesOk fs) with (acc := nothingFound); [| |exact H].
  - intros f line acc acc' _ _ I S. exact (scanLine_names f acc line acc' I S).
  - unfold namesOk. cbn. repeat split; constructor.
Qed.

(** The purpose line is empty exactly when the chain finds nothing to
    say. *)
Lemma choosePurpose_nil found :
  choosePurpose found = [] <->
  f_newComponents found = [] /\ f_newFunctions found = [] /\
  f_newClasses found = [] /\ f_apiChanges found = [] /\
  List.length (f_uiChanges found) <= 5 /\
  f_configChanges found = [] /\ f_newImports found = [].
Proof.
  unfold choosePurpose.
  destruct (f_newComponents found) as [|c1 cs] eqn:E1.
  2:{ split; [|intros (H & _); discriminate].
      destruct (3 <? List.length (c1 :: cs)); discriminate. }
  destruct (f_newFunctions found) as [|g1 gs] eqn:E2.
  2:{ split; [|intros (_ & H & _); discriminate].
      destruct (5 <? List.length (g1 :: gs)); discriminate. }
  destruct (f_newClasses found) as [|k1 ks] eqn:E3.
  2:{ split; [|intros (_ & _ & H & _); discriminate]. discriminate. }
  destruct (f_apiChanges found) as [|v1 vs] eqn:E4.
  2:{ split; [|intros (_ & _ & _ & H & _); discriminate]. discriminate. }
  destruct (5 <? List.length (f_uiChanges found)) eqn:E5.
  { apply Nat.ltb_lt in E5.
    split; [discriminate | intros (_ & _ & _ & _ & H & _); lia]. }
  apply Nat.ltb_ge in E5.
  destruct (f_configChanges found) as [|q1 qs] eqn:E6.
  2:{ split; [|intros (_ & _ & _ & _ & _ & H & _); discriminate]. discriminate. }
  destruct (f_newImports found) as [|i1 is'] eqn:E7.
  2:{ split; [|intros (_ & _ & _ & _ & _ & _ & H); discriminate]. discriminate. }
  cbn. repeat split; auto.
Qed.

End ExtractorGates.

(** ** More on the classifier and the orchestrator *)

Module EngineMore.

Import JSFacts ClassifierFacts ExtractorFacts ParserFacts ParserMore.
Import EngineFacts Classifier Extractor Engine.

(** The classifier answers with one of eight types. *)
Lemma classify_type fs :
  In (fst (classify fs))
     (map str ["test"; "docs"; "chore"; "build"; "style"; "feat"; "fix";
               "refactor"]%string).
Proof.
  unfold classify, firstMatch.
  repeat match goal with
         | |- context [if ?c then _ else _] => destruct c
         end; cbn [fst map]; simpl; tauto.
Qed.

Lemma analyze_type changes :
  In (a_type (analyzeChangesForFallback changes)) commitTypes /\
  a_type (analyzeChangesForFallback changes) <> str "perf" /\
  a_type (analyzeChangesForFallback changes) <> str "ci".
Proof.
  pose proof (proj1 (analyze_classify changes)) as C.
  pose proof (classify_type (files changes)) as T.
  rewrite <- C in T. cbn [fst] in T. simpl in T.
  repeat (destruct T as [<-|T];
          [split; [simpl; tauto | split; discriminate]|]).
  contradiction.
Qed.

Section Generators.

Variable gSubject : StagedChanges -> Analysis -> DiffAnalysis -> jsstring.
Variable gBody : StagedChanges -> Analysis -> DiffAnalysis -> option jsstring.
Variable gScope : StagedChanges -> Analysis -> option jsstring.

Local Abbreviation fallback := (generateFallbackSuggestions gSubject gBody gScope).
Local Abbreviation generate := (generateCommitMessage gSubject gBody gScope).

(** The one suggestion of the heuristic path has the type the classifier
    chose. *)
Lemma fallback_type changes :
  exists s,
    fallback changes = Ok [s] /\
    confidence s = 0.85%Q /\ breaking s = false /\
    type s = a_type (analyzeChangesForFallback changes).
Proof.
  unfold generateFallbackSuggestions.
  destruct (analyzeDiffsInDepth_ok changes) as (found & _ & -> & _).
  cbn [bind]. eexists. split; [reflexivity|]. repeat split.
Qed.

(** The object after a call. *)
Lemma generate_state w self changes options :
  fst (generate w self changes options) =
  if skipsAI w self then self
  else if modelLoaded self then self
  else loadModel w self.
Proof.
  unfold generateCommitMessage. fold (skipsAI w self).
  destruct (skipsAI w self); [reflexivity|].
  destruct (modelLoaded self); cbn [negb];
    match goal with
    | |- fst (match ?x with _ => _ end) = _ =>
        destruct x as [[l|]|msg]; reflexivity
    end.
Qed.

Lemma loadModel_modelId w self : modelId (loadModel w self) = modelId self.
Proof.
  unfold loadModel. destruct (modelLoaded self); [reflexivity|].
  destruct (pipeline w (modelId self)); reflexivity.
Qed.

End Generators.

End EngineMore.

(** ** More on the version-control adapter *)

Module GitMore.

Import Git JSFacts.

Lemma warnOnly_loop git status stagedFiles : forall diffs,
  GitServiceWarnOnly.forEachStaged git status stagedFiles diffs
  = Ok (diffs ++ flat_map (readEntry git status) stagedFiles).
Proof.
  induction stagedFiles as [|f rest IH]; intros diffs; simpl.
  - rewrite app_nil_r. reflexivity.
  - unfold GitServiceWarnOnly.visit, readEntry at 1.
    destruct (git_diff git [str "--cached"; f]) as [d|msg];
      cbn [bind tryCatch]; rewrite IH.
    + rewrite <- app_assoc. reflexivity.
    + reflexivity.
Qed.

Lemma placeholder_loop git status stagedFiles : forall diffs,
  GitService.forEachStaged git status stagedFiles diffs
  = Ok (diffs ++ flat_map (readOrPlaceholder git status) stagedFiles).
Proof.
  induction stagedFiles as [|f rest IH]; intros diffs; simpl.
  - rewrite app_nil_r. reflexivity.
  - unfold GitService.visit, readOrPlaceholder at 1.
    destruct (git_diff git [str "--cached"; str "--"; f]) as [d|msg];
      cbn [bind tryCatch].
    + rewrite IH, <- app_assoc. reflexivity.
    + destruct (findStatus status f) as [s|]; cbn [bind tryCatch]; rewrite IH.
      * rewrite <- app_assoc. reflexivity.
      * reflexivity.
Qed.

Lemma indexOrM_truthy fs : indexOrM fs <> [].
Proof.
  unfold indexOrM. destruct fs as [s|]; [|discriminate].
  destruct (index s); simpl; discriminate.
Qed.

End GitMore.

(** ** The prompt *)

Module PromptFacts.

Import RegExpFacts JSFacts StringFacts MatchFacts HeaderFacts.
Import ParserFacts ParserMore ExtractorMore Parser Prompt.

Local Abbreviation LF := ("010"%char).

(** *** Numbers in text *)

Lemma digits_of_uint d :
  forallb isDigit (str (NilEmpty.string_of_uint d)) = true.
Proof. induction d; simpl; auto. Qed.

Lemma to_uint_nonnil n : Nat.to_uint n <> Decimal.Nil.
Proof.
  pose proof (DecimalNat.Unsigned.to_of (Nat.to_uint n)) as E.
  rewrite DecimalNat.Unsigned.of_to in E. rewrite E.
  apply DecimalFacts.unorm_nonnil.
Qed.

Lemma numToString_digits n :
  numToString n <> [] /\ forallb isDigit (numToString n) = true.
Proof.
  unfold numToString. split; [|apply digits_of_uint].
  pose proof (to_uint_nonnil n) as N.
  destruct (Nat.to_uint n); [congruence | discriminate ..].
Qed.

Lemma digit_facts c :
  isDigit c = true ->
  c <> LF /\ isWhiteSpace c = false /\ forall r, typeAhead (c :: r) = false.
Proof.
  destruct c as [[] [] [] [] [] [] [] []]; try discriminate;
    intros _; (split; [discriminate | split; [reflexivity|]]);
    intros r; reflexivity.
Qed.

Lemma numToString_no_lf n : ~ In LF (numToString n).
Proof.
  destruct (numToString_digits n) as [_ D]. intros I.
  rewrite forallb_forall in D. specialize (D _ I). discriminate.
Qed.

Lemma trim_single c : isWhiteSpace c = false -> trim [c] = [c].
Proof.
  intros H. apply (trim_idem_ends c [] [] c); [reflexivity | exact H | exact H].
Qed.

Lemma numToString_plain n : plainStart (numToString n).
Proof.
  destruct (numToString_digits n) as [N D].
  destruct (numToString n) as [|c r]; [congruence|].
  simpl in D. apply andb_true_iff in D. destruct D as [Dc _].
  destruct (digit_facts c Dc) as (_ & W & T).
  exists [c], r. repeat split.
  - discriminate.
  - apply trim_single. exact W.
  - exact T.
Qed.

(** *** Lines that open nothing *)

Lemma toLowerCase_app a b :
  toLowerCase (a ++ b) = toLowerCase a ++ toLowerCase b.
Proof. apply map_app. Qed.

Lemma opens_typeAhead raw : opensSuggestion raw -> typeAhead (trim raw) = true.
Proof.
  intros [cur R]. unfold roleOf in R.
  destruct (negb (truthy (trim raw))); [discriminate|].
  destruct (RegExp.exec headerRe (trim raw)) as [m|] eqn:E.
  2:{ destruct (isInstruction (trim raw)); discriminate. }
  destruct (header_match _ _ E)
    as (ty & sc & bang & ws & subj & L & Ity & _).
  rewrite L. unfold typeAhead. apply existsb_exists.
  exists (toLowerCase ty). split; [exact Ity|].
  rewrite toLowerCase_app. apply startsWith_iff. eauto.
Qed.

Lemma trimStart_stop a d b :
  isWhiteSpace d = false -> exists w, trimStart (a ++ d :: b) = w ++ d :: b.
Proof.
  intros H. induction a as [|x a IH]; simpl.
  - rewrite H. exists []. reflexivity.
  - destruct (isWhiteSpace x); [exact IH|]. exists (x :: a). reflexivity.
Qed.

(** Trimming keeps a trimmed word at the front. *)
Lemma trim_keeps_prefix u t :
  u <> [] -> trim u = u -> exists r, trim (u ++ t) = u ++ r.
Proof.
  intros N T.
  destruct (trimmed_ends u N T) as (c & t0 & u0 & d & E1 & E2 & Hc & Hd).
  assert (S : trimStart (u ++ t) = u ++ t).
  { rewrite E1. cbn [app]. apply trimStart_fix. exact Hc. }
  unfold trim, trimEnd. rewrite S, E2, rev_app_distr, rev_app_distr.
  cbn [rev app].
  destruct (trimStart_stop (rev t) d (rev u0) Hd) as [w ->].
  exists (rev w). rewrite rev_app_distr. cbn [rev].
  rewrite rev_involutive. reflexivity.
Qed.

Lemma plainStart_quiet line : plainStart line -> ~ opensSuggestion line.
Proof.
  intros (u & r & -> & N & T & A) O.
  apply opens_typeAhead in O.
  destruct (trim_keeps_prefix u r N T) as [r' E].
  rewrite E, A in O. discriminate.
Qed.

Lemma plainStart_app line t : plainStart line -> plainStart (line ++ t).
Proof.
  intros (u & r & -> & N & T & A). exists u, (r ++ t).
  rewrite <- app_assoc. auto.
Qed.

(** A word of the template before some text. *)
Ltac plain_word w :=
  match goal with
  | |- plainStart ?l =>
      exists (str w), (skipn (String.length w) l);
      split; [reflexivity|];
      split; [discriminate|];
      split; [reflexivity|];
      intros r'; reflexivity
  end.

(** *** Texts that open nothing *)

Lemma quietText_lf a b :
  quietText a -> quietText b -> quietText (a ++ LF :: b).
Proof.
  unfold quietText. intros A B. rewrite split_app. apply Forall_app. auto.
Qed.

Lemma quietText_line s :
  ~ In LF s -> ~ opensSuggestion s -> quietText s.
Proof.
  intros L Q. unfold quietText. rewrite (split_one s LF L).
  constructor; [exact Q | constructor].
Qed.

Lemma empty_quiet : ~ opensSuggestion [].
Proof. intros [cur H]. discriminate. Qed.

Lemma quietText_nil : quietText [].
Proof. apply quietText_line; [intros [] | exact empty_quiet]. Qed.

Lemma quietText_nil_lf b : quietText b -> quietText (LF :: b).
Proof. intros B. exact (quietText_lf [] b quietText_nil B). Qed.

Lemma quietText_join lines :
  Forall (fun l => ~ In LF l /\ ~ opensSuggestion l) lines ->
  quietText (join lines lf).
Proof.
  induction 1 as [|l rest [L Q] _ IH]; [exact quietText_nil|].
  destruct rest as [|l' rest].
  - apply quietText_line; assumption.
  - change (join (l :: l' :: rest) lf) with (l ++ LF :: join (l' :: rest) lf).
    apply quietText_lf; [apply quietText_line; assumption | exact IH].
Qed.

Lemma dashes_quiet : quietText (str "---").
Proof.
  apply quietText_line.
  - simpl. intuition discriminate.
  - intros [cur H]. vm_compute in H. discriminate.
Qed.

Lemma quietText_blocks blocks :
  Forall quietText blocks ->
  quietText (join blocks (lf ++ str "---" ++ lf)).
Proof.
  induction 1 as [|b rest Q _ IH]; [exact quietText_nil|].
  destruct rest as [|b' rest]; [exact Q|].
  change (join (b :: b' :: rest) (lf ++ str "---" ++ lf))
    with (b ++ LF :: str "---" ++ LF :: join (b' :: rest) (lf ++ str "---" ++ lf)).
  apply quietText_lf; [exact Q|].
  apply quietText_lf; [exact dashes_quiet | exact IH].
Qed.

Lemma no_lf_app a b : ~ In LF a -> ~ In LF b -> ~ In LF (a ++ b).
Proof. intros A B I. apply in_app_or in I. tauto. Qed.

Lemma no_lf_str_join pieces sep :
  ~ In LF sep -> Forall (fun p => ~ In LF p) pieces ->
  ~ In LF (join pieces sep).
Proof.
  intros S. induction 1 as [|p rest P _ IH]; [intros []|].
  destruct rest as [|p' rest]; [exact P|].
  change (join (p :: p' :: rest) sep) with (p ++ sep ++ join (p' :: rest) sep).
  apply no_lf_app; [exact P|]. apply no_lf_app; [exact S | exact IH].
Qed.

Ltac no_lf :=
  repeat first
    [ apply no_lf_app
    | apply numToString_no_lf
    | assumption
    | (intros I; simpl in I; intuition discriminate) ].

(** *** The pieces of the template *)

Lemma fileLine_quiet f :
  ~ In LF (file f) -> ~ In LF (status f) ->
  ~ In LF (fileLine f) /\ ~ opensSuggestion (fileLine f).
Proof.
  intros Lf Ls. unfold fileLine. split.
  - no_lf.
  - apply plainStart_quiet.
    change (str "- " ++ file f ++ str " (" ++ status f ++ str "): +"
            ++ numToString (additions f) ++ str " -"
            ++ numToString (deletions f))
      with (str "-" ++ (str " " ++ file f ++ str " (" ++ status f
            ++ str "): +" ++ numToString (additions f) ++ str " -"
            ++ numToString (deletions f))).
    plain_word "-"%string.
Qed.

Lemma diffLine_quiet line :
  startsWith line (str "+") || startsWith line (str "-")
  || startsWith line (str "@@") = true ->
  ~ opensSuggestion line.
Proof.
  intros H. apply plainStart_quiet.
  apply orb_true_iff in H. destruct H as [H|H];
    [apply orb_true_iff in H; destruct H as [H|H]|];
    apply startsWith_iff in H; destruct H as [t ->].
  - plain_word "+"%string.
  - plain_word "-"%string.
  - plain_word "@@"%string.
Qed.

Lemma fileDiff_quiet f : ~ In LF (file f) -> quietText (fileDiff f).
Proof.
  intros Lf. unfold fileDiff.
  change (str "File: " ++ file f ++ lf ++ ?x)
    with ((str "File: " ++ file f) ++ LF :: x).
  apply quietText_lf.
  - apply quietText_line; [no_lf|].
    apply plainStart_quiet.
    change (str "File: " ++ file f) with (str "File:" ++ (str " " ++ file f)).
    plain_word "File:"%string.
  - apply quietText_join. apply slice0_Forall.
    apply Forall_forall. intros line I. apply filter_In in I.
    destruct I as [I P]. split.
    + pose proof (split_no_sep (diff f) LF) as N.
      rewrite Forall_forall in N. auto.
    + apply diffLine_quiet. exact P.
Qed.

Lemma counted_no_lf n text :
  ~ In LF (str text) -> Forall (fun p => ~ In LF p) (counted n text).
Proof.
  intros T. unfold counted. destruct (0 <? n); constructor; [|constructor].
  apply no_lf_app; [apply numToString_no_lf | exact T].
Qed.

Lemma counted_plain n text :
  Forall plainStart (counted n text).
Proof.
  unfold counted. destruct (0 <? n); constructor; [|constructor].
  apply plainStart_app, numToString_plain.
Qed.

Lemma patterns_no_lf fs :
  Forall (fun p => ~ In LF p) (identifyFilePatterns fs).
Proof.
  unfold identifyFilePatterns.
  repeat (apply Forall_app; split);
    apply counted_no_lf; simpl; intuition discriminate.
Qed.

Lemma join_starts (P : jsstring -> Prop) pieces sep :
  (forall s t, P s -> P (s ++ t)) ->
  pieces <> [] -> Forall P pieces -> P (join pieces sep).
Proof.
  intros App N F. destruct pieces as [|p rest]; [congruence|].
  inversion F; subst. destruct rest as [|p' rest]; [assumption|].
  change (join (p :: p' :: rest) sep) with (p ++ sep ++ join (p' :: rest) sep).
  apply App. assumption.
Qed.

Lemma analyzeChanges_quiet changes :
  ~ In LF (analyzeChanges changes) /\ ~ opensSuggestion (analyzeChanges changes).
Proof.
  unfold analyzeChanges.
  set (total := str "Total: +" ++ _).
  set (pats := if 0 <? List.length (identifyFilePatterns (files changes))
               then _ else []).
  assert (Lt : ~ In LF total) by (unfold total; no_lf).
  assert (Pt : plainStart total) by (unfold total; plain_word "Total:"%string).
  assert (Lp : Forall (fun p => ~ In LF p) pats).
  { unfold pats. destruct (0 <? _); constructor; [|constructor].
    apply no_lf_app; [simpl; intuition discriminate|].
    apply no_lf_str_join; [simpl; intuition discriminate|].
    apply patterns_no_lf. }
  assert (Pp : Forall plainStart pats).
  { unfold pats. destruct (0 <? _); constructor; [|constructor].
    plain_word "Patterns"%string. }
  split.
  - apply no_lf_str_join; [simpl; intuition discriminate|].
    repeat (apply Forall_app; split);
      try (apply counted_no_lf; simpl; intuition discriminate);
      [exact Lp | constructor; [exact Lt | constructor]].
  - apply plainStart_quiet. apply join_starts.
    + intros s t. apply plainStart_app.
    + intros E. repeat (apply app_eq_nil in E; destruct E as [_ E]).
      discriminate.
    + repeat (apply Forall_app; split); try apply counted_plain;
        [exact Pp | constructor; [exact Pt | constructor]].
Qed.

Lemma filesContext_quiet changes :
  oneLineNames changes -> isLargeChangeset changes = false ->
  quietText (filesContext changes).
Proof.
  intros O L. unfold filesContext. rewrite L, app_nil_r.
  apply quietText_join. apply Forall_forall. intros l I.
  apply in_map_iff in I. destruct I as (f & <- & I).
  apply slice0_In in I. unfold oneLineNames in O.
  rewrite Forall_forall in O. destruct (O f I) as [Lf Ls].
  exact (fileLine_quiet f Lf Ls).
Qed.

Lemma diffContext_quiet changes :
  oneLineNames changes -> quietText (diffContext changes).
Proof.
  intros O. unfold diffContext. apply quietText_blocks.
  apply Forall_forall. intros b I.
  apply in_map_iff in I. destruct I as (f & <- & I).
  apply slice0_In in I. unfold oneLineNames in O.
  rewrite Forall_forall in O. destruct (O f I) as [Lf _].
  exact (fileDiff_quiet f Lf).
Qed.

Ltac quiet_literal :=
  apply quietText_line;
  [ simpl; intuition discriminate
  | let cur := fresh in let H := fresh in
    intros [cur H]; vm_compute in H; discriminate ].

(** With paths and statuses that stay on one line, and at most twenty
    files, no line of the template before [IMPORTANT:] opens a
    suggestion. *)
Lemma templateHead_quiet warningSign changes :
  oneLineNames changes -> isLargeChangeset changes = false ->
  quietText (templateHead warningSign changes ++ lf).
Proof.
  intros O L. unfold templateHead. rewrite L.
  pose proof (filesContext_quiet changes O L) as Qf.
  pose proof (diffContext_quiet changes O) as Qd.
  destruct (analyzeChanges_quiet changes) as [La Qa].
  repeat rewrite <- app_assoc. unfold lf. cbn [app].
  apply quietText_lf; [quiet_literal|]. apply quietText_nil_lf.
  apply quietText_lf; [quiet_literal|]. apply quietText_nil_lf.
  apply quietText_lf; [quiet_literal|].
  apply quietText_lf; [exact Qf|]. apply quietText_nil_lf.
  apply quietText_lf; [quiet_literal|].
  apply quietText_lf; [apply quietText_line; assumption|].
  apply quietText_nil_lf.
  destruct (truthy (diffContext changes)).
  - repeat first [rewrite <- app_assoc | progress cbn [app]].
    apply quietText_lf; [quiet_literal|].
    apply quietText_lf; [exact Qd|].
    repeat apply quietText_nil_lf. exact quietText_nil.
  - cbn [app]. repeat apply quietText_nil_lf. exact quietText_nil.
Qed.

(** The prompt is the head of the template, an empty line, the
    instructions, and what the options add. *)
Lemma buildPrompt_split warningSign changes options :
  exists suffix,
    buildPrompt warningSign changes options
    = (templateHead warningSign changes ++ lf)
      ++ LF :: (join instructions lf ++ suffix).
Proof.
  unfold buildPrompt.
  destruct (truthyOpt (customPrompt options));
    destruct (jsstring_eqb _ (str "concise"));
    try destruct (jsstring_eqb _ (str "detailed"));
    eexists; repeat rewrite <- app_assoc; reflexivity.
Qed.

Lemma instructions_marker suffix :
  hasStopMarker (headerLine (join instructions lf ++ suffix)) = true.
Proof.
  assert (E : join instructions lf
              = hd [] instructions ++ LF :: join (tl instructions) lf)
    by reflexivity.
  unfold headerLine. rewrite E, <- app_assoc. cbn [app].
  rewrite (proj1 (split_head (hd [] instructions) _ LF
                             ltac:(simpl; intuition discriminate))).
  reflexivity.
Qed.

(** Parsing a text that starts with the prompt is parsing the head of the
    template. *)
Lemma parse_prompt warningSign changes options continuation ch :
  parseAIResponse (buildPrompt warningSign changes options ++ continuation) ch
  = parseAIResponse (templateHead warningSign changes ++ lf) ch.
Proof.
  destruct (buildPrompt_split warningSign changes options) as [suffix ->].
  rewrite <- app_assoc. cbn [app].
  rewrite <- (app_assoc (join instructions lf)).
  apply parse_cut. apply instructions_marker.
Qed.

End PromptFacts.

(** ** The command line and the repository name *)

Module CLIFacts.

Import JSFacts StringFacts CLI CLICommands.

Local Open Scope Z_scope.

(** The fold of [higher] keeps a suggestion of the list, of the highest
    confidence; when no later suggestion has a higher confidence than the
    first, it keeps the first. *)
Lemma fold_higher rest : forall x,
  In (fold_left higher rest x) (x :: rest) /\
  Forall (fun y => (confidence y <= confidence (fold_left higher rest x))%Q)
         (x :: rest) /\
  (Forall (fun y => (confidence y <= confidence x)%Q) rest ->
   fold_left higher rest x = x).
Proof.
  induction rest as [|y rest IH]; intros x; cbn [fold_left].
  - split; [left; reflexivity|]. split; [|reflexivity].
    constructor; [apply Qle_refl | constructor].
  - destruct (IH (higher x y)) as (I & F & K).
    assert (H : (higher x y = x /\ (confidence y <= confidence x)%Q) \/
                (higher x y = y /\ (confidence x < confidence y)%Q)).
    { unfold higher.
      destruct (confidence x ?= confidence y)%Q eqn:C.
      - left. split; [reflexivity|].
        apply Qeq_alt in C. rewrite C. apply Qle_refl.
      - right. split; [reflexivity|]. apply Qlt_alt. exact C.
      - left. split; [reflexivity|].
        apply Qlt_le_weak. apply Qgt_alt. exact C. }
    remember (fold_left higher rest (higher x y)) as f eqn:Ef.
    clear Ef. split; [|split].
    + destruct H as [[E _]|[E _]]; rewrite E in I;
        (destruct I as [I|I]; [|right; right; exact I]).
      * left. exact I.
      * right. left. exact I.
    + inversion F as [|? ? Fh Frest]; subst.
      destruct H as [[E L]|[E L]]; rewrite E in Fh.
      * constructor; [exact Fh|]. constructor; [|exact Frest].
        eapply Qle_trans; [exact L | exact Fh].
      * constructor; [|constructor; [exact Fh | exact Frest]].
        eapply Qle_trans; [apply Qlt_le_weak; exact L | exact Fh].
    + intros Fx. inversion Fx as [|? ? Ly Lrest]; subst.
      destruct H as [[E _]|[E L]].
      * rewrite E in K. apply K. exact Lrest.
      * exfalso. exact (Qlt_not_le _ _ L Ly).
Qed.



(** After [clearCache] has written, no later run reuses the cache. *)
Lemma cleared_never_reused file now changes fresh :
  commitSuggestions (clearCache Written file) now changes fresh
  = (Generated, fresh).
Proof.
  unfold commitSuggestions, clearCache, loadCache.
  destruct file as [|msg|c]; cbn [timestamp suggestions];
    try reflexivity;
    destruct (now - 0 <? 5 * 60 * 1000); try reflexivity;
    cbn [suggestions List.length]; rewrite andb_false_r; reflexivity.
Qed.

End CLIFacts.

Module GitNameFacts.

Import JSFacts StringFacts GitNames.

Lemma skipn_In {A} n (l : list A) x : In x (skipn n l) -> In x l.
Proof.
  revert l. induction n as [|n IH]; intros l; simpl; [tauto|].
  destruct l; [tauto|]. intros H. right. auto.
Qed.

Lemma removeFirst_In s p x : In x (removeFirst s p) -> In x s.
Proof.
  induction s as [|c s IH].
  - simpl. destruct (startsWith [] p); [apply skipn_In | tauto].
  - cbn [removeFirst]. destruct (startsWith (c :: s) p); [apply skipn_In|].
    intros [E|I]; [left; exact E | right; auto].
Qed.

Lemma lastSegment_no_slash s : ~ In "/"%char (lastSegment s).
Proof.
  unfold lastSegment.
  pose proof (split_no_sep s "/"%char) as F.
  pose proof (split_nonempty s "/"%char) as N.
  destruct (@exists_last _ _ N) as (a & b & E).
  rewrite E, last_last. rewrite E in F.
  apply Forall_app in F. destruct F as [_ F]. inversion F; assumption.
Qed.

Lemma orUnknown_ok x :
  ~ In "/"%char x -> orUnknown x <> [] /\ ~ In "/"%char (orUnknown x).
Proof.
  intros H. unfold orUnknown. destruct x as [|c x]; simpl.
  - split; [discriminate | intuition discriminate].
  - split; [discriminate | exact H].
Qed.

End GitNameFacts.

(** ** The summary line *)

Module SummaryFacts.

Import JSFacts StringFacts PromptFacts Git.

Lemma str_inj a b : str a = str b -> a = b.
Proof.
  unfold str. intros H.
  apply (f_equal string_of_list_ascii) in H.
  rewrite !string_of_list_ascii_of_string in H. exact H.
Qed.

Lemma numToString_inj n m : numToString n = numToString m -> n = m.
Proof.
  unfold numToString. intros H. apply str_inj in H.
  apply DecimalNat.Unsigned.to_uint_inj.
  pose proof (NilEmpty.usu (Nat.to_uint n)) as A.
  pose proof (NilEmpty.usu (Nat.to_uint m)) as B.
  rewrite H in A. congruence.
Qed.

(** A run of digits before a character that is no digit is read off in
    one way. *)
Lemma digits_then x : forall y c r c' r',
  forallb isDigit x = true -> forallb isDigit y = true ->
  isDigit c = false -> isDigit c' = false ->
  x ++ c :: r = y ++ c' :: r' -> x = y /\ c :: r = c' :: r'.
Proof.
  induction x as [|a x IH]; intros [|b y] c r c' r' Dx Dy Dc Dc' E;
    simpl in *.
  - auto.
  - injection E as -> _. apply andb_true_iff in Dy. destruct Dy. congruence.
  - injection E as -> _. apply andb_true_iff in Dx. destruct Dx. congruence.
  - injection E as -> E.
    apply andb_true_iff in Dx. apply andb_true_iff in Dy.
    destruct (IH y c r c' r') as [-> R]; tauto || auto.
Qed.

Lemma summary_counts k a d k' a' d' :
  numToString k ++ str " file(s) changed, "
    ++ numToString a ++ str " insertions(+), "
    ++ numToString d ++ str " deletions(-)"
  = numToString k' ++ str " file(s) changed, "
    ++ numToString a' ++ str " insertions(+), "
    ++ numToString d' ++ str " deletions(-)" ->
  k = k' /\ a = a' /\ d = d'.
Proof.
  intros E.
  apply digits_then in E;
    try (apply numToString_digits); try reflexivity.
  destruct E as [Ek E]. apply numToString_inj in Ek.
  apply (app_inv_head (str " file(s) changed, ")) in E.
  apply digits_then in E;
    try (apply numToString_digits); try reflexivity.
  destruct E as [Ea E]. apply numToString_inj in Ea.
  apply (app_inv_head (str " insertions(+), ")) in E.
  apply app_inv_tail in E. apply numToString_inj in E.
  auto.
Qed.

End SummaryFacts.

(** ** The text generators *)

Module PathFacts.

Import JSFacts StringFacts Summarizer.

Lemma shorter_cases a b :
  (shorter a b = a /\ List.length a <= List.length b) \/
  (shorter a b = b /\ List.length b < List.length a).
Proof.
  unfold shorter. destruct (Nat.ltb_spec (List.length b) (List.length a)).
  - right. auto.
  - left. auto.
Qed.

(** The shortest path is one of the paths, and no path is shorter. *)
Lemma shortest_least rest : forall first,
  In (fold_left shorter rest first) (first :: rest) /\
  Forall (fun p => List.length (fold_left shorter rest first) <= List.length p)
         (first :: rest).
Proof.
  induction rest as [|x rest IH]; intros first; cbn [fold_left].
  - split; [left; reflexivity | constructor; [lia | constructor]].
  - destruct (IH (shorter first x)) as [I F].
    inversion F as [|? ? Fh Frest]; subst.
    destruct (shorter_cases first x) as [[E L]|[E L]]; rewrite E in *.
    + split.
      * destruct I as [I|I]; [left; exact I | right; right; exact I].
      * constructor; [exact Fh|]. constructor; [lia | exact Frest].
    + split.
      * destruct I as [I|I]; [right; left; exact I | right; right; exact I].
      * constructor; [lia|]. constructor; [exact Fh | exact Frest].
Qed.

Lemma nth_error_firstn_snoc {A} (l : list A) i x :
  nth_error l i = Some x -> firstn (S i) l = firstn i l ++ [x].
Proof.
  revert l. induction i as [|i IH]; intros [|a l] H; try discriminate.
  - injection H as ->. reflexivity.
  - cbn [nth_error] in H.
    rewrite (firstn_cons (S i) a l), (firstn_cons i a l), (IH l H).
    reflexivity.
Qed.

Section Loop.

Variable pathParts : list (list jsstring).
Variable shortestPath : list jsstring.

(** The loop keeps a prefix that all paths share and stops at the first
    component that they do not. *)
Lemma commonLoop_prefix n : forall i,
  Forall (fun p => firstn i p = firstn i shortestPath) pathParts ->
  exists j,
    commonLoop pathParts shortestPath n i (firstn i shortestPath)
    = firstn j shortestPath /\
    i <= j <= i + n /\
    Forall (fun p => firstn j p = firstn j shortestPath) pathParts /\
    (j < i + n ->
     j < List.length shortestPath ->
     ~ Forall (fun p => nth_error p j = nth_error shortestPath j) pathParts).
Proof.
  induction n as [|n IH]; intros i F; cbn [commonLoop].
  - exists i. repeat split; try lia. exact F.
  - destruct (nth_error shortestPath i) as [part|] eqn:E.
    + destruct (forallb _ pathParts) eqn:A.
      * rewrite <- (nth_error_firstn_snoc shortestPath i part E).
        destruct (IH (S i)) as (j & R & B & Fj & M).
        { rewrite forallb_forall in A. rewrite Forall_forall in F |- *.
          intros p I. specialize (A p I). specialize (F p I).
          destruct (nth_error p i) as [x|] eqn:Ep; [|discriminate].
          apply jsstring_eqb_eq in A. subst x.
          rewrite (nth_error_firstn_snoc p i part Ep),
            (nth_error_firstn_snoc shortestPath i part E), F.
          reflexivity. }
        exists j. repeat split; try lia; try assumption.
        intros L1 L2. apply M; lia.
      * exists i. repeat split; try lia; try assumption.
        intros _ _ All.
        assert (T : forallb (fun p => match nth_error p i with
                                      | Some x => jsstring_eqb x part
                                      | None => false
                                      end) pathParts = true).
        { apply forallb_forall. intros p I.
          rewrite Forall_forall in All. rewrite (All p I), E.
          apply jsstring_eqb_refl. }
        congruence.
    + exists i. repeat split; try lia; try assumption.
      intros _ L. apply nth_error_None in E. lia.
Qed.

End Loop.

Lemma firstn_split_rest {A} (l : list A) j :
  j < List.length l ->
  exists rest, l = firstn j l ++ rest /\ rest <> [].
Proof.
  intros L. exists (skipn j l). split; [symmetry; apply firstn_skipn|].
  intros E. apply (f_equal (@List.length A)) in E.
  rewrite length_skipn in E. simpl in E. lia.
Qed.

(** What [findCommonPath] returns is the longest run of directories that
    starts every path. *)
Lemma findCommonPath_longest filePaths parts :
  findCommonPath filePaths = Some parts ->
  parts <> [] /\
  commonDirectories parts filePaths /\
  forall part, ~ commonDirectories (parts ++ [part]) filePaths.
Proof.
  unfold findCommonPath.
  destruct (map (fun p => split p "/"%char) filePaths) as [|first rest] eqn:E;
    [discriminate|].
  cbv zeta.
  remember (fold_left shorter rest first) as shortest eqn:Es0.
  destruct (shortest_least rest first) as [Is Ls]. rewrite <- Es0 in Is, Ls.
  destruct (commonLoop_prefix (first :: rest) shortest
                              (List.length shortest - 1) 0)
    as (j & R & B & Fj & M).
  { apply Forall_forall. reflexivity. }
  change (firstn 0 shortest) with (@nil jsstring) in R. rewrite R.
  destruct (0 <? List.length (firstn j shortest)) eqn:Z; [|discriminate].
  intros H. injection H as <-.
  assert (Lj : j < List.length shortest).
  { apply Nat.ltb_lt in Z. rewrite length_firstn in Z. lia. }
  assert (P : forall p, In p filePaths -> In (split p "/"%char) (first :: rest)).
  { intros p I. rewrite <- E.
    apply (in_map (fun p => split p "/"%char)). exact I. }
  split; [|split].
  - intros N. rewrite N in Z. discriminate.
  - intros p I. specialize (P p I).
    rewrite Forall_forall in Fj, Ls.
    rewrite <- (Fj _ P). apply firstn_split_rest.
    specialize (Ls _ P). lia.
  - intros part C.
    assert (Cs : exists rest', shortest = (firstn j shortest ++ [part]) ++ rest'
                               /\ rest' <> []).
    { assert (Ish : exists p, In p filePaths /\ split p "/"%char = shortest).
      { rewrite <- E in Is.
        apply in_map_iff in Is. destruct Is as (p & Ep & Ip). eauto. }
      destruct Ish as (p & Ip & Ep).
      destruct (C p Ip) as (r & Er & Nr). rewrite Ep in Er. eauto. }
    destruct Cs as (rest' & Es & Nr).
    assert (Len : List.length (firstn j shortest) = j)
      by (rewrite length_firstn; lia).
    assert (L2 : j + 2 <= List.length shortest).
    { rewrite Es at 1. rewrite !length_app, Len. simpl.
      destruct rest'; [congruence | simpl; lia]. }
    apply M; [lia | lia |].
    assert (Nth : forall l r, l = (firstn j shortest ++ [part]) ++ r ->
                              nth_error l j = Some part).
    { intros l r ->. rewrite <- app_assoc.
      rewrite nth_error_app2 by lia. rewrite Len, Nat.sub_diag. reflexivity. }
    apply Forall_forall. intros q Iq.
    rewrite (Nth shortest rest' Es).
    rewrite <- E in Iq.
    apply in_map_iff in Iq. destruct Iq as (p & <- & Ip).
    destruct (C p Ip) as (r & Er & _). exact (Nth _ r Er).
Qed.

End PathFacts.

Module SummarizerFacts.

Import JSFacts StringFacts PromptFacts Classifier Extractor Summarizer.

Local Abbreviation LF := ("010"%char).

(** Nothing is more than a multiple of a constant that is not negative. *)
Lemma gtTimes_zero n m : (0 <= m)%Z -> Float.gtTimes 0 n m = false.
Proof.
  intros Hm. unfold Float.gtTimes, Float.times.
  set (exact := (Z.of_nat n * m)%Z).
  set (shift := Z.max 0 _).
  assert (He : (0 <= exact)%Z) by (unfold exact; lia).
  assert (Hq : (0 <= Z.shiftr exact shift)%Z) by (apply Z.shiftr_nonneg; exact He).
  cbv zeta.
  match goal with
  | |- (Z.shiftl (if ?c then _ else _) _ <? _)%Z = false => destruct c
  end; apply Z.ltb_ge; rewrite Z.shiftl_0_l; apply Z.shiftl_nonneg; lia.
Qed.

Section DeletedFiles.

Variable analyzeDeletedFiles : list GitDiff -> option jsstring.
Variable analyzeDeletedFilesForBody : list GitDiff -> list jsstring.

Local Abbreviation subjectOf := (generateSmartSubject analyzeDeletedFiles).
Local Abbreviation bodyOf := (generateSmartBody analyzeDeletedFilesForBody).

Lemma truthy_nonempty x : truthy x = true -> x <> [].
Proof. destruct x; [discriminate | discriminate]. Qed.

(** The subject is never empty. *)
Lemma subject_nonempty changes analysis diffAnalysis :
  subjectOf changes analysis diffAnalysis <> [].
Proof.
  unfold generateSmartSubject.
  destruct (files changes) as [|f0 [|f1 rest]]; cbv zeta;
    repeat match goal with
           | |- (if truthyOpt ?o then _ else _) <> [] =>
               let T := fresh "T" in
               destruct o as [d|] eqn:T; cbn [truthyOpt];
               [destruct (truthy d) eqn:?; [apply truthy_nonempty; assumption|]|]
           | |- (if truthy ?x then _ else _) <> [] =>
               let T := fresh "T" in
               destruct (truthy x) eqn:T; [apply truthy_nonempty; exact T|]
           | |- (if ?c then _ else _) <> [] => destruct c
           end;
    discriminate.
Qed.

(** With no deleted file the subject does not depend on what
    [analyzeDeletedFiles] would say. *)
Lemma subject_without_deletions changes analysis diffAnalysis :
  withStatus (files changes) "D" = [] ->
  subjectOf changes analysis diffAnalysis
  = generateSmartSubject (fun _ => None) changes analysis diffAnalysis.
Proof.
  intros E. unfold generateSmartSubject.
  destruct (files changes) as [|f0 [|f1 rest]]; [|reflexivity|];
    cbv zeta; rewrite E; cbn [List.length];
    rewrite gtTimes_zero by (unfold Float.significand_0_7; lia);
    reflexivity.
Qed.

(** A line without line feed is a line of every joined text it is a
    bullet of. *)
Lemma bullet_is_line x post : forall pre,
  ~ In LF x -> In x (split (join (pre ++ x :: post) [LF]) LF).
Proof.
  intros pre L. induction pre as [|p pre IH].
  - cbn [app]. destruct post as [|y post].
    + cbn [join]. rewrite (split_one x LF L). left. reflexivity.
    + change (join (x :: y :: post) [LF]) with (x ++ LF :: join (y :: post) [LF]).
      rewrite split_app, (split_one x LF L). left. reflexivity.
  - cbn [app]. destruct (pre ++ x :: post) as [|q tail] eqn:E.
    + destruct pre; discriminate.
    + change (join (p :: q :: tail) [LF]) with (p ++ LF :: join (q :: tail) [LF]).
      rewrite split_app. apply in_or_app. right. exact IH.
Qed.

Lemma totalLine_no_lf changes : ~ In LF (totalLine changes).
Proof. unfold totalLine. no_lf. Qed.

Lemma bullets_joined pre1 pre2 t post :
  ~ In LF t -> t <> [] ->
  exists b,
    (if 0 <? List.length (pre1 ++ pre2 ++ [t] ++ post)
     then Some (join (pre1 ++ pre2 ++ [t] ++ post) [LF])
     else None) = Some b /\
    b <> [] /\ In t (split b LF).
Proof.
  intros L N.
  replace (pre1 ++ pre2 ++ [t] ++ post) with ((pre1 ++ pre2) ++ t :: post)
    by (rewrite <- app_assoc; reflexivity).
  assert (P : (0 <? List.length ((pre1 ++ pre2) ++ t :: post)) = true).
  { apply Nat.ltb_lt. rewrite length_app. simpl. lia. }
  rewrite P. eexists. split; [reflexivity|].
  pose proof (bullet_is_line t post (pre1 ++ pre2) L) as I.
  split; [|exact I].
  intros E. rewrite E in I. simpl in I. destruct I as [I|[]]. congruence.
Qed.

(** There is a body exactly for two files or more; it is never empty and
    always has the line of totals. *)
Lemma body_cases changes analysis diffAnalysis :
  (List.length (files changes) <= 1 /\
   bodyOf changes analysis diffAnalysis = None) \/
  (1 < List.length (files changes) /\
   exists b,
     bodyOf changes analysis diffAnalysis = Some b /\
     b <> [] /\ In (totalLine changes) (split b LF)).
Proof.
  unfold generateSmartBody.
  destruct (Nat.leb_spec (List.length (files changes)) 1) as [L|L];
    [left; auto|].
  right. split; [exact L|]. cbv zeta.
  apply bullets_joined.
  - exact (totalLine_no_lf changes).
  - discriminate.
Qed.

End DeletedFiles.

End SummarizerFacts.

Module CountFacts.

Import JSFacts StringFacts Summarizer.

Lemma jsstring_eqb_sym a b : jsstring_eqb a b = jsstring_eqb b a.
Proof.
  destruct (jsstring_eqb a b) eqn:E.
  - apply jsstring_eqb_eq in E. subst. symmetry. apply jsstring_eqb_refl.
  - destruct (jsstring_eqb b a) eqn:E'; [|reflexivity].
    apply jsstring_eqb_eq in E'. subst.
    rewrite jsstring_eqb_refl in E. discriminate.
Qed.

Lemma occurrences_snoc k l x :
  occurrences k (l ++ [x])
  = occurrences k l + (if jsstring_eqb k x then 1 else 0).
Proof.
  unfold occurrences. rewrite filter_app, length_app. cbn [filter].
  destruct (jsstring_eqb k x); reflexivity.
Qed.

Lemma occurrences_In k l : 0 < occurrences k l -> In k l.
Proof.
  unfold occurrences. intros H.
  destruct (filter (jsstring_eqb k) l) as [|y t] eqn:E; [simpl in H; lia|].
  assert (I : In y (filter (jsstring_eqb k) l)) by (rewrite E; left; reflexivity).
  apply filter_In in I. destruct I as [I Ey].
  apply jsstring_eqb_eq in Ey. subst. exact I.
Qed.

Lemma In_occurrences k l : In k l -> 0 < occurrences k l.
Proof.
  intros I. unfold occurrences.
  assert (F : In k (filter (jsstring_eqb k) l)).
  { apply filter_In. split; [exact I | apply jsstring_eqb_refl]. }
  destruct (filter (jsstring_eqb k) l); [destruct F | simpl; lia].
Qed.

(** One step of the first loop, seen through [lookup]. *)
Lemma lookup_bump counts key k :
  lookup (bump counts key) k =
  if jsstring_eqb k key then
    match lookup counts key with
    | Some (Number n) => Some (Number (S n))
    | Some Text => Some Text
    | None =>
        if jsstring_eqb key (str "__proto__") then None
        else if mem key prototypeNames then Some Text
        else Some (Number 1)
    end
  else lookup counts k.
Proof.
  induction counts as [|[k0 v0] rest IH]; cbn [bump lookup].
  - destruct (jsstring_eqb k key) eqn:E.
    + apply jsstring_eqb_eq in E. subst k.
      destruct (jsstring_eqb key (str "__proto__")); [reflexivity|].
      destruct (mem key prototypeNames); cbn [lookup];
        rewrite jsstring_eqb_refl; reflexivity.
    + destruct (jsstring_eqb key (str "__proto__")); [reflexivity|].
      destruct (mem key prototypeNames); cbn [lookup];
        rewrite (jsstring_eqb_sym key k), E; reflexivity.
  - destruct (jsstring_eqb k0 key) eqn:E0; cbn [lookup].
    + apply jsstring_eqb_eq in E0. subst k0.
      rewrite (jsstring_eqb_sym key k).
      destruct (jsstring_eqb k key) eqn:E; [|reflexivity].
      destruct v0; reflexivity.
    + destruct (jsstring_eqb k0 k) eqn:E1.
      * apply jsstring_eqb_eq in E1. subst k0. rewrite E0. reflexivity.
      * exact IH.
Qed.

(** The first loop counts. *)
Lemma lookup_counts strings : forall k,
  lookup (fold_left bump strings []) k = tally strings k.
Proof.
  induction strings as [|x l IH] using rev_ind; intros k.
  - unfold tally. destruct (jsstring_eqb k (str "__proto__")); reflexivity.
  - rewrite fold_left_app. cbn [fold_left]. rewrite lookup_bump.
    unfold tally at 1. rewrite occurrences_snoc.
    destruct (jsstring_eqb k x) eqn:E.
    + apply jsstring_eqb_eq in E. subst k. rewrite IH. unfold tally.
      destruct (jsstring_eqb x (str "__proto__")); [reflexivity|].
      destruct (occurrences x l) as [|n] eqn:O; cbn [Nat.eqb Nat.add].
      * destruct (mem x prototypeNames); reflexivity.
      * rewrite Nat.add_1_r. cbn [Nat.eqb].
        destruct (mem x prototypeNames); reflexivity.
    + rewrite IH, Nat.add_0_r. reflexivity.
Qed.

Lemma lookup_In counts k v :
  lookup counts k = Some v -> In (k, v) counts.
Proof.
  induction counts as [|[k0 v0] rest IH]; cbn [lookup]; [discriminate|].
  destruct (jsstring_eqb k0 k) eqn:E.
  - apply jsstring_eqb_eq in E. subst. intros H. injection H as ->.
    left. reflexivity.
  - intros H. right. auto.
Qed.

Lemma bump_keys counts key k :
  In k (map fst (bump counts key)) -> k = key \/ In k (map fst counts).
Proof.
  induction counts as [|[k0 v0] rest IH]; cbn [bump].
  - destruct (jsstring_eqb key (str "__proto__")); [intros []|].
    destruct (mem key prototypeNames); cbn; intuition.
  - destruct (jsstring_eqb k0 key) eqn:E; cbn [map fst In].
    + tauto.
    + intros [H|H]; [tauto|]. destruct (IH H); tauto.
Qed.

Lemma bump_NoDup counts key :
  NoDup (map fst counts) -> NoDup (map fst (bump counts key)).
Proof.
  induction counts as [|[k0 v0] rest IH]; cbn [bump]; intros N.
  - destruct (jsstring_eqb key (str "__proto__")); [constructor|].
    destruct (mem key prototypeNames); cbn;
      (constructor; [intros [] | constructor]).
  - inversion N as [|? ? Nk Nrest]; subst.
    destruct (jsstring_eqb k0 key) eqn:E; cbn [map fst].
    + constructor; assumption.
    + constructor; [|auto].
      intros I. apply bump_keys in I. destruct I as [->|I]; [|contradiction].
      rewrite jsstring_eqb_refl in E. discriminate.
Qed.

Lemma counts_NoDup strings : NoDup (map fst (fold_left bump strings [])).
Proof.
  induction strings as [|x l IH] using rev_ind; [constructor|].
  rewrite fold_left_app. apply bump_NoDup. exact IH.
Qed.

Lemma In_lookup counts k v :
  NoDup (map fst counts) -> In (k, v) counts -> lookup counts k = Some v.
Proof.
  induction counts as [|[k0 v0] rest IH]; cbn [lookup map fst];
    intros N I; [destruct I|].
  inversion N as [|? ? Nk Nrest]; subst.
  destruct I as [E|I].
  - injection E as -> ->. rewrite jsstring_eqb_refl. reflexivity.
  - destruct (jsstring_eqb k0 k) eqn:E.
    + apply jsstring_eqb_eq in E. subst. exfalso. apply Nk.
      apply (in_map fst) in I. exact I.
    + auto.
Qed.

(** The enumeration visits the own properties, each of them. *)
Lemma insertIndex_In k e sorted x :
  In x (insertIndex k e sorted) <-> x = (k, e) \/ In x sorted.
Proof.
  induction sorted as [|[k' e'] rest IH]; cbn [insertIndex].
  - cbn. intuition.
  - destruct (k <? k')%N; cbn [In]; [intuition|].
    rewrite IH. intuition.
Qed.

Lemma enumerate_In counts e : In e (enumerate counts) <-> In e counts.
Proof.
  unfold enumerate. rewrite in_app_iff, filter_In.
  assert (G : forall l acc x,
             In x (fold_left
                     (fun acc e => match arrayIndex (fst e) with
                                   | Some k => insertIndex k e acc
                                   | None => acc
                                   end) l acc)
             <-> In x acc \/
                 exists e', In e' l /\ arrayIndex (fst e') = Some (fst x)
                            /\ snd x = e').
  { induction l as [|e0 l IH]; intros acc x; cbn [fold_left].
    - split; [auto|]. intros [H|(e' & [] & _)]. exact H.
    - rewrite IH. destruct (arrayIndex (fst e0)) as [k|] eqn:A.
      + rewrite insertIndex_In. split.
        * intros [[->|H]|(e' & I & B & C)].
          -- right. exists e0. cbn. auto.
          -- auto.
          -- right. exists e'. cbn. auto.
        * intros [H|(e' & [<-|I] & B & C)].
          -- auto.
          -- left. left. destruct x as [xk xe]. cbn in *. congruence.
          -- right. eauto.
      + split.
        * intros [H|(e' & I & B & C)]; [auto|]. right. exists e'. cbn. auto.
        * intros [H|(e' & [<-|I] & B & C)]; [auto | congruence |].
          right. eauto. }
  rewrite in_map_iff. split.
  - intros [(x & <- & I)|[I _]]; [|exact I].
    apply G in I. destruct I as [[]|(e' & I & _ & ->)]. exact I.
  - intros I. destruct (arrayIndex (fst e)) as [k|] eqn:A.
    + left. exists (k, e). split; [reflexivity|].
      apply G. right. exists e. auto.
    + right. auto.
Qed.

(** The second loop keeps a key of the highest count. *)
Lemma pick_max l : forall best,
  (fold_left pick l best = best \/
   In (snd (fold_left pick l best), Number (fst (fold_left pick l best))) l) /\
  fst best <= fst (fold_left pick l best) /\
  forall k n, In (k, Number n) l -> n <= fst (fold_left pick l best).
Proof.
  induction l as [|[k0 v0] l IH]; intros best; cbn [fold_left].
  - split; [left; reflexivity|]. split; [lia|]. intros k n [].
  - destruct (IH (pick best (k0, v0))) as (A & B & C).
    assert (P : (pick best (k0, v0) = best /\
                 (forall n, v0 = Number n -> n <= fst best)) \/
                (exists n, v0 = Number n /\ pick best (k0, v0) = (n, k0) /\
                           fst best < n)).
    { unfold pick. cbn [fst snd]. destruct v0 as [n|].
      - destruct (Nat.ltb_spec (fst best) n).
        + right. exists n. auto.
        + left. split; [reflexivity|]. intros n' E. injection E as <-. lia.
      - left. split; [reflexivity|]. intros n E. discriminate. }
    remember (fold_left pick l (pick best (k0, v0))) as r eqn:Er. clear Er.
    split; [|split].
    + destruct A as [A|A]; [|right; right; exact A].
      destruct P as [[E _]|(n & -> & E & _)].
      * left. rewrite A. exact E.
      * right. left. rewrite A, E. reflexivity.
    + destruct P as [[E _]|(n & -> & E & L)]; rewrite E in B; cbn in *; lia.
    + intros k n [I|I]; [|exact (C k n I)].
      injection I as -> ->.
      destruct P as [[E Le]|(n' & En & E & L)].
      * specialize (Le n eq_refl). rewrite E in B. lia.
      * injection En as <-. rewrite E in B. cbn in B. lia.
Qed.

(** [findMostCommon] returns a string of the array that is not a name of
    [Object.prototype] and that no other such string of the array
    outnumbers. *)
Lemma findMostCommon_most strings d :
  findMostCommon strings = Some d ->
  d <> [] /\ In d strings /\ ~ In d prototypeNames /\
  forall y, In y strings -> ~ In y prototypeNames ->
            occurrences y strings <= occurrences d strings.
Proof.
  unfold findMostCommon.
  set (counts := fold_left bump strings []).
  destruct (pick_max (enumerate counts) (0, [])) as (A & _ & C).
  destruct (fold_left pick (enumerate counts) (0, [])) as [maxCount mostCommon].
  cbn [fst snd] in A, C.
  destruct (truthy mostCommon) eqn:T; [|discriminate].
  intros H. injection H as <-.
  assert (Nd : mostCommon <> []).
  { intros E. rewrite E in T. discriminate. }
  destruct A as [A|A]; [injection A as _ A; congruence|].
  apply (proj1 (enumerate_In _ _)) in A.
  apply (In_lookup counts _ _ (counts_NoDup strings)) in A.
  unfold counts in A. rewrite lookup_counts in A. unfold tally in A.
  destruct (jsstring_eqb mostCommon (str "__proto__")); [discriminate|].
  destruct (occurrences mostCommon strings =? 0) eqn:Z; [discriminate|].
  destruct (mem mostCommon prototypeNames) eqn:M; [discriminate|].
  injection A as A.
  apply Nat.eqb_neq in Z.
  split; [exact Nd|]. split; [apply occurrences_In; lia|]. split.
  - intros I. apply mem_In in I. congruence.
  - intros y Iy Py. rewrite A. apply (C y).
    apply (proj2 (enumerate_In _ _)). apply lookup_In. unfold counts.
    rewrite lookup_counts. unfold tally.
    assert (Ny : jsstring_eqb y (str "__proto__") = false).
    { destruct (jsstring_eqb y (str "__proto__")) eqn:E; [|reflexivity].
      apply jsstring_eqb_eq in E. subst. exfalso. apply Py.
      simpl. tauto. }
    rewrite Ny.
    pose proof (In_occurrences y strings Iy) as O.
    destruct (Nat.eqb_spec (occurrences y strings) 0) as [E|_]; [lia|].
    destruct (mem y prototypeNames) eqn:My; [|reflexivity].
    apply mem_In in My. contradiction.
Qed.

End CountFacts.

Module ScopeFacts.

Import JSFacts StringFacts Classifier Summarizer CountFacts.

(** A scope is one of the six fixed words or the parent directory that
    [findMostCommon] chose; it has two characters or more and is never
    [src]. *)
Lemma scope_cases changes analysis x :
  generateSmartScope changes analysis = Some x ->
  2 <= List.length x /\ x <> str "src" /\
  (In x fixedScopes \/
   (findMostCommon (parentDirectories changes) = Some x /\
    x <> str "lib")).
Proof.
  unfold generateSmartScope. fold (parentDirectories changes).
  assert (Fixed : forall w : string,
             In (str w) fixedScopes -> 2 <= List.length (str w) ->
             str w <> str "src" ->
             Some (str w) = Some x ->
             2 <= List.length x /\ x <> str "src" /\
             (In x fixedScopes \/
              (findMostCommon (parentDirectories changes) = Some x /\
               x <> str "lib"))).
  { intros w I L N H. injection H as <-. repeat split; auto. }
  repeat match goal with
         | |- (if jsstring_eqb (category analysis) ?c then _ else _) = _ -> _ =>
             destruct (jsstring_eqb (category analysis) c);
             [apply Fixed; [simpl; tauto | simpl; lia | discriminate]|]
         end.
  cbv zeta.
  destruct (findMostCommon (parentDirectories changes)) as [d|] eqn:F.
  - destruct (Nat.ltb_spec 1 (List.length d)) as [L|L]; cbn [andb].
    + destruct (jsstring_eqb d (str "src")) eqn:E1; cbn [negb andb].
      * destruct (Float.gtTimes _ _ _); [|discriminate].
        apply Fixed; [simpl; tauto | simpl; lia | discriminate].
      * destruct (jsstring_eqb d (str "lib")) eqn:E2; cbn [negb].
        -- destruct (Float.gtTimes _ _ _); [|discriminate].
           apply Fixed; [simpl; tauto | simpl; lia | discriminate].
        -- intros H. injection H as <-. repeat split.
           ++ lia.
           ++ intros E. rewrite E in E1. discriminate.
           ++ right. split; [reflexivity|].
              intros E. rewrite E in E2. discriminate.
    + destruct (Float.gtTimes _ _ _); [|discriminate].
      apply Fixed; [simpl; tauto | simpl; lia | discriminate].
  - destruct (Float.gtTimes _ _ _); [|discriminate].
    apply Fixed; [simpl; tauto | simpl; lia | discriminate].
Qed.

End ScopeFacts.

Module DeletionFacts.

Import JSFacts StringFacts Summarizer Deletions.

(** Every description of [patterns] starts with [remove], so what the
    loop returns does. *)
Lemma patternLoop_removes nonGeneratedFiles d : forall ps,
  Forall (fun p => exists rest, snd p = str "remove " ++ rest) ps ->
  patternLoop ps nonGeneratedFiles = Some d ->
  exists rest, d = str "remove " ++ rest.
Proof.
  induction ps as [|[pattern description] ps IH]; intros F H;
    cbn [patternLoop] in H; [discriminate|].
  inversion F as [|? ? [rest E] F']; subst. cbn [snd] in E.
  cbv zeta in H.
  destruct (Float.gtTimes _ _ _ && _).
  - injection H as <-. rewrite E.
    exists (rest ++ str " and generated assets").
    rewrite <- app_assoc. reflexivity.
  - exact (IH F' H).
Qed.

Lemma patterns_remove :
  Forall (fun p => exists rest, snd p = str "remove " ++ rest) patterns.
Proof.
  unfold patterns.
  repeat (constructor; [cbn [snd]; eexists; reflexivity|]). constructor.
Qed.

(** [analyzeDeletedFiles] returns a string on every path, and each one
    starts with [remove]. *)
Lemma analyzeDeletedFiles_removes findCommonWords deletedFiles :
  exists rest,
    analyzeDeletedFiles findCommonWords deletedFiles
    = Some (str "remove " ++ rest).
Proof.
  unfold analyzeDeletedFiles. cbv zeta.
  set (fileNames := map file deletedFiles).
  assert (Rest :
    exists rest,
      match
        match findCommonPath fileNames with
        | Some commonPaths =>
            if 1 <? List.length commonPaths
            then Some (str "remove " ++ List.last commonPaths []
                       ++ str " module and related files")
            else None
        | None => None
        end
      with
      | Some description => Some description
      | None =>
          match
            patternLoop patterns
              (filter (fun f => negb (endsWith f (str ".d.ts"))
                                && negb (endsWith f (str ".map"))) fileNames)
          with
          | Some description => Some description
          | None =>
              Some (str "remove unused files ("
                    ++ numToString (List.length deletedFiles) ++ str " files)")
          end
      end = Some (str "remove " ++ rest)).
  { destruct (findCommonPath fileNames) as [commonPaths|].
    - destruct (1 <? List.length commonPaths); [eexists; reflexivity|].
      destruct (patternLoop patterns _) as [d|] eqn:P.
      + destruct (patternLoop_removes _ _ _ patterns_remove P) as [rest ->].
        eexists; reflexivity.
      + eexists; reflexivity.
    - destruct (patternLoop patterns _) as [d|] eqn:P.
      + destruct (patternLoop_removes _ _ _ patterns_remove P) as [rest ->].
        eexists; reflexivity.
      + eexists; reflexivity. }
  destruct (findCommonWords fileNames) as [|mainWord words]; [exact Rest|].
  destruct (truthy mainWord && (3 <? List.length mainWord)); [|exact Rest].
  destruct (test pascalCaseRe mainWord); cbn [andb].
  - destruct (some fileNames _).
    + exists (str "deprecated " ++ mainWord ++ str " class and related assets").
      reflexivity.
    + eexists; reflexivity.
  - eexists; reflexivity.
Qed.

End DeletionFacts.

(* ================================================================== *)
(** * Further theorems *)
(* ================================================================== *)

Import StringFacts ParserMore RoundTrip.

(** ** The response parser *)

(** X1. The parser reads nothing at or after the first line that holds a
    stop marker: a response cut before that line parses to the same
    suggestions.  [parseAIResponse], first loop. *)
Theorem parseAIResponse_cut_at_marker before after changes :
  Parser.hasStopMarker (headerLine after) = true ->
  Parser.parseAIResponse (before ++ "010"%char :: after) changes
  = Parser.parseAIResponse before changes.
Proof.
  unfold headerLine, Parser.parseAIResponse, slice0. intros M.
  rewrite split_app.
  pose proof (split_nonempty after "010"%char) as N.
  destruct (split after "010"%char) as [|m rest]; [congruence|].
  simpl in M. rewrite (relevant_cut _ m rest M). reflexivity.
Qed.

Lemma parseAIResponse_cut_at_marker_witness :
  Parser.parseAIResponse
    (str "fix: close the file" ++ "010"%char
       :: str "IMPORTANT: feat(api): add users")
    Examples.oneTestFile
  = Parser.parseAIResponse (str "fix: close the file") Examples.oneTestFile.
Proof.
  apply (parseAIResponse_cut_at_marker
           (str "fix: close the file")
           (str "IMPORTANT: feat(api): add users")).
  reflexivity.
Defined.

(** X2. Reading back a rendered message.  When a suggestion is well
    formed, carries its own rendering as [fullMessage], has confidence 0.9
    and a body of lines the parser keeps, and its header line holds no stop
    marker, is no meta-commentary and says [BREAKING CHANGE] only if the
    suggestion is breaking, then parsing its [fullMessage] returns exactly
    that suggestion.  [parseAIResponse]. *)
Theorem parseAIResponse_reads_back s changes :
  wellFormed s ->
  fullMessage s = rendered s ->
  confidence s = 0.9%Q ->
  bodyKept (body s) ->
  Parser.hasStopMarker (headerLine (fullMessage s)) = false ->
  Parser.isMetaCommentary (headerLine (fullMessage s)) (subject s) = false ->
  (breaking s = false ->
   includes (headerLine (fullMessage s)) (str "BREAKING CHANGE") = false) ->
  Parser.parseAIResponse (fullMessage s) changes = Ok [s].
Proof.
  destruct s as [ty sc subj bd br fm conf]. unfold wellFormed, rendered.
  cbn [type scope subject body breaking fullMessage confidence].
  intros (Ity & Wsc & Ns & Ts & Ds) -> -> Kb.
  destruct (header_one_line ty sc br subj Ity Wsc Ns Ts Ds) as (Lh & _ & _).
  assert (H : headerLine (template ty sc br subj bd)
              = ty ++ scopeText sc ++ (if br then str "!" else [])
                   ++ str ": " ++ subj).
  { unfold headerLine. rewrite (template_parts ty sc br subj bd Wsc).
    destruct bd as [b|]; [destruct (truthy b)|].
    - exact (proj1 (split_head _ ("010"%char :: b) "010"%char Lh)).
    - rewrite app_nil_r. exact (proj2 (split_head _ [] "010"%char Lh)).
    - rewrite app_nil_r. exact (proj2 (split_head _ [] "010"%char Lh)). }
  rewrite H. intros Mk Mc Bc.
  exact (proj2 (parse_rendered ty sc br subj bd changes
                               Ity Wsc Ns Ts Ds Kb Mk Mc Bc)).
Qed.

Lemma parseAIResponse_reads_back_witness :
  Parser.parseAIResponse (fullMessage Examples.addUsers) Examples.oneTestFile
  = Ok [Examples.addUsers].
Proof.
  apply parseAIResponse_reads_back.
  - unfold wellFormed, wellFormedScope. simpl.
    repeat split; try reflexivity; try discriminate.
    + left. reflexivity.
    + intuition discriminate.
  - reflexivity.
  - reflexivity.
  - simpl. repeat split; try discriminate.
    constructor; [|constructor].
    repeat split; try reflexivity. discriminate.
  - reflexivity.
  - reflexivity.
  - discriminate.
Defined.

(** X3. The parser always returns, and every suggestion it returns has
    confidence 0.9, a type of the closed set, and a subject that is not
    empty, is trimmed, stays on one line and is none of the placeholder
    subjects of the prompt ([type(scope)], [brief description],
    [what was accomplished], [improvements], [updates]).
    [parseAIResponse]. *)
Theorem parseAIResponse_suggestion_shape text changes :
  exists l,
    Parser.parseAIResponse text changes = Ok l /\
    Forall (fun s =>
              confidence s = 0.9%Q /\
              In (type s) commitTypes /\
              subject s <> [] /\ trim (subject s) = subject s /\
              forallb isDot (subject s) = true /\
              placeholderSubject (subject s) = false) l.
Proof.
  exists (firstn 2 (closedSuggestions text)).
  split; [apply parseAIResponse_closed|].
  apply Forall_forall. intros s I.
  apply (slice0_In (closedSuggestions text) 2) in I.
  destruct (closed_shape text s I) as (C & T & N & Tr & D & P & _).
  repeat split; assumption.
Qed.

(** X4. The body of a suggestion the parser returns is absent or is not
    empty; its text is trimmed, and each of its lines is a trimmed line
    that is not empty, is no header, is no instruction line and holds no
    stop marker.  [parseAIResponse], body accumulation. *)
Theorem parseAIResponse_body_kept text changes :
  exists l,
    Parser.parseAIResponse text changes = Ok l /\
    Forall (fun s => bodyKept (body s)) l.
Proof.
  exists (firstn 2 (closedSuggestions text)).
  split; [apply parseAIResponse_closed|].
  apply Forall_forall. intros s I.
  apply (slice0_In (closedSuggestions text) 2) in I.
  exact (proj2 (proj2 (proj2 (proj2 (proj2 (proj2 (closed_shape text s I))))))).
Qed.

(** X5. The parser returns no suggestion exactly when no line before the
    first stop marker opens one, that is, when none is a header that is
    not meta-commentary.  [parseAIResponse]. *)
Theorem parseAIResponse_empty_iff text changes :
  Parser.parseAIResponse text changes = Ok [] <->
  Forall (fun rawLine => ~ opensSuggestion rawLine) (relevantLines text).
Proof.
  rewrite parseAIResponse_closed. unfold closedSuggestions.
  pose proof (blocks_empty (map roleOf (relevantLines text))) as B.
  split.
  - intros E.
    assert (S : snd (blocks (map roleOf (relevantLines text))) = []).
    { destruct (snd (blocks (map roleOf (relevantLines text)))) as [|b [|b' bs]];
        [reflexivity | discriminate | discriminate]. }
    apply Forall_forall. intros raw I [cur R].
    apply (proj1 B S cur). rewrite <- R. apply in_map. exact I.
  - intros F. rewrite (proj2 B); [reflexivity|].
    intros cur I. apply in_map_iff in I. destruct I as (raw & R & I).
    rewrite Forall_forall in F. apply (F raw I). exists cur. exact R.
Qed.

(** ** The diff feature extractor *)

Import ExtractorMore ExtractorReads.

(** X6. The extractor reads the path of every file and the lines of its
    diff that start with [+], and nothing else: two change sets that agree
    on these, file by file, have the same analysis, whatever their
    statuses, counts, summaries and other diff lines.
    [analyzeDiffsInDepth]. *)
Theorem analyzeDiffsInDepth_reads_added_lines changes changes' :
  map readByExtractor (files changes) = map readByExtractor (files changes') ->
  Extractor.analyzeDiffsInDepth changes = Extractor.analyzeDiffsInDepth changes'.
Proof.
  intros E. unfold Extractor.analyzeDiffsInDepth.
  rewrite (scanFiles_reads _ _ Extractor.nothingFound E). reflexivity.
Qed.

Lemma analyzeDiffsInDepth_reads_added_lines_witness :
  Extractor.analyzeDiffsInDepth MoreExamples.pageEdited
  = Extractor.analyzeDiffsInDepth MoreExamples.pageAdded.
Proof.
  apply analyzeDiffsInDepth_reads_added_lines. reflexivity.
Defined.

(** X7. The three path patterns of the extractor as string tests:
    [/\.(tsx|jsx)$/] holds of the paths that end in [.tsx] or [.jsx],
    [/route\.|api\//] of those that contain [route.] or [api/], and
    [/config|\.json$|\.yaml$|\.env/] of those that contain [config] or
    [.env] or end in [.json] or [.yaml].  [analyzeDiffsInDepth]. *)
Theorem extractor_path_patterns p :
  RegExp.test Extractor.jsxFileRe p = isJsxPath p /\
  RegExp.test Extractor.apiFileRe p = isApiPath p /\
  RegExp.test Extractor.configFileRe p = isConfigPath p.
Proof.
  split; [apply jsxFileRe_test|]. split; [apply apiFileRe_test|].
  apply configFileRe_test.
Qed.

Import ExtractorGates.

(** X8. Three of the signals are gated by the path of the file.  With no
    staged path ending in [.tsx] or [.jsx] the analysis has no component
    and no UI tag; with none containing [route.] or [api/] it has no HTTP
    verb; with none containing [config] or [.env] or ending in [.json] or
    [.yaml] it has no configuration key.  [analyzeDiffsInDepth]. *)
Theorem analyzeDiffsInDepth_path_gates changes :
  exists a,
    Extractor.analyzeDiffsInDepth changes = Ok a /\
    (Forall (fun f => isJsxPath (file f) = false) (files changes) ->
     Extractor.newComponents a = [] /\ Extractor.uiChanges a = []) /\
    (Forall (fun f => isApiPath (file f) = false) (files changes) ->
     Extractor.apiChanges a = []) /\
    (Forall (fun f => isConfigPath (file f) = false) (files changes) ->
     Extractor.configChanges a = []).
Proof.
  destruct (analyzeDiffsInDepth_ok changes) as (found & S & A & _).
  exists (Extractor.summarize found). split; [exact A|].
  cbn [Extractor.summarize Extractor.newComponents Extractor.uiChanges
       Extractor.apiChanges Extractor.configChanges].
  split; [|split].
  - intros F. destruct (jsx_gate _ _ F S) as [-> ->]. split; reflexivity.
  - intros F. rewrite (api_gate _ _ F S). reflexivity.
  - intros F. rewrite (config_gate _ _ F S). reflexivity.
Qed.

(** X9. The names in the analysis have the shape the patterns capture:
    functions, classes and configuration keys are identifiers (one or more
    [\w] characters); components and UI tags are capitalised identifiers
    ([[A-Z]\w+]); import roots hold no [/] and do not start with a dot; and
    [modifiedFunctions] is always empty.  [analyzeDiffsInDepth]. *)
Theorem analyzeDiffsInDepth_name_shapes changes :
  exists a,
    Extractor.analyzeDiffsInDepth changes = Ok a /\
    Forall isIdentifier (Extractor.newFunctions a) /\
    Forall isIdentifier (Extractor.newClasses a) /\
    Forall isCapitalised (Extractor.newComponents a) /\
    Forall isPackageRoot (Extractor.newImports a) /\
    Extractor.modifiedFunctions a = [] /\
    Forall isIdentifier (Extractor.configChanges a) /\
    Forall isCapitalised (Extractor.uiChanges a).
Proof.
  destruct (analyzeDiffsInDepth_ok changes) as (found & S & A & _).
  exists (Extractor.summarize found). split; [exact A|].
  destruct (names_found _ _ S) as (F1 & F2 & F3 & F4 & F5 & F6 & F7).
  cbn [Extractor.summarize Extractor.newFunctions Extractor.newClasses
       Extractor.newComponents Extractor.newImports
       Extractor.modifiedFunctions Extractor.configChanges
       Extractor.uiChanges].
  repeat split;
    try (apply slice0_Forall, newSet_Forall; assumption).
  exact F5.
Qed.

(** X10. The purpose line and the signals.  When [mainPurpose] is empty,
    the analysis holds no function, class, component, import root,
    configuration key or HTTP verb (UI tags are all it can hold); and when
    the analysis holds no signal at all, [mainPurpose] is empty.
    [analyzeDiffsInDepth]. *)
Theorem analyzeDiffsInDepth_purpose_empty changes :
  exists a,
    Extractor.analyzeDiffsInDepth changes = Ok a /\
    (Extractor.mainPurpose a = [] ->
     Extractor.newFunctions a = [] /\ Extractor.newClasses a = [] /\
     Extractor.newComponents a = [] /\ Extractor.newImports a = [] /\
     Extractor.configChanges a = [] /\ Extractor.apiChanges a = []) /\
    (Extractor.newFunctions a = [] -> Extractor.newClasses a = [] ->
     Extractor.newComponents a = [] -> Extractor.newImports a = [] ->
     Extractor.configChanges a = [] -> Extractor.apiChanges a = [] ->
     Extractor.uiChanges a = [] ->
     Extractor.mainPurpose a = []).
Proof.
  destruct (analyzeDiffsInDepth_ok changes) as (found & S & A & _).
  exists (Extractor.summarize found). split; [exact A|].
  cbn [Extractor.summarize Extractor.newFunctions Extractor.newClasses
       Extractor.newComponents Extractor.newImports
       Extractor.mainPurpose Extractor.configChanges
       Extractor.uiChanges Extractor.apiChanges].
  split.
  - intros P. apply choosePurpose_nil in P.
    destruct P as (-> & -> & -> & -> & _ & -> & ->).
    repeat split; reflexivity.
  - intros H1 H2 H3 H4 H5 H6 H7.
    apply (proj1 (capped_nil_iff _ 5 ltac:(lia))) in H1.
    apply (proj1 (capped_nil_iff _ 3 ltac:(lia))) in H2.
    apply (proj1 (capped_nil_iff _ 5 ltac:(lia))) in H3.
    apply (proj1 (capped_nil_iff _ 5 ltac:(lia))) in H4.
    apply (proj1 (capped_nil_iff _ 5 ltac:(lia))) in H5.
    apply (proj1 (capped_nil_iff _ 10 ltac:(lia))) in H7.
    apply (proj1 (newSet_nil_iff _)) in H6.
    apply choosePurpose_nil. rewrite H1, H2, H3, H4, H5, H6, H7.
    repeat split; try reflexivity. simpl. lia.
Qed.

(** ** The classifier *)

Import EngineMore GitMore.

(** X11. The classifier counts each file for one kind only: the first
    of test, documentation, configuration, build tooling, CLI, component,
    API and style whose path test the path passes, or no kind when it
    passes none.  Its notable files are, in the order of the staged
    files, the paths of the files counted as documentation with more than
    10 additions, those counted as component with more than 20 changed
    lines, all those counted as API, and those counted for no kind with
    more than 30 changed lines.  A path counted as test, configuration,
    build tooling, CLI or style is never listed.
    [analyzeChangesForFallback]. *)
Theorem analyzeChangesForFallback_main_files changes :
  Classifier.a_mainFiles (Classifier.analyzeChangesForFallback changes)
  = map file (filter listed (files changes)) /\
  (forall k p,
     In k [TestFile; ConfigFile; BuildFile; CliFile; StyleFile] ->
     countedFor k p = true ->
     ~ In p (Classifier.a_mainFiles
               (Classifier.analyzeChangesForFallback changes))).
Proof.
  assert (M : Classifier.a_mainFiles
                (Classifier.analyzeChangesForFallback changes)
              = map file (filter listed (files changes))).
  { rewrite (proj2 (analyze_classify changes)). apply notable_listed. }
  split; [exact M|].
  intros k p K C I. rewrite M in I.
  apply in_map_iff in I. destruct I as (f & <- & I).
  apply filter_In in I. destruct I as [_ L]. unfold listed in L.
  assert (U : forall k', countedFor k' (file f) = true -> k = k')
    by (intros k'; apply countedFor_unique; exact C).
  apply orb_true_iff in L. destruct L as [L|L];
    [apply orb_true_iff in L; destruct L as [L|L];
     [apply orb_true_iff in L; destruct L as [L|L]|]|].
  - apply andb_true_iff in L. destruct L as [L _].
    rewrite (U _ L) in K. cbn [In] in K. intuition discriminate.
  - apply andb_true_iff in L. destruct L as [L _].
    rewrite (U _ L) in K. cbn [In] in K. intuition discriminate.
  - rewrite (U _ L) in K. cbn [In] in K. intuition discriminate.
  - apply andb_true_iff in L. destruct L as [L _].
    rewrite (U _ L) in K. cbn [In] in K. intuition discriminate.
Qed.

(** X12. The classifier answers with one of eight types of the closed set:
    it never answers [perf] or [ci].  [analyzeChangesForFallback]. *)
Theorem analyzeChangesForFallback_type_closed changes :
  In (Classifier.a_type (Classifier.analyzeChangesForFallback changes))
     commitTypes /\
  Classifier.a_type (Classifier.analyzeChangesForFallback changes) <> str "perf" /\
  Classifier.a_type (Classifier.analyzeChangesForFallback changes) <> str "ci".
Proof.
  pose proof (proj1 (analyze_classify changes)) as C.
  pose proof (classify_type (files changes)) as T.
  rewrite <- C in T. cbn [fst] in T. simpl in T.
  repeat (destruct T as [<-|T];
          [split; [simpl; tauto | split; discriminate]|]).
  contradiction.
Qed.

(** ** The orchestrator *)

(** X13. What [generateCommitMessage] returns: one or two suggestions,
    each with a type of the closed set; and either all of them come from
    the parser, at confidence 0.9, or there is exactly one, from the
    heuristic path, at confidence 0.85 and not breaking.  The two sources
    are never mixed.  [generateCommitMessage]. *)
Theorem generateCommitMessage_result_shape
        gSubject gBody gScope w self changes options :
  exists self' l,
    Engine.generateCommitMessage gSubject gBody gScope w self changes options
      = (self', Ok l) /\
    1 <= List.length l <= 2 /\
    Forall (fun s => In (type s) commitTypes) l /\
    (Forall (fun s => confidence s = 0.9%Q) l \/
     exists s, l = [s] /\ confidence s = 0.85%Q /\ breaking s = false).
Proof.
  destruct (generate_cases gSubject gBody gScope w self changes options)
    as (self' & [G | (m & t & l & _ & _ & _ & P & N & G)]).
  - destruct (fallback_type gSubject gBody gScope changes)
      as (s & F & C & B & T).
    exists self', [s]. rewrite G, F. split; [reflexivity|].
    split; [simpl; lia|]. split.
    + constructor; [|constructor]. rewrite T.
      exact (proj1 (analyze_type changes)).
    + right. exists s. auto.
  - exists self', l. split; [exact G|].
    rewrite parseAIResponse_closed in P.
    assert (E : l = slice0 (closedSuggestions (generatedText t)) 2)
      by (unfold slice0; congruence).
    clear P. split; [split|split].
    + destruct l; [congruence | simpl; lia].
    + rewrite E, slice0_length. lia.
    + apply Forall_forall. intros s I. rewrite E in I.
      apply slice0_In in I.
      exact (proj1 (proj2 (closed_shape _ s I))).
    + left. apply Forall_forall. intros s I. rewrite E in I.
      apply slice0_In in I.
      exact (proj1 (closed_shape _ s I)).
Qed.

(** X14. The assistant object after a call of [generateCommitMessage].
    Its model identifier never changes.  On the skip path (the environment
    says [AI_COMMIT_SKIP_AI=true], or the identifier is [none]) and once a
    model is loaded, the object is left as it was and the pipeline factory
    is not consulted: the call does the same in every world with the same
    [AI_COMMIT_SKIP_AI].  And an object that comes out loaded stays as it
    is in every later call.  [generateCommitMessage], [loadModel]. *)
Theorem generateCommitMessage_state
        gSubject gBody gScope w self changes options :
  modelId (fst (Engine.generateCommitMessage gSubject gBody gScope
                                             w self changes options))
  = modelId self /\
  (skipsAI w self = true \/ modelLoaded self = true ->
   fst (Engine.generateCommitMessage gSubject gBody gScope
                                     w self changes options) = self /\
   forall factory,
     Engine.generateCommitMessage gSubject gBody gScope
       (mkWorld (AI_COMMIT_SKIP_AI w) factory) self changes options
     = Engine.generateCommitMessage gSubject gBody gScope
         w self changes options) /\
  (modelLoaded (fst (Engine.generateCommitMessage gSubject gBody gScope
                                                  w self changes options))
   = true ->
   forall w' changes' options',
     fst (Engine.generateCommitMessage
            gSubject gBody gScope w'
            (fst (Engine.generateCommitMessage gSubject gBody gScope
                                               w self changes options))
            changes' options')
     = fst (Engine.generateCommitMessage gSubject gBody gScope
                                         w self changes options)).
Proof.
  split; [|split].
  - rewrite generate_state.
    destruct (skipsAI w self); [reflexivity|].
    destruct (modelLoaded self); [reflexivity|]. apply loadModel_modelId.
  - intros H. split.
    + rewrite generate_state.
      destruct (skipsAI w self); [reflexivity|].
      destruct H as [H|H]; [discriminate|]. rewrite H. reflexivity.
    + intros factory. unfold Engine.generateCommitMessage.
      cbn [AI_COMMIT_SKIP_AI]. fold (skipsAI w self).
      destruct (skipsAI w self); [reflexivity|].
      destruct H as [H|H]; [discriminate|]. rewrite H. reflexivity.
  - intros L w' changes' options'.
    rewrite (generate_state gSubject gBody gScope w' _ changes' options').
    rewrite L.
    destruct (skipsAI w' _); reflexivity.
Qed.

(** ** The version-control adapter *)

(** X15. [getStagedChanges] throws exactly when [git.status()] does, and
    then with [Failed to get staged changes: ] before the text of the
    caught error, which is [Error: ] and its message ([Error] alone when
    the message is empty); a diff that fails never makes it throw.  With
    a status, the copy whose [catch] only warns answers with the entries
    of the staged files whose diff could be read, in order, and the copy
    with the placeholder branch with an entry or a placeholder for every
    staged file that [status.files] knows or whose diff could be read.
    [GitService.getStagedChanges], both copies. *)
Theorem getStagedChanges_outcome git :
  Git.GitServiceWarnOnly.getStagedChanges git =
    match Git.git_status git with
    | Ok status => Ok (stagedReport (readEntry git status) status)
    | Throw message =>
        Throw (str "Failed to get staged changes: "
               ++ (if truthy message then str "Error: " ++ message
                   else str "Error"))
    end /\
  Git.GitService.getStagedChanges git =
    match Git.git_status git with
    | Ok status => Ok (stagedReport (readOrPlaceholder git status) status)
    | Throw message =>
        Throw (str "Failed to get staged changes: "
               ++ (if truthy message then str "Error: " ++ message
                   else str "Error"))
    end.
Proof.
  unfold Git.GitServiceWarnOnly.getStagedChanges,
    Git.GitService.getStagedChanges, stagedReport.
  destruct (Git.git_status git) as [status|message]; [|split; reflexivity].
  cbn [bind]. destruct (Git.staged status) as [|f rest] eqn:E.
  - split; reflexivity.
  - cbn [List.length Nat.eqb].
    rewrite warnOnly_loop, placeholder_loop. split; reflexivity.
Qed.

(** ** The prompt and the parser *)

Import PromptFacts.

(** X16. What follows an echoed prompt is never read.  The prompt holds a
    line that starts with [IMPORTANT:], a stop marker of the parser; so a
    text that starts with the prompt parses as the prompt alone does,
    whatever the continuation.  [buildPrompt], [parseAIResponse]. *)
Theorem parseAIResponse_ignores_after_prompt
        warningSign changes options continuation ch :
  Parser.parseAIResponse
    (Prompt.buildPrompt warningSign changes options ++ continuation) ch
  = Parser.parseAIResponse (Prompt.buildPrompt warningSign changes options) ch.
Proof.
  rewrite parse_prompt.
  rewrite <- (app_nil_r (Prompt.buildPrompt warningSign changes options)) at 1.
  rewrite parse_prompt. reflexivity.
Qed.

(** X17. For a change set of at most twenty files whose paths and
    statuses hold no line feed, a text that starts with the prompt parses
    to no suggestion: no line of the prompt before [IMPORTANT:] is read as
    a header.  [buildPrompt], [analyzeChanges], [identifyFilePatterns],
    [parseAIResponse]. *)
Theorem parseAIResponse_prompt_echo_empty
        warningSign changes options continuation ch :
  oneLineNames changes ->
  List.length (files changes) <= 20 ->
  Parser.parseAIResponse
    (Prompt.buildPrompt warningSign changes options ++ continuation) ch
  = Ok [].
Proof.
  intros O L. rewrite parse_prompt. apply parse_quiet.
  apply templateHead_quiet; [exact O|].
  unfold Prompt.isLargeChangeset. apply Nat.ltb_ge. exact L.
Qed.

Lemma parseAIResponse_prompt_echo_empty_witness :
  Parser.parseAIResponse
    (Prompt.buildPrompt MoreExamples.sign Examples.oneTestFile
                        Examples.noOptions
     ++ str "feat(api): add users")
    Examples.oneTestFile
  = Ok [].
Proof.
  apply parseAIResponse_prompt_echo_empty.
  - repeat constructor; simpl; intuition discriminate.
  - simpl. lia.
Defined.

(** X18. When the pipeline answers with the prompt followed by its
    continuation, [generateCommitMessage] returns what the heuristic path
    returns, for every change set of at most twenty files whose paths and
    statuses hold no line feed.  [generateCommitMessage],
    [generateAIBasedSuggestions], [buildPrompt], [parseAIResponse]. *)
Theorem generateCommitMessage_full_text_falls_back
        gSubject gBody gScope warningSign w self changes options m
        continuation :
  oneLineNames changes ->
  List.length (files changes) <= 20 ->
  skipsAI w self = false ->
  modelInUse w self = Some m ->
  m changes options
  = Resolves (Some (Prompt.buildPrompt warningSign changes options
                    ++ continuation)) ->
  snd (Engine.generateCommitMessage gSubject gBody gScope
                                    w self changes options)
  = Engine.generateFallbackSuggestions gSubject gBody gScope changes.
Proof.
  intros O L S M C.
  apply (failure_falls_back gSubject gBody gScope w self changes options S).
  apply (@NothingUsable w self changes options m _ M C).
  cbn [generatedText]. rewrite parse_prompt. apply parse_quiet.
  apply templateHead_quiet; [exact O|].
  unfold Prompt.isLargeChangeset. apply Nat.ltb_ge. exact L.
Qed.

Lemma generateCommitMessage_full_text_falls_back_witness :
  snd (Engine.generateCommitMessage
         Examples.sampleSubject Examples.sampleBody Examples.sampleScope
         Examples.quietWorld MoreExamples.fullTextAssistant
         Examples.oneTestFile Examples.noOptions)
  = Engine.generateFallbackSuggestions
      Examples.sampleSubject Examples.sampleBody Examples.sampleScope
      Examples.oneTestFile.
Proof.
  apply (generateCommitMessage_full_text_falls_back
           Examples.sampleSubject Examples.sampleBody Examples.sampleScope
           MoreExamples.sign Examples.quietWorld
           MoreExamples.fullTextAssistant Examples.oneTestFile
           Examples.noOptions MoreExamples.fullTextPipeline
           (Examples.lf ++ str "feat(api): add users")).
  - repeat constructor; simpl; intuition discriminate.
  - simpl. lia.
  - reflexivity.
  - reflexivity.
  - reflexivity.
Defined.

(** ** The command line *)

Import CLIFacts GitNameFacts SummaryFacts.



(** X20. After a run of [commit] that committed and whose [clearCache]
    wrote the file, no later run reuses the cache, at any time and for any
    change set: the emptied entry fails the test on the number of
    suggestions even while it is less than five minutes old.
    [CLI.commit], [CLI.clearCache], [CLI.loadCache]. *)
Theorem commit_leaves_no_reusable_cache s message :
  fst (CLICommands.commit s) = CLICommands.Committed message ->
  CLICommands.clearWrite s = CLICommands.Written ->
  forall now changes fresh,
    CLI.commitSuggestions (snd (CLICommands.commit s)) now changes fresh
    = (CLI.Generated, fresh).
Proof.
  unfold CLICommands.commit. intros C W now changes fresh.
  destruct (negb (CLICommands.isGitRepository s)); [discriminate|].
  destruct (CLICommands.stagedChanges s) as [ch|]; [|discriminate].
  destruct (negb (hasChanges ch)); [discriminate|].
  destruct (CLI.commitSuggestions _ _ ch _) as [origin [used|]];
    [|discriminate].
  destruct (CLICommands.reduce used CLICommands.higher) as [best|];
    [|discriminate].
  destruct (negb (CLICommands.noConfirm s) && _ && _); [discriminate|].
  destruct (CLICommands.gitCommit s (fullMessage best)); [|discriminate].
  cbn [snd]. rewrite W. apply cleared_never_reused.
Qed.

Lemma commit_leaves_no_reusable_cache_witness :
  CLI.commitSuggestions (snd (CLICommands.commit MoreExamples.plainRun))
                        1000%Z Examples.oneTestFile (Ok [])
  = (CLI.Generated, Ok []).
Proof.
  apply (commit_leaves_no_reusable_cache MoreExamples.plainRun
           (fullMessage Examples.addUsers)); reflexivity.
Defined.

(** X21. What [saveCache] wrote is what [commit] reuses.  After a write
    that succeeded, the suggestions of the entry are reused exactly when
    the summary is that of the current change set, less than five minutes
    have passed and there is at least one suggestion; and then they are
    the suggestions that were saved.  [CLI.saveCache], [CLI.loadCache],
    [CLI.commit]. *)
Theorem saved_cache_reused_iff l savedSummary savedAt now changes fresh :
  (fst (CLI.commitSuggestions
          (CLICommands.saveCache CLICommands.Written l savedSummary savedAt)
          now changes fresh) = CLI.FromCache
   <-> savedSummary = summary changes /\
       (now - savedAt < 300000)%Z /\ l <> []) /\
  (fst (CLI.commitSuggestions
          (CLICommands.saveCache CLICommands.Written l savedSummary savedAt)
          now changes fresh) = CLI.FromCache ->
   snd (CLI.commitSuggestions
          (CLICommands.saveCache CLICommands.Written l savedSummary savedAt)
          now changes fresh) = Ok l).
Proof.
  unfold CLI.commitSuggestions, CLICommands.saveCache, CLI.loadCache.
  cbv zeta. cbn [CLI.timestamp CLI.changesSummary CLI.suggestions].
  change (5 * 60 * 1000)%Z with 300000%Z.
  pose proof (jsstring_eqb_eq savedSummary (summary changes)) as J.
  destruct (Z.ltb_spec (now - savedAt) 300000) as [T|T].
  - cbn [CLI.timestamp CLI.changesSummary CLI.suggestions].
    destruct (jsstring_eqb savedSummary (summary changes)).
    + destruct l as [|x rest]; cbn.
      * split; [|discriminate]. split; [discriminate|].
        intros (_ & _ & N). congruence.
      * split; [|reflexivity]. split; [|reflexivity].
        intros _. repeat split; [apply J; reflexivity | exact T | discriminate].
    + cbn. split; [|discriminate]. split; [discriminate|].
      intros (S & _). apply J in S. discriminate.
  - cbn. split; [|discriminate]. split; [discriminate|].
    intros (_ & L & _). lia.
Qed.

(** X22. The choice of the highest confidence in [commit] always picks the
    first suggestion of what [generateCommitMessage] returns: all of its
    suggestions have the same confidence, and a later one replaces an
    earlier one only when its confidence is higher.  [CLI.commit],
    [generateCommitMessage]. *)
Theorem commit_picks_first_generated
        gSubject gBody gScope w self changes options :
  exists self' first rest,
    Engine.generateCommitMessage gSubject gBody gScope w self changes options
      = (self', Ok (first :: rest)) /\
    CLICommands.reduce (first :: rest) CLICommands.higher = Ok first.
Proof.
  destruct (generate_cases gSubject gBody gScope w self changes options)
    as (self' & [G | (m & t & l & _ & _ & _ & P & N & G)]).
  - destruct (fallback_one gSubject gBody gScope changes) as (s & F & _).
    exists self', s, []. rewrite G, F. split; reflexivity.
  - destruct l as [|first rest]; [congruence|].
    exists self', first, rest. split; [exact G|].
    cbn [CLICommands.reduce]. f_equal.
    apply (proj2 (proj2 (fold_higher rest first))).
    rewrite parseAIResponse_closed in P.
    assert (E : first :: rest = slice0 (closedSuggestions (generatedText t)) 2)
      by (unfold slice0; congruence).
    assert (C : forall y, In y (first :: rest) -> confidence y = 0.9%Q).
    { intros y I. rewrite E in I. apply slice0_In in I.
      exact (proj1 (closed_shape _ y I)). }
    apply Forall_forall. intros y I.
    rewrite (C y (or_intror I)), (C first (or_introl eq_refl)).
    apply Qle_refl.
Qed.

(** ** The repository name *)

(** X23. [getRepositoryName] never throws, and the name it returns is not
    empty and holds no [/], whatever the remotes and the working
    directory.  [GitService.getRepositoryName]. *)
Theorem getRepositoryName_total remotes cwd :
  exists name,
    GitNames.getRepositoryName remotes cwd = Ok name /\
    name <> [] /\ ~ In "/"%char name.
Proof.
  assert (C : GitNames.orUnknown (GitNames.lastSegment cwd) <> [] /\
              ~ In "/"%char (GitNames.orUnknown (GitNames.lastSegment cwd)))
    by (apply orUnknown_ok, lastSegment_no_slash).
  unfold GitNames.getRepositoryName.
  destruct remotes as [rs|message]; cbn [bind tryCatch];
    [|eexists; split; [reflexivity | exact C]].
  destruct (find _ rs) as [r|]; cbn [tryCatch];
    [|eexists; split; [reflexivity | exact C]].
  destruct (truthyOpt (GitNames.fetch r)); cbn [tryCatch];
    [|eexists; split; [reflexivity | exact C]].
  eexists. split; [reflexivity|].
  apply orUnknown_ok. intros I. apply removeFirst_In in I.
  exact (lastSegment_no_slash _ I).
Qed.

(** ** The summary line *)

(** X24. The summary of a non-empty report tells the number of files, the
    total of additions and the total of deletions, and nothing else: two
    reports have the same summary exactly when these three numbers agree.
    The cache test of [commit] compares summaries, so it takes change sets
    with the same three numbers for the same change set.
    [GitService.getStagedChanges], [CLI.commit]. *)
Theorem report_summary_iff_counts diffs diffs' :
  (summary (Git.report diffs) = summary (Git.report diffs') <->
   List.length diffs = List.length diffs' /\
   Git.totalAdditions diffs = Git.totalAdditions diffs' /\
   Git.totalDeletions diffs = Git.totalDeletions diffs') /\
  (List.length diffs = List.length diffs' ->
   Git.totalAdditions diffs = Git.totalAdditions diffs' ->
   Git.totalDeletions diffs = Git.totalDeletions diffs' ->
   forall cacheFile now fresh,
     fst (CLI.commitSuggestions cacheFile now (Git.report diffs) fresh)
     = fst (CLI.commitSuggestions cacheFile now (Git.report diffs') fresh)).
Proof.
  split.
  - unfold Git.report. cbn [summary]. split.
    + apply summary_counts.
    + intros (-> & -> & ->). reflexivity.
  - intros E1 E2 E3 cacheFile now fresh.
    unfold CLI.commitSuggestions, Git.report. cbn [summary].
    rewrite E1, E2, E3. 
    destruct (CLI.loadCache cacheFile now) as [c|]; [|reflexivity].
    destruct (_ && _); reflexivity.
Qed.

(** ** The text generators of the heuristic path *)

Import PathFacts SummarizerFacts CountFacts ScopeFacts DeletionFacts.

(** X25. What [findCommonPath] returns is a run of directories that all
    the paths start with, the longest one: it is not empty, every path has
    at least one more component after it, and no further component can be
    added so that this still holds. [findCommonPath]. *)
Theorem findCommonPath_longest_shared filePaths parts :
  Summarizer.findCommonPath filePaths = Some parts ->
  parts <> [] /\
  commonDirectories parts filePaths /\
  forall part, ~ commonDirectories (parts ++ [part]) filePaths.
Proof.
  intros H.
  destruct (findCommonPath_longest filePaths parts H) as (N & C & M).
  split; [exact N|]. split; [exact C | exact M].
Qed.

Lemma findCommonPath_longest_shared_witness :
  [str "src"; str "a"] <> [] /\
  commonDirectories [str "src"; str "a"]
    (map str ["src/a/x.ts"; "src/a/y.ts"; "src/a/b/z.ts"]%string) /\
  forall part,
    ~ commonDirectories ([str "src"; str "a"] ++ [part])
        (map str ["src/a/x.ts"; "src/a/y.ts"; "src/a/b/z.ts"]%string).
Proof.
  apply (findCommonPath_longest_shared
           (map str ["src/a/x.ts"; "src/a/y.ts"; "src/a/b/z.ts"]%string)
           [str "src"; str "a"]).
  vm_compute. reflexivity.
Defined.

(** X26. The subject of the heuristic path is never the empty string,
    whatever the change set, the classification and the scan are; and when
    no staged file has the status [D], it does not depend on how deletions
    are worded. [generateSmartSubject]. *)
Theorem generateSmartSubject_never_empty
        analyzeDeletedFiles changes analysis diffAnalysis :
  Summarizer.generateSmartSubject analyzeDeletedFiles
    changes analysis diffAnalysis <> [] /\
  (Summarizer.withStatus (files changes) "D" = [] ->
   Summarizer.generateSmartSubject analyzeDeletedFiles
     changes analysis diffAnalysis
   = Summarizer.generateSmartSubject (fun _ => None)
       changes analysis diffAnalysis).
Proof.
  split.
  - apply subject_nonempty.
  - intros D. apply subject_without_deletions. exact D.
Qed.

(** X27. The heuristic path writes a body exactly when two files or more
    are staged; a body is never empty, and one of its lines is the line of
    totals, [- Total: +a -d lines]. [generateSmartBody]. *)
Theorem generateSmartBody_iff_several_files
        analyzeDeletedFilesForBody changes analysis diffAnalysis :
  (Summarizer.generateSmartBody analyzeDeletedFilesForBody
     changes analysis diffAnalysis = None
   <-> List.length (files changes) <= 1) /\
  (forall b,
     Summarizer.generateSmartBody analyzeDeletedFilesForBody
       changes analysis diffAnalysis = Some b ->
     1 < List.length (files changes) /\
     b <> [] /\ In (totalLine changes) (split b "010"%char)).
Proof.
  destruct (body_cases analyzeDeletedFilesForBody changes analysis diffAnalysis)
    as [[L N]|(L & b & S & Nb & T)].
  - rewrite N. split; [tauto | discriminate].
  - rewrite S. split.
    + split; [discriminate | lia].
    + intros b' E. injection E as <-. auto.
Qed.

(** X28. What [findMostCommon] returns is one of the strings, not the
    empty one and not the name of a property that every object inherits;
    among the strings that are no such name, none occurs more often.
    [findMostCommon]. *)
Theorem findMostCommon_occurs_most strings d :
  Summarizer.findMostCommon strings = Some d ->
  d <> [] /\ In d strings /\ ~ In d Summarizer.prototypeNames /\
  forall y, In y strings -> ~ In y Summarizer.prototypeNames ->
            occurrences y strings <= occurrences d strings.
Proof.
  intros H.
  destruct (findMostCommon_most strings d H) as (N & I & P & M).
  split; [exact N|]. split; [exact I|]. split; [exact P | exact M].
Qed.

Lemma findMostCommon_occurs_most_witness :
  str "lib" <> [] /\
  In (str "lib") (map str ["src"; "lib"; "lib"]%string) /\
  ~ In (str "lib") Summarizer.prototypeNames /\
  forall y, In y (map str ["src"; "lib"; "lib"]%string) ->
            ~ In y Summarizer.prototypeNames ->
            occurrences y (map str ["src"; "lib"; "lib"]%string)
            <= occurrences (str "lib") (map str ["src"; "lib"; "lib"]%string).
Proof.
  apply (findMostCommon_occurs_most
           (map str ["src"; "lib"; "lib"]%string) (str "lib")).
  vm_compute. reflexivity.
Defined.

(** X29. A scope of the heuristic path has two characters or more and is
    never [src]. It is one of [api], [ui], [tests], [cli], [build] and
    [lib], or it is the parent directory that most staged files have,
    which then is not [lib]. [generateSmartScope]. *)
Theorem generateSmartScope_shape changes analysis x :
  Summarizer.generateSmartScope changes analysis = Some x ->
  2 <= List.length x /\ x <> str "src" /\
  (In x fixedScopes \/
   (x <> str "lib" /\
    In x (parentDirectories changes) /\
    forall y, In y (parentDirectories changes) ->
              ~ In y Summarizer.prototypeNames ->
              occurrences y (parentDirectories changes)
              <= occurrences x (parentDirectories changes))).
Proof.
  intros H.
  destruct (scope_cases changes analysis x H) as (L & N & [F|[F Nl]]).
  - split; [exact L|]. split; [exact N|]. left. exact F.
  - split; [exact L|]. split; [exact N|]. right.
    destruct (findMostCommon_most _ _ F) as (_ & I & _ & M).
    split; [exact Nl|]. split; [exact I | exact M].
Qed.

Lemma generateSmartScope_shape_witness :
  2 <= List.length (str "parser") /\ str "parser" <> str "src" /\
  (In (str "parser") fixedScopes \/
   (str "parser" <> str "lib" /\
    In (str "parser") (parentDirectories MoreExamples.parserHelpers) /\
    forall y, In y (parentDirectories MoreExamples.parserHelpers) ->
              ~ In y Summarizer.prototypeNames ->
              occurrences y (parentDirectories MoreExamples.parserHelpers)
              <= occurrences (str "parser")
                   (parentDirectories MoreExamples.parserHelpers))).
Proof.
  apply (generateSmartScope_shape
           MoreExamples.parserHelpers
           (Classifier.analyzeChangesForFallback MoreExamples.parserHelpers)
           (str "parser")).
  vm_compute. reflexivity.
Defined.

(** X30. [analyzeDeletedFiles] never returns [null]: on every path it
    returns a string that starts with [remove], whatever words the file
    names share. So when the staged files are not exactly one and more
    than 0.7 times their number have the status [D], the subject is that
    string, and what the scan of the diffs found is not used.
    [analyzeDeletedFiles], [generateSmartSubject]. *)
Theorem generateSmartSubject_mostly_deleted
        findCommonWords changes analysis diffAnalysis :
  List.length (files changes) <> 1 ->
  Float.gtTimes (List.length (Summarizer.withStatus (files changes) "D"))
                (List.length (files changes))
                Float.significand_0_7 = true ->
  exists rest,
    Deletions.analyzeDeletedFiles findCommonWords
      (Summarizer.withStatus (files changes) "D")
    = Some (str "remove " ++ rest) /\
    Summarizer.generateSmartSubject
      (Deletions.analyzeDeletedFiles findCommonWords)
      changes analysis diffAnalysis
    = str "remove " ++ rest.
Proof.
  intros L G.
  destruct (analyzeDeletedFiles_removes
              findCommonWords (Summarizer.withStatus (files changes) "D"))
    as [rest R].
  exists rest. split; [exact R|].
  unfold Summarizer.generateSmartSubject.
  destruct (files changes) as [|file0 [|file1 others]] eqn:F.
  - cbv zeta. rewrite G, R. reflexivity.
  - contradiction L. reflexivity.
  - cbv zeta. rewrite G, R. reflexivity.
Qed.

Lemma generateSmartSubject_mostly_deleted_witness :
  exists rest,
    Deletions.analyzeDeletedFiles MoreExamples.noCommonWords
      (Summarizer.withStatus (files MoreExamples.notesDeleted) "D")
    = Some (str "remove " ++ rest) /\
    Summarizer.generateSmartSubject
      (Deletions.analyzeDeletedFiles MoreExamples.noCommonWords)
      MoreExamples.notesDeleted
      (Classifier.analyzeChangesForFallback MoreExamples.notesDeleted)
      (Extractor.summarize Extractor.nothingFound)
    = str "remove " ++ rest.
Proof.
  apply (generateSmartSubject_mostly_deleted
           MoreExamples.noCommonWords MoreExamples.notesDeleted
           (Classifier.analyzeChangesForFallback MoreExamples.notesDeleted)
           (Extractor.summarize Extractor.nothingFound)).
  - simpl. discriminate.
  - vm_compute. reflexivity.
Defined.
